(** * The module-repair subsystem of the LuxuryVista backend

    A shallow embedding of the self-healing utilities under
    [backend/app/apis]: [api_consistency], [string_fixer], [fix_module],
    [api_fixer], [operation_id_fixer] and [module_checker], and the
    properties of the repair subsystem proved or refuted on it.

    Conventions of the model:
    - source text is a [string] of ASCII characters;
    - CPython's [compile] and [importlib.import_module] are not code of the
      repository: they are section variables, so every theorem holds for
      any parser and importer, and a small lexer stands in for [compile]
      where a concrete file is run;
    - the directory [APIS_DIR] is a list of entries in [iterdir] order, and
      listing it does not fail;
    - a file holds its characters as they are on disk; it is read in text
      mode, which turns every line end into a newline, and written in text
      mode on a POSIX system, which stores the text as it is;
    - a file may refuse to be read or written; a whole-file write either
      fails, leaving the tree as it was, or replaces the content;
    - code inside a [try] is a computation in the monad [exc], whose
      [Raise] carries [str(e)]. *)

From Stdlib Require Import ZArith Ascii String List Lia DecimalString DecimalNat Sorted.
From stdpp Require Import base option list strings gmap.

Local Open Scope Z_scope.

(** ** Python built-ins used by the repair code *)

Module Py.

Definition nl : ascii := "010"%char.
Definition cr : ascii := "013"%char.
Definition dquote : ascii := "034"%char.
Definition squote : ascii := "039"%char.

Definition NL : string := String nl EmptyString.
Definition DQ : string := String dquote EmptyString.
Definition SQ : string := String squote EmptyString.
Definition DQ3 : string := DQ +:+ DQ +:+ DQ.
Definition SQ3 : string := SQ +:+ SQ +:+ SQ.

(** [str(n)] for an [int]. *)
Definition str_of_Z (z : Z) : string := NilZero.string_of_int (Z.to_int z).
Definition str_of_nat (n : nat) : string := NilZero.string_of_uint (Nat.to_uint n).

(** [s.startswith(p)], [sub in s], [s.endswith(p)]. *)
Definition startswith (p s : string) : bool := String.prefix p s.

Fixpoint contains (sub s : string) : bool :=
  startswith sub s ||
  match s with
  | EmptyString => false
  | String _ s' => contains sub s'
  end.

Definition endswith (p s : string) : bool :=
  startswith (String.rev p) (String.rev s).

(** [s.count(sub)]: occurrences that do not overlap, for a [sub] that is
    not empty (the only use in the source). *)
Fixpoint count_from (sub : string) (skip : nat) (s : string) : Z :=
  match s with
  | EmptyString => 0
  | String _ s' =>
      match skip with
      | S k => count_from sub k s'
      | O => if startswith sub s
             then 1 + count_from sub (String.length sub - 1) s'
             else count_from sub 0 s'
      end
  end.
Definition count (sub s : string) : Z := count_from sub 0 s.

(** [s.split('\n')] and ['\n'.join(ls)]. *)
Fixpoint split_nl (s : string) : list string :=
  match s with
  | EmptyString => [EmptyString]
  | String c s' =>
      if Ascii.eqb c nl then EmptyString :: split_nl s'
      else match split_nl s' with
           | l :: ls => String c l :: ls
           | [] => [String c EmptyString]
           end
  end.

Fixpoint join_nl (ls : list string) : string :=
  match ls with
  | [] => EmptyString
  | [l] => l
  | l :: ls' => l +:+ NL +:+ join_nl ls'
  end.

(** [s[:n]] and [s[n:]] for [0 <= n]. *)
Fixpoint take (n : nat) (s : string) : string :=
  match n, s with
  | S k, String c s' => String c (take k s')
  | _, _ => EmptyString
  end.
Fixpoint drop (n : nat) (s : string) : string :=
  match n, s with
  | S k, String _ s' => drop k s'
  | _, _ => s
  end.

(** [s.replace(old, new)] for a one-character [old]. *)
Fixpoint replace_char (old : ascii) (new s : string) : string :=
  match s with
  | EmptyString => EmptyString
  | String c s' =>
      if Ascii.eqb c old then new +:+ replace_char old new s'
      else String c (replace_char old new s')
  end.

(** [s * n]. *)
Fixpoint times (s : string) (n : nat) : string :=
  match n with
  | O => EmptyString
  | S k => s +:+ times s k
  end.

(** [c.isspace()] on the ASCII range, which is also what [\s] matches. *)
Definition is_space (c : ascii) : bool :=
  let n := N_of_ascii c in
  ((9 <=? n) && (n <=? 13) || (28 <=? n) && (n <=? 32))%N.

(** [s.strip() == ''] : only white space. *)
Fixpoint is_blank (s : string) : bool :=
  match s with
  | EmptyString => true
  | String c s' => is_space c && is_blank s'
  end.

(** [f.readlines()]: every line keeps its newline. *)
Fixpoint readlines (s : string) : list string :=
  match s with
  | EmptyString => []
  | String c s' =>
      if Ascii.eqb c nl then String c EmptyString :: readlines s'
      else match readlines s' with
           | l :: ls => String c l :: ls
           | [] => [String c EmptyString]
           end
  end.

(** [s.rfind('/') + 1]: the offset after the last slash, 0 without one. *)
Fixpoint after_last_slash (s : string) : nat :=
  match s with
  | EmptyString => O
  | String c s' =>
      if contains "/" s' then S (after_last_slash s')
      else if Ascii.eqb c "/" then 1%nat else O
  end.

(** [s.rstrip('/')]. *)
Definition rstrip_slash (s : string) : string :=
  String.rev ((fix go (r : string) : string :=
                 match r with
                 | String c r' => if Ascii.eqb c "/" then go r' else r
                 | EmptyString => EmptyString
                 end) (String.rev s)).

(** [os.path.basename] and [os.path.dirname] of [posixpath]. *)
Definition basename (p : string) : string := drop (after_last_slash p) p.

Definition dirname (p : string) : string :=
  let head := take (after_last_slash p) p in
  if String.eqb (rstrip_slash head) EmptyString then head else rstrip_slash head.

(** What a file opened in text mode gives on reading (universal newlines,
    the default of [open]): a carriage return comes out as a newline, and a
    newline right after a carriage return is dropped, so that [\r\n] and a
    lone [\r] both read as [\n]. *)
Fixpoint newlines_from (after_cr : bool) (s : string) : string :=
  match s with
  | EmptyString => EmptyString
  | String c s' =>
      if Ascii.eqb c cr then String nl (newlines_from true s')
      else if Ascii.eqb c nl && after_cr then newlines_from false s'
      else String c (newlines_from false s')
  end.

Definition universal_newlines (s : string) : string := newlines_from false s.

(** [lines[i] = x] inside the bounds the callers check first. *)
Definition set_item (lines : list string) (i : nat) (x : string) : list string :=
  <[i := x]> lines.

End Py.

(** ** The fragment of Python's [re] the source uses

    A backtracking matcher with Python's preference order: the left
    alternative first, a greedy star as long as possible, a lazy star as
    short as possible.  One capturing group is enough for the patterns of
    the repository.  Positions are character offsets, as in
    [match.start()] and [match.end()]. *)

Module Re.

Inductive regex : Type :=
| Eps
| Chr (c : ascii)
| Cls (p : ascii -> bool)
| Cat (r1 r2 : regex)
| Alt (r1 r2 : regex)
| Star (r : regex)
| LazyStar (r : regex)
| Dollar
| Group (r : regex).

Definition Plus (r : regex) : regex := Cat r (Star r).

Fixpoint Lit (s : string) : regex :=
  match s with
  | EmptyString => Eps
  | String c s' => Cat (Chr c) (Lit s')
  end.

(** Character classes. *)
Definition in_range (lo hi c : ascii) : bool :=
  (N.leb (N_of_ascii lo) (N_of_ascii c) && N.leb (N_of_ascii c) (N_of_ascii hi))%N.
Definition digit (c : ascii) : bool := in_range "0" "9" c.
Definition lower (c : ascii) : bool := in_range "a" "z" c.
Definition upper (c : ascii) : bool := in_range "A" "Z" c.
Definition word (c : ascii) : bool :=
  lower c || upper c || digit c || Ascii.eqb c "_".
Definition space (c : ascii) : bool := Py.is_space c.
Definition any_but (x : ascii) (c : ascii) : bool := negb (Ascii.eqb c x).
Definition dot : ascii -> bool := any_but Py.nl.

(** The state of a match: what is left of the input and group 1. *)
Definition outcome : Type := string * option string.

Fixpoint run (r : regex) (s : string) (g : option string)
    (k : string -> option string -> option outcome) : option outcome :=
  match r with
  | Eps => k s g
  | Chr c =>
      match s with
      | String c' s' => if Ascii.eqb c c' then k s' g else None
      | EmptyString => None
      end
  | Cls p =>
      match s with
      | String c' s' => if p c' then k s' g else None
      | EmptyString => None
      end
  | Cat r1 r2 => run r1 s g (fun s' g' => run r2 s' g' k)
  | Alt r1 r2 =>
      match run r1 s g k with
      | Some o => Some o
      | None => run r2 s g k
      end
  | Star r1 =>
      (fix star (fuel : nat) (s : string) (g : option string) : option outcome :=
         match fuel with
         | O => k s g
         | S n =>
             match run r1 s g (fun s' g' =>
                     if (String.length s' <? String.length s)%nat
                     then star n s' g' else None) with
             | Some o => Some o
             | None => k s g
             end
         end) (String.length s) s g
  | LazyStar r1 =>
      (fix lazy (fuel : nat) (s : string) (g : option string) : option outcome :=
         match k s g with
         | Some o => Some o
         | None =>
             match fuel with
             | O => None
             | S n =>
                 run r1 s g (fun s' g' =>
                   if (String.length s' <? String.length s)%nat
                   then lazy n s' g' else None)
             end
         end) (String.length s) s g
  | Dollar =>
      if String.eqb s EmptyString || String.eqb s Py.NL then k s g else None
  | Group r1 =>
      run r1 s g (fun s' _ =>
        k s' (Some (Py.take (String.length s - String.length s') s)))
  end.

(** A match object: [start], [end] and [group(1)]. *)
Record match_obj : Type := { m_start : nat; m_end : nat; m_group : option string }.

(** [re.match] at offset [pos] of the whole text, [s] being the text from
    there on. *)
Definition match_at (r : regex) (pos : nat) (s : string) : option match_obj :=
  match run r s None (fun s' g => Some (s', g)) with
  | Some (s', g) =>
      Some {| m_start := pos;
              m_end := (pos + (String.length s - String.length s'))%nat;
              m_group := g |}
  | None => None
  end.

(** [re.search(r, s)], with offsets shifted by [pos]. *)
Fixpoint search_from (r : regex) (pos : nat) (s : string) : option match_obj :=
  match match_at r pos s with
  | Some m => Some m
  | None =>
      match s with
      | EmptyString => None
      | String _ s' => search_from r (S pos) s'
      end
  end.
Definition search (r : regex) (s : string) : option match_obj := search_from r 0 s.

(** [list(re.finditer(r, s))]: leftmost matches that do not overlap.
    [skip] characters are still covered by the previous match. *)
Fixpoint finditer_from (r : regex) (pos skip : nat) (s : string) : list match_obj :=
  match skip with
  | S k =>
      match s with
      | EmptyString => []
      | String _ s' => finditer_from r (S pos) k s'
      end
  | O =>
      match match_at r pos s with
      | Some m =>
          m :: match s with
               | EmptyString => []
               | String _ s' =>
                   finditer_from r (S pos) (m_end m - m_start m - 1) s'
               end
      | None =>
          match s with
          | EmptyString => []
          | String _ s' => finditer_from r (S pos) 0 s'
          end
      end
  end.
Definition finditer (r : regex) (s : string) : list match_obj := finditer_from r 0 0 s.

(** [re.sub(r, repl, s)], the replacement computed from group 1. *)
Fixpoint sub_from (r : regex) (repl : option string -> string) (skip : nat)
    (s : string) : string :=
  match skip with
  | S k =>
      match s with
      | EmptyString => EmptyString
      | String _ s' => sub_from r repl k s'
      end
  | O =>
      match match_at r 0 s with
      | Some m =>
          repl (m_group m) +:+
          match s with
          | EmptyString => EmptyString
          | String c s' =>
              match m_end m with
              | O => String c (sub_from r repl 0 s')
              | S k => sub_from r repl k s'
              end
          end
      | None =>
          match s with
          | EmptyString => EmptyString
          | String c s' => String c (sub_from r repl 0 s')
          end
      end
  end.
Definition sub (r : regex) (repl : option string -> string) (s : string) : string :=
  sub_from r repl 0 s.

End Re.

(** ** What the environment provides *)

(** The outcome of [compile(code, '<string>', 'exec')]: success, a
    [SyntaxError] with its [lineno] and [str(e)], or another exception
    (a [ValueError] for a null byte, say) with its [str(e)]. *)
Inductive compile_result : Type :=
| Compiled
| SyntaxError (lineno : option Z) (text : string)
| OtherException (text : string).

(** A computation inside a [try]: a value, or a raised exception carrying
    [str(e)]. *)
Inductive exc (A : Type) : Type :=
| Ret (a : A)
| Raise (msg : string).
Arguments Ret {A} a.
Arguments Raise {A} msg.

#[global] Instance exc_ret : MRet exc := fun A a => Ret a.
#[global] Instance exc_bind : MBind exc := fun A B f m =>
  match m with
  | Ret a => f a
  | Raise msg => Raise msg
  end.
#[global] Instance exc_fmap : FMap exc := fun A B f m =>
  match m with
  | Ret a => Ret (f a)
  | Raise msg => Raise msg
  end.

(** The children of [APIS_DIR].  A file can refuse to be read or written,
    with the message of the [OSError] it raises. *)
Module Fs.

Record file : Type :=
  { content : string; read_error : option string; write_error : option string }.

Record entry : Type :=
  { name : string; is_dir : bool; init_py : option file }.

Definition tree : Type := list entry.

Definition named (m : string) (e : entry) : bool := String.eqb (name e) m.

Definition lookup (t : tree) (m : string) : option entry := List.find (named m) t.

(** The file [APIS_DIR / m / "__init__.py"], when there is one. *)
Definition init_file (t : tree) (m : string) : option file :=
  match lookup t m with
  | Some e => if is_dir e then init_py e else None
  | None => None
  end.

(** [init_path.exists()]. *)
Definition exists_init (t : tree) (m : string) : bool :=
  match init_file t m with Some _ => true | None => false end.

Definition no_such_file : string := "[Errno 2] No such file or directory".

(** [open(init_path, 'r').read()]: [content] holds the characters of the
    file, and the text mode of [open] translates its line ends. *)
Definition read (t : tree) (m : string) : exc string :=
  match init_file t m with
  | Some f =>
      match read_error f with
      | Some msg => Raise msg
      | None => Ret (Py.universal_newlines (content f))
      end
  | None => Raise no_such_file
  end.

Fixpoint set_init (t : tree) (m : string) (f : file) : tree :=
  match t with
  | [] => []
  | e :: t' =>
      if named m e
      then {| name := name e; is_dir := is_dir e; init_py := Some f |} :: t'
      else e :: set_init t' m f
  end.

(** [open(init_path, 'w').write(c)]: the whole file is replaced, or the
    tree is left as it was.  On the POSIX system of the backend the text
    mode writes a newline as it is, so the file holds the characters of
    [c]. *)
Definition write (t : tree) (m : string) (c : string) : exc tree :=
  match lookup t m with
  | Some e =>
      if is_dir e then
        match init_py e with
        | Some f =>
            match write_error f with
            | Some msg => Raise msg
            | None =>
                Ret (set_init t m {| content := c; read_error := read_error f;
                                     write_error := None |})
            end
        | None =>
            Ret (set_init t m {| content := c; read_error := None;
                                 write_error := None |})
        end
      else Raise no_such_file
  | None => Raise no_such_file
  end.

(** [[d.name for d in APIS_DIR.iterdir()
      if d.is_dir() and (d / "__init__.py").exists()]]. *)
Definition is_module (e : entry) : bool :=
  is_dir e && match init_py e with Some _ => true | None => false end.

Definition modules (t : tree) : list string := map name (List.filter is_module t).

End Fs.

(** The [status] strings of the reports. *)
Inductive status : Type :=
| fixed | no_issues | unfixable | error | ok | skipped | valid | invalid.

#[global] Instance status_eq_dec : EqDecision status.
Proof. solve_decision. Defined.

(** One entry of a report: the dict with keys [module], [status], [message]
    and, where the source sets it, [fixes].  ([error_details], a traceback,
    is left out.) *)
Record fix_result : Type :=
  { r_module : string; r_status : status; r_message : string;
    r_fixes : option (list string) }.

(** The dict the batch operations return. *)
Record fix_response : Type :=
  { results : list fix_result; total_modules : Z; fixed_modules : Z;
    modules_without_issues : Z; modules_with_errors : Z }.

(** [re.search(r'line (\d+)', text)] and [int(match.group(1))]. *)
Definition line_pattern : Re.regex :=
  Re.Cat (Re.Lit "line ") (Re.Group (Re.Plus (Re.Cls Re.digit))).

Definition int_of_digits (s : string) : Z :=
  match NilZero.uint_of_string s with
  | Some d => Z.of_N (N.of_uint d)
  | None => 0
  end.

Definition line_match (text : string) : option Z :=
  match Re.search line_pattern text with
  | Some m => Some (int_of_digits (default EmptyString (Re.m_group m)))
  | None => None
  end.

(** The four kinds of quote a fixer can append. *)
Inductive quote_kind : Type := Single | Double | TripleSingle | TripleDouble.

#[global] Instance quote_kind_eq_dec : EqDecision quote_kind.
Proof. solve_decision. Defined.

Definition quote_text (k : quote_kind) : string :=
  match k with
  | Single => Py.SQ
  | Double => Py.DQ
  | TripleSingle => Py.SQ3
  | TripleDouble => Py.DQ3
  end.

(** ** [api_consistency]: the consistency orchestrator *)

Module ApiConsistency.

Inductive issue_type : Type := syntax_error | unterminated_string.

Record issue : Type :=
  { type : issue_type; line : Z; description : string }.

(** The if/elif chain of [fix_unterminated_string] (lines 98-115): which
    quote the line gets, [None] when the chain falls to its [else]. *)
Definition unbalanced_kind (line : string) : option quote_kind :=
  let single_quotes := Py.count Py.SQ line in
  let double_quotes := Py.count Py.DQ line in
  let triple_single := Py.count Py.SQ3 line in
  let triple_double := Py.count Py.DQ3 line in
  if (single_quotes mod 2 =? 1) && (double_quotes mod 2 =? 0) then Some Single
  else if (double_quotes mod 2 =? 1) && (single_quotes mod 2 =? 0) then Some Double
  else if triple_single mod 2 =? 1 then Some TripleSingle
  else if triple_double mod 2 =? 1 then Some TripleDouble
  else None.

(** The record of the loop of [fix_module_syntax]. *)
Record progress : Type := { content : string; fixes_applied : list string }.

(** The skip list of [fix_all_modules_syntax]. *)
Definition skip_list : list string :=
  ["api_consistency"; "string_fixer"; "enhanced_string_fixer"; "api_fixer"].

Definition skipped_module (m : string) : bool := bool_decide (m ∈ skip_list).

(** The counters of the batch loop. *)
Record tally : Type :=
  { t_results : list fix_result; t_fixed : Z; t_no_issues : Z; t_error : Z }.

Section WithCompile.

Variable compile : string -> compile_result.

Definition is_syntax_valid (code : string) : bool :=
  match compile code with
  | Compiled => true
  | _ => false
  end.

(** Only a [SyntaxError] is caught; anything else reaches the caller. *)
Definition detect_issues (code : string) : exc (list issue) :=
  match compile code with
  | Compiled => Ret []
  | SyntaxError _ text =>
      let issue_type :=
        if Py.contains "unterminated string literal" text
        then unterminated_string else syntax_error in
      let line_number := default 0 (line_match text) in
      Ret [ {| type := issue_type; line := line_number; description := text |} ]
  | OtherException text => Raise text
  end.

(** The first text of [candidates] that compiles. *)
Definition first_valid (candidates : list string) : option string :=
  List.find is_syntax_valid candidates.

Definition fix_unterminated_string (code : string) (line_number : Z) : string :=
  let lines := Py.split_nl code in
  if (line_number <=? 0) || (line_number >? Z.of_nat (length lines)) then code
  else
    let i := Z.to_nat (line_number - 1) in
    let line := default EmptyString (lines !! i) in
    match unbalanced_kind line with
    | Some k => Py.join_nl (Py.set_item lines i (line +:+ quote_text k))
    | None =>
        match first_valid
                (map (fun quote_type =>
                        Py.join_nl (Py.set_item (Py.split_nl code) i (line +:+ quote_type)))
                     [Py.SQ; Py.DQ]) with
        | Some test_code => test_code
        | None =>
            match first_valid (map (fun quote_type => code +:+ quote_type)
                                   [Py.SQ; Py.DQ]) with
            | Some test_code => test_code
            | None => Py.join_nl lines
            end
        end
    end.

(** The body of [for issue in issues]. *)
Definition handle_issue (st : progress) (i : issue) : progress :=
  match type i with
  | unterminated_string =>
      let fixed_content := fix_unterminated_string (content st) (line i) in
      if bool_decide (fixed_content ≠ content st) then
        {| content := fixed_content;
           fixes_applied := fixes_applied st ++
             ["Fixed unterminated string at line " +:+ Py.str_of_Z (line i)] |}
      else
        {| content := content st;
           fixes_applied := fixes_applied st ++
             ["Couldn't fix unterminated string at line " +:+ Py.str_of_Z (line i)] |}
  | syntax_error =>
      {| content := content st;
         fixes_applied := fixes_applied st ++
           ["Couldn't fix syntax error: " +:+ description i] |}
  end.

(** [for i in range(max_iterations)], with its three [break]s. *)
Fixpoint repair_loop (iterations : nat) (st : progress) : exc progress :=
  match iterations with
  | O => Ret st
  | S n =>
      if is_syntax_valid (content st) then Ret st
      else
        issues ← detect_issues (content st);
        match issues with
        | [] => Ret st
        | _ =>
            let st' := fold_left handle_issue issues st in
            if is_syntax_valid (content st') then Ret st'
            else repair_loop n st'
        end
  end.

Definition max_iterations : nat := 10.

Definition fix_module_syntax (t : Fs.tree) (module_name : string)
    : fix_result * Fs.tree :=
  if negb (Fs.exists_init t module_name) then
    ({| r_module := module_name; r_status := error;
        r_message := "Module not found"; r_fixes := None |}, t)
  else
    let attempt : exc (fix_result * Fs.tree) :=
      original_content ← Fs.read t module_name;
      st ← repair_loop max_iterations
             {| content := original_content; fixes_applied := [] |};
      if is_syntax_valid (content st) then
        if bool_decide (content st ≠ original_content) then
          t' ← Fs.write t module_name (content st);
          mret ({| r_module := module_name; r_status := fixed;
                   r_message := "Fixed " +:+
                     Py.str_of_nat (length (fixes_applied st)) +:+ " issues";
                   r_fixes := Some (fixes_applied st) |}, t')
        else
          mret ({| r_module := module_name; r_status := no_issues;
                   r_message := "No syntax issues found"; r_fixes := None |}, t)
      else
        mret ({| r_module := module_name; r_status := unfixable;
                 r_message := "Could not fix all syntax issues automatically";
                 r_fixes := Some (fixes_applied st) |}, t) in
    match attempt with
    | Ret out => out
    | Raise msg =>
        ({| r_module := module_name; r_status := error;
            r_message := "Error fixing module: " +:+ msg;
            r_fixes := None |}, t)
    end.

(** The body of [for module in modules]. *)
Definition visit (acc : tally * Fs.tree) (module : string) : tally * Fs.tree :=
  let (c, t) := acc in
  if skipped_module module then acc
  else
    let (result, t') := fix_module_syntax t module in
    let rs := t_results c ++ [result] in
    match r_status result with
    | fixed =>
        ({| t_results := rs; t_fixed := t_fixed c + 1;
            t_no_issues := t_no_issues c; t_error := t_error c |}, t')
    | no_issues =>
        ({| t_results := rs; t_fixed := t_fixed c;
            t_no_issues := t_no_issues c + 1; t_error := t_error c |}, t')
    | _ =>
        ({| t_results := rs; t_fixed := t_fixed c;
            t_no_issues := t_no_issues c; t_error := t_error c + 1 |}, t')
    end.

Definition fix_all_modules_syntax (t : Fs.tree) : fix_response * Fs.tree :=
  let modules := Fs.modules t in
  let start := {| t_results := []; t_fixed := 0; t_no_issues := 0; t_error := 0 |} in
  let (c, t') := fold_left visit modules (start, t) in
  ({| results := t_results c;
      total_modules := Z.of_nat (length modules);
      fixed_modules := t_fixed c;
      modules_without_issues := t_no_issues c;
      modules_with_errors := t_error c |}, t').

End WithCompile.

End ApiConsistency.

(** ** [string_fixer]: the string-literal repairer *)

Module StringFixer.

(** The if/elif of [fix_unterminated_string] (lines 54-63). *)
Definition unbalanced_kind (line : string) : option quote_kind :=
  let single_quotes := Py.count Py.SQ line in
  let double_quotes := Py.count Py.DQ line in
  if (single_quotes mod 2 =? 1) && (double_quotes mod 2 =? 0) then Some Single
  else if (double_quotes mod 2 =? 1) && (single_quotes mod 2 =? 0) then Some Double
  else None.

Definition fix_unterminated_string (content : string) (line_number : Z) : string :=
  let lines := Py.split_nl content in
  if (line_number <=? 0) || (line_number >? Z.of_nat (length lines)) then content
  else
    let i := Z.to_nat (line_number - 1) in
    let line := default EmptyString (lines !! i) in
    match unbalanced_kind line with
    | Some k => Py.join_nl (Py.set_item lines i (line +:+ quote_text k))
    | None => Py.join_nl lines
    end.

Record progress : Type := { content : string; fixes_applied : list string }.

(** One turn of the loop either goes on or leaves through a [break]. *)
Inductive turn : Type := Continue (st : progress) | Break (st : progress).

Record tally : Type :=
  { t_results : list fix_result; t_fixed : Z; t_no_issues : Z; t_error : Z }.

Section WithCompile.

Variable compile : string -> compile_result.

(** Here only [SyntaxError] is caught. *)
Definition is_syntax_valid (code : string) : exc bool :=
  match compile code with
  | Compiled => Ret true
  | SyntaxError _ _ => Ret false
  | OtherException text => Raise text
  end.

Definition detect_unterminated_string (code : string) : exc (option (Z * string)) :=
  match compile code with
  | Compiled => Ret None
  | SyntaxError _ text =>
      if Py.contains "unterminated string literal" text then
        match line_match text with
        | Some line_number => Ret (Some (line_number, text))
        | None => Ret None
        end
      else Ret None
  | OtherException text => Raise text
  end.

(** The [else] branch of lines 99-116. *)
Definition aggressive (st : progress) (line_number : Z) : exc turn :=
  let lines := Py.split_nl (content st) in
  if line_number <=? Z.of_nat (length lines) then
    let test_single := content st +:+ Py.SQ in
    let test_double := content st +:+ Py.DQ in
    ok_single ← is_syntax_valid test_single;
    if ok_single : bool then
      mret (Continue {| content := test_single;
                       fixes_applied := fixes_applied st ++
                         ["Added single quote at end of file"] |})
    else
      ok_double ← is_syntax_valid test_double;
      if ok_double : bool then
        mret (Continue {| content := test_double;
                         fixes_applied := fixes_applied st ++
                           ["Added double quote at end of file"] |})
      else
        mret (Break {| content := content st;
                      fixes_applied := fixes_applied st ++
                        ["Couldn't fix line " +:+ Py.str_of_Z line_number] |})
  else mret (Continue st).

(** The body of [for i in range(max_iterations)]. *)
Definition loop_body (st : progress) : exc turn :=
  is_ok ← is_syntax_valid (content st);
  if is_ok : bool then mret (Break st)
  else
    string_error ← detect_unterminated_string (content st);
    match string_error with
    | None => mret (Break st)
    | Some (line_number, error_msg) =>
        let fixed_content := fix_unterminated_string (content st) line_number in
        if bool_decide (fixed_content ≠ content st) then
          mret (Continue {| content := fixed_content;
                           fixes_applied := fixes_applied st ++
                             ["Fixed unterminated string at line " +:+
                              Py.str_of_Z line_number] |})
        else aggressive st line_number
    end.

Fixpoint repair_loop (iterations : nat) (st : progress) : exc progress :=
  match iterations with
  | O => Ret st
  | S n =>
      step ← loop_body st;
      match step with
      | Break st' => Ret st'
      | Continue st' => repair_loop n st'
      end
  end.

Definition max_iterations : nat := 5.

Definition fix_module_string_literals (t : Fs.tree) (module_name : string)
    : fix_result * Fs.tree :=
  if negb (Fs.exists_init t module_name) then
    ({| r_module := module_name; r_status := error;
        r_message := "Module not found"; r_fixes := None |}, t)
  else
    let attempt : exc (fix_result * Fs.tree) :=
      original_content ← Fs.read t module_name;
      st ← repair_loop max_iterations
             {| content := original_content; fixes_applied := [] |};
      is_ok ← is_syntax_valid (content st);
      if is_ok : bool then
        if bool_decide (content st ≠ original_content) then
          t' ← Fs.write t module_name (content st);
          mret ({| r_module := module_name; r_status := fixed;
                   r_message := "Fixed " +:+
                     Py.str_of_nat (length (fixes_applied st)) +:+ " string literals";
                   r_fixes := Some (fixes_applied st) |}, t')
        else
          mret ({| r_module := module_name; r_status := no_issues;
                   r_message := "No string literal issues found";
                   r_fixes := None |}, t)
      else
        mret ({| r_module := module_name; r_status := unfixable;
                 r_message := "Could not fix all string literals automatically";
                 r_fixes := Some (fixes_applied st) |}, t) in
    match attempt with
    | Ret out => out
    | Raise msg =>
        ({| r_module := module_name; r_status := error;
            r_message := "Error fixing module: " +:+ msg;
            r_fixes := None |}, t)
    end.

Definition visit (acc : tally * Fs.tree) (module : string) : tally * Fs.tree :=
  let (c, t) := acc in
  if String.eqb module "string_fixer" then acc
  else
    let (result, t') := fix_module_string_literals t module in
    let rs := t_results c ++ [result] in
    match r_status result with
    | fixed =>
        ({| t_results := rs; t_fixed := t_fixed c + 1;
            t_no_issues := t_no_issues c; t_error := t_error c |}, t')
    | no_issues =>
        ({| t_results := rs; t_fixed := t_fixed c;
            t_no_issues := t_no_issues c + 1; t_error := t_error c |}, t')
    | _ =>
        ({| t_results := rs; t_fixed := t_fixed c;
            t_no_issues := t_no_issues c; t_error := t_error c + 1 |}, t')
    end.

Definition fix_all_modules (t : Fs.tree) : fix_response * Fs.tree :=
  let modules := Fs.modules t in
  let start := {| t_results := []; t_fixed := 0; t_no_issues := 0; t_error := 0 |} in
  let (c, t') := fold_left visit modules (start, t) in
  ({| results := t_results c;
      total_modules := Z.of_nat (length modules);
      fixed_modules := t_fixed c;
      modules_without_issues := t_no_issues c;
      modules_with_errors := t_error c |}, t').

End WithCompile.

End StringFixer.

(** ** [fix_module]: the single-pass string-literal fixer *)

Module FixModule.

(** What [fix_string_literals] returns: the bare [{"error": ...}] dict, or
    a dict with [module] and [status].  ([remaining_error] is left out.) *)
Inductive reply : Type :=
| Failure (error : string)
| Report (r : fix_result).

(** [r.get("status")]. *)
Definition get_status (r : reply) : option status :=
  match r with
  | Failure _ => None
  | Report r => Some (r_status r)
  end.

(** [r.get("module")]. *)
Definition get_module (r : reply) : option string :=
  match r with
  | Failure _ => None
  | Report r => Some (r_module r)
  end.

Record batch_report : Type :=
  { total_processed : Z; n_fixed : Z; n_unfixable : Z; n_errors : Z;
    b_results : list reply }.

(** The counts after lines 59-66: triple quotes are taken off three at a
    time. *)
Definition single_quotes (line : string) : Z :=
  Py.count Py.SQ line - Py.count Py.SQ3 line * 3.
Definition double_quotes (line : string) : Z :=
  Py.count Py.DQ line - Py.count Py.DQ3 line * 3.
Definition triple_single (line : string) : Z := Py.count Py.SQ3 line.
Definition triple_double (line : string) : Z := Py.count Py.DQ3 line.

(** The first four branches of lines 71-96; [None] is the best-guess
    [else]. *)
Definition unbalanced_kind (line : string) : option quote_kind :=
  if single_quotes line mod 2 =? 1 then Some Single
  else if double_quotes line mod 2 =? 1 then Some Double
  else if triple_single line mod 2 =? 1 then Some TripleSingle
  else if triple_double line mod 2 =? 1 then Some TripleDouble
  else None.

(** [lines.insert(i, x)]. *)
Definition insert_at (lines : list string) (i : nat) (x : string) : list string :=
  take i lines ++ x :: drop i lines.

(** Lines 69-107: the new list of lines and the [fixes] messages. *)
Definition repair_lines (lines : list string) (error_line : Z)
    : list string * list string :=
  let i := Z.to_nat (error_line - 1) in
  let line := default EmptyString (lines !! i) in
  let at_line := " at line " +:+ Py.str_of_Z error_line in
  let after_line := " after line " +:+ Py.str_of_Z error_line in
  match unbalanced_kind line with
  | Some Single =>
      (Py.set_item lines i (line +:+ Py.SQ), ["Fixed single quote" +:+ at_line])
  | Some Double =>
      (Py.set_item lines i (line +:+ Py.DQ), ["Fixed double quote" +:+ at_line])
  | Some TripleSingle =>
      if Py.endswith (Py.SQ +:+ Py.SQ) line || Py.endswith Py.SQ line then
        let missing_quotes := (3 - (if Py.endswith Py.SQ line then 1 else 2))%nat in
        (Py.set_item lines i (line +:+ Py.times Py.SQ missing_quotes),
         ["Fixed triple single quote" +:+ at_line])
      else
        (Py.set_item (insert_at lines (Z.to_nat error_line) Py.SQ3) i line,
         ["Added closing triple single quote" +:+ after_line])
  | Some TripleDouble =>
      if Py.endswith (Py.DQ +:+ Py.DQ) line || Py.endswith Py.DQ line then
        let missing_quotes := (3 - (if Py.endswith Py.DQ line then 1 else 2))%nat in
        (Py.set_item lines i (line +:+ Py.times Py.DQ missing_quotes),
         ["Fixed triple double quote" +:+ at_line])
      else
        (Py.set_item (insert_at lines (Z.to_nat error_line) Py.DQ3) i line,
         ["Added closing triple double quote" +:+ after_line])
  | None =>
      if Py.count Py.SQ line >? Py.count Py.DQ line then
        (Py.set_item lines i (line +:+ Py.SQ),
         ["Fixed single quote" +:+ at_line +:+ " (best guess)"])
      else
        (Py.set_item lines i (line +:+ Py.DQ),
         ["Fixed double quote" +:+ at_line +:+ " (best guess)"])
  end.

Definition none_type_error : string :=
  "'<=' not supported between instances of 'NoneType' and 'int'".

Section WithCompile.

Variable compile : string -> compile_result.

Definition fix_string_literals (t : Fs.tree) (module_name : string)
    : reply * Fs.tree :=
  let entry (s : status) (msg : string) (fx : option (list string)) : reply :=
    Report {| r_module := module_name; r_status := s; r_message := msg;
              r_fixes := fx |} in
  let attempt : exc (reply * Fs.tree) :=
    if negb (Fs.exists_init t module_name) then
      mret (Failure ("Module not found: " +:+ module_name), t)
    else
      content ← Fs.read t module_name;
      match compile content with
      | Compiled => mret (entry ok "Module already has valid syntax" None, t)
      | OtherException text => Raise text
      | SyntaxError lineno error_msg =>
          if negb (Py.contains "unterminated string literal" error_msg) then
            mret (entry error ("Module has non-string-literal syntax error: "
                               +:+ error_msg) None, t)
          else
            match lineno with
            | None => Raise none_type_error
            | Some error_line =>
                let lines := Py.split_nl content in
                if (error_line <=? 0) || (error_line >? Z.of_nat (length lines)) then
                  mret (entry error ("Invalid error line: " +:+
                                     Py.str_of_Z error_line) None, t)
                else
                  let (lines', fixes) := repair_lines lines error_line in
                  let new_content := Py.join_nl lines' in
                  match compile new_content with
                  | Compiled =>
                      t' ← Fs.write t module_name new_content;
                      mret (entry fixed "Successfully fixed string literals"
                                  (Some fixes), t')
                  | SyntaxError _ _ =>
                      mret (entry unfixable
                              "Could not fix all string literals automatically"
                              (Some fixes), t)
                  | OtherException text => Raise text
                  end
            end
      end in
  match attempt with
  | Ret out => out
  | Raise msg =>
      (Failure ("Error processing module " +:+ module_name +:+ ": " +:+ msg), t)
  end.

(** The body of [for module_name in modules], with its inner [try]. *)
Definition visit (acc : list reply * Fs.tree) (module_name : string)
    : list reply * Fs.tree :=
  let (results, t) := acc in
  let failed (msg : string) : list reply * Fs.tree :=
    (results ++ [Report {| r_module := module_name; r_status := error;
                           r_message := msg; r_fixes := None |}], t) in
  match Fs.read t module_name with
  | Raise msg => failed msg
  | Ret content =>
      match compile content with
      | Compiled => acc
      | OtherException text => failed text
      | SyntaxError _ text =>
          if negb (Py.contains "unterminated string literal" text) then acc
          else
            let (result, t') := fix_string_literals t module_name in
            (results ++ [result], t')
      end
  end.

Definition count_status (s : status) (results : list reply) : Z :=
  Z.of_nat (length (List.filter
    (fun r => bool_decide (get_status r = Some s)) results)).

Definition fix_all_modules (t : Fs.tree) : batch_report * Fs.tree :=
  let modules := Fs.modules t in
  let (results, t') := fold_left visit modules ([], t) in
  ({| total_processed := Z.of_nat (length results);
      n_fixed := count_status fixed results;
      n_unfixable := count_status unfixable results;
      n_errors := count_status error results;
      b_results := results |}, t').

End WithCompile.

End FixModule.

(** ** [module_checker]: the health check *)

Module ModuleChecker.

Record module_status : Type :=
  { module : string; m_status : status; message : string; has_router : bool }.

Record check_response : Type :=
  { modules : list module_status; total : Z; n_valid : Z; n_invalid : Z }.

Record tally : Type :=
  { t_results : list module_status; t_valid : Z; t_invalid : Z }.

Section WithImport.

(** [importlib.import_module("app.apis." + m)] followed by
    [hasattr(module, 'router')]: whether the module has a router, or the
    exception the import raised. *)
Variable import_module : Fs.tree -> string -> exc bool.

Definition check_module (t : Fs.tree) (module_name : string) : module_status :=
  if negb (Fs.exists_init t module_name) then
    {| module := module_name; m_status := error;
       message := "Module not found"; has_router := false |}
  else
    match import_module t module_name with
    | Ret has_router =>
        {| module := module_name; m_status := valid;
           message := "Module imports successfully" +:+
                      (if has_router then ", has router" else ", no router");
           has_router := has_router |}
    | Raise msg =>
        {| module := module_name; m_status := invalid;
           message := "Import failed: " +:+ msg; has_router := false |}
    end.

Definition visit (t : Fs.tree) (c : tally) (module : string) : tally :=
  if String.eqb module "module_checker" then c
  else
    let result := check_module t module in
    let rs := t_results c ++ [result] in
    match m_status result with
    | valid => {| t_results := rs; t_valid := t_valid c + 1; t_invalid := t_invalid c |}
    | _ => {| t_results := rs; t_valid := t_valid c; t_invalid := t_invalid c + 1 |}
    end.

Definition check_all_modules (t : Fs.tree) : check_response :=
  let mods := Fs.modules t in
  let c := fold_left (visit t) mods
             {| t_results := []; t_valid := 0; t_invalid := 0 |} in
  {| modules := t_results c; total := Z.of_nat (length mods);
     n_valid := t_valid c; n_invalid := t_invalid c |}.

End WithImport.

End ModuleChecker.


(** ** [api_fixer]: router definitions and missing operation ids *)

Module ApiFixer.

(** [r'((?:import|from).*?(?:\n|$))'] *)
Definition import_pattern : Re.regex :=
  Re.Group
    (Re.Cat (Re.Alt (Re.Lit "import") (Re.Lit "from"))
       (Re.Cat (Re.LazyStar (Re.Cls Re.dot)) (Re.Alt (Re.Chr Py.nl) Re.Dollar))).

(** [r'router\s*=\s*APIRouter\('] *)
Definition router_def_pattern : Re.regex :=
  Re.Cat (Re.Lit "router")
    (Re.Cat (Re.Star (Re.Cls Re.space))
       (Re.Cat (Re.Chr "=")
          (Re.Cat (Re.Star (Re.Cls Re.space)) (Re.Lit "APIRouter(")))).

(** [from fastapi import] followed by a group holding the rest of the line. *)
Definition fastapi_import_pattern : Re.regex :=
  Re.Cat (Re.Lit "from fastapi import ")
    (Re.Group (Re.Star (Re.Cls (Re.any_but Py.nl)))).

(** [r'@router\.[a-z]+\([^)]*\)'] *)
Definition router_pattern : Re.regex :=
  Re.Cat (Re.Lit "@router.")
    (Re.Cat (Re.Plus (Re.Cls Re.lower))
       (Re.Cat (Re.Chr "(")
          (Re.Cat (Re.Star (Re.Cls (Re.any_but ")"))) (Re.Chr ")")))).

(** [r'def\s+([a-zA-Z0-9_]+)\s*\('] *)
Definition def_pattern : Re.regex :=
  Re.Cat (Re.Lit "def")
    (Re.Cat (Re.Plus (Re.Cls Re.space))
       (Re.Cat (Re.Group (Re.Plus (Re.Cls Re.word)))
          (Re.Cat (Re.Star (Re.Cls Re.space)) (Re.Chr "(")))).

(** [content[:pos] + text + content[pos:]]. *)
Definition insert_text (content : string) (pos : nat) (text : string) : string :=
  Py.take pos content +:+ text +:+ Py.drop pos content.

(** [imports[-1].end()] when [imports] is not empty. *)
Definition last_import_end (content : string) : option nat :=
  Re.m_end <$> last (Re.finditer import_pattern content).

Definition fix_router_definition (content : string) : string :=
  if negb (Py.contains "router =" content) && Py.contains "@router." content then
    match last_import_end content with
    | Some insert_pos =>
        let router_def :=
          Py.NL +:+ Py.NL +:+ "from fastapi import APIRouter" +:+ Py.NL +:+ Py.NL +:+
          "router = APIRouter()" +:+ Py.NL in
        insert_text content insert_pos router_def
    | None => content
    end
  else content.

(** What [fix_module_router] returns: the dict with [status] of its two
    early exits, or the dict with the router flags. *)
Inductive router_reply : Type :=
| RouterError (module message : string)
| RouterFix (module : string) (had_router_import had_router_definition fixed : bool)
    (message : string).

(** [", ".join(fixes_applied)] *)
Fixpoint join_comma (ls : list string) : string :=
  match ls with
  | [] => EmptyString
  | [l] => l
  | l :: ls' => l +:+ ", " +:+ join_comma ls'
  end.

(** Fix 1 of [fix_module_router] (lines 310-335). *)
Definition add_router_import (content : string) : string * list string :=
  match last_import_end content with
  | Some insert_pos =>
      (if Py.contains "from fastapi import" content then
         Re.sub fastapi_import_pattern
           (fun g => "from fastapi import " +:+ default EmptyString g +:+ ", APIRouter")
           content
       else
         insert_text content insert_pos
           (Py.NL +:+ "from fastapi import APIRouter, HTTPException" +:+ Py.NL),
       ["Added APIRouter import"])
  | None =>
      ("from fastapi import APIRouter, HTTPException" +:+ Py.NL +:+ Py.NL +:+ content,
       ["Added APIRouter import at beginning"])
  end.

(** Fix 2 of [fix_module_router] (lines 338-356). *)
Definition add_router_definition (content : string) : string * list string :=
  let router_def :=
    Py.NL +:+ Py.NL +:+ "# Create API router" +:+ Py.NL +:+ "router = APIRouter()" +:+
    Py.NL +:+ Py.NL in
  match last_import_end content with
  | Some insert_pos => (insert_text content insert_pos router_def, ["Added router definition"])
  | None =>
      if Py.contains "from fastapi import APIRouter" content
      then (content +:+ router_def, ["Added router definition at end"])
      else (content, [])
  end.

Definition fix_module_router (t : Fs.tree) (module_name : string)
    : router_reply * Fs.tree :=
  if negb (Fs.exists_init t module_name) then
    (RouterError module_name "Module not found", t)
  else
    let attempt : exc (router_reply * Fs.tree) :=
      content ← Fs.read t module_name;
      if Py.is_blank content then mret (RouterError module_name "Empty file", t)
      else
        let had_router_import := Py.contains "APIRouter" content in
        let had_router_def :=
          match Re.search router_def_pattern content with
          | Some _ => true
          | None => false
          end in
        let (content1, fixes1) :=
          if had_router_import then (content, []) else add_router_import content in
        let (content2, fixes2) :=
          if had_router_def then (content1, []) else add_router_definition content1 in
        let fixes_applied := fixes1 ++ fixes2 in
        match fixes_applied with
        | [] =>
            mret (RouterFix module_name had_router_import had_router_def false
                    "No router issues to fix", t)
        | _ =>
            t' ← Fs.write t module_name content2;
            mret (RouterFix module_name had_router_import had_router_def true
                    (join_comma fixes_applied), t')
        end in
    match attempt with
    | Ret out => out
    | Raise msg => (RouterFix module_name false false false ("Error: " +:+ msg), t)
    end.

(** The body of [for match in reversed(matches)] of [fix_operation_ids]:
    [original] is the text the matches were found in, [acc] the current
    content and the number of fixes. *)
Definition fix_decorator (original : string) (acc : string * Z) (m : Re.match_obj)
    : string * Z :=
  let (content, module_fixes) := acc in
  let decorator := Py.take (Re.m_end m - Re.m_start m) (Py.drop (Re.m_start m) original) in
  if negb (Py.contains "operation_id=" decorator) then
    match Re.search def_pattern (Py.drop (Re.m_end m) content) with
    | Some func_match =>
        let func_name := default EmptyString (Re.m_group func_match) in
        let fixed_decorator :=
          Py.replace_char ")"
            (", operation_id=" +:+ Py.DQ +:+ func_name +:+ Py.DQ +:+ ")") decorator in
        (Py.take (Re.m_start m) content +:+ fixed_decorator +:+
         Py.drop (Re.m_end m) content, module_fixes + 1)
    | None => acc
    end
  else acc.

(** Lines 633-652: the new content of one file and its number of fixes. *)
Definition add_operation_ids (content : string) : string * Z :=
  let matches := Re.finditer router_pattern content in
  fold_left (fix_decorator content) (rev matches) (content, 0).

Record scan_report : Type :=
  { modules_checked : Z; modules_fixed : Z; decorators_fixed : Z;
    fixed_modules : list string }.

(** The body of [for item in os.listdir(APIS_DIR)], over the listing made
    before the loop. *)
Definition scan_item (acc : scan_report * Fs.tree) (e : Fs.entry)
    : scan_report * Fs.tree :=
  let (rep, t) := acc in
  let item := Fs.name e in
  if Fs.exists_init t item && negb (String.eqb item "__pycache__") then
    match Fs.read t item with
    | Ret content =>
        let (content', module_fixes) := add_operation_ids content in
        if module_fixes >? 0 then
          match Fs.write t item content' with
          | Ret t' =>
              ({| modules_checked := modules_checked rep;
                  modules_fixed := modules_fixed rep + 1;
                  decorators_fixed := decorators_fixed rep + module_fixes;
                  fixed_modules := fixed_modules rep ++ [item] |}, t')
          | Raise _ => acc
          end
        else acc
    | Raise _ => acc
    end
  else acc.

Definition fix_operation_ids (t : Fs.tree) : scan_report * Fs.tree :=
  fold_left scan_item t
    ({| modules_checked := Z.of_nat (length t) - 1; modules_fixed := 0;
        decorators_fixed := 0; fixed_modules := [] |}, t).

End ApiFixer.

(** ** [operation_id_fixer]: duplicate operation ids *)

Module OperationIdFixer.

Record OperationId : Type :=
  { value : string; filepath : string; function_name : string; line_no : nat }.

Record RouterDecorator : Type :=
  { d_method : string; d_path : string; d_operation_id : option string;
    d_function_name : string; d_line_no : nat; d_line_text : string }.

(** Lines 182-187 of [find_duplicate_operation_ids]: the explicit id when it
    is set (and not empty), the function name otherwise. *)
Definition effective_id (d : RouterDecorator) : string :=
  match d_operation_id d with
  | Some op_id => if String.eqb op_id EmptyString then d_function_name d else op_id
  | None => d_function_name d
  end.

(** [operation_ids[op_id].append(x)] on a dict kept in insertion order. *)
Fixpoint dict_append {A : Type} (d : list (string * list A)) (k : string) (x : A)
    : list (string * list A) :=
  match d with
  | [] => [(k, [x])]
  | (k', xs) :: d' =>
      if String.eqb k' k then (k', xs ++ [x]) :: d'
      else (k', xs) :: dict_append d' k x
  end.

Definition base_id (module_name function_name : string) : string :=
  module_name +:+ "_" +:+ function_name.

Definition suffixed (base : string) (counter : nat) : string :=
  base +:+ "_" +:+ Py.str_of_nat counter.

(** The [while] of [generate_unique_operation_id]: the first counter from
    [counter] on whose id is free.  [fuel] bounds the search; the size of
    the used set is enough (see [generate_unique_operation_id_fresh]). *)
Fixpoint free_counter (used : gset string) (base : string) (fuel counter : nat) : nat :=
  match fuel with
  | O => counter
  | S n =>
      if bool_decide (suffixed base counter ∈ used)
      then free_counter used base n (S counter)
      else counter
  end.

Definition generate_unique_operation_id (module_name function_name : string)
    (used_operation_ids : gset string) : string :=
  let base := base_id module_name function_name in
  if bool_decide (base ∉ used_operation_ids) then base
  else suffixed base (free_counter used_operation_ids base (size used_operation_ids) 1).

(** The pattern of line 268: [operation_id], an equals sign between optional
    blanks, a quote of either kind, characters that are no quote, then a
    single quote. *)
Definition is_quote (c : ascii) : bool := Ascii.eqb c Py.dquote || Ascii.eqb c Py.squote.

Definition operation_id_pattern : Re.regex :=
  Re.Cat (Re.Lit "operation_id")
    (Re.Cat (Re.Star (Re.Cls Re.space))
       (Re.Cat (Re.Chr "=")
          (Re.Cat (Re.Star (Re.Cls Re.space))
             (Re.Cat (Re.Cls is_quote)
                (Re.Cat (Re.Plus (Re.Cls (fun c => negb (is_quote c))))
                   (Re.Chr Py.squote)))))).

(** Lines 263-274 of [suggest_fixes]: the keyword with the new id, and the
    line rewritten with it. *)
Definition new_keyword (unique_id : string) : string :=
  "operation_id=" +:+ Py.DQ +:+ unique_id +:+ Py.DQ.

Definition fixed_line (original_line unique_id : string) : string :=
  if Py.contains "operation_id=" original_line
  then Re.sub operation_id_pattern (fun _ => new_keyword unique_id) original_line
  else Py.replace_char ")" (", " +:+ new_keyword unique_id +:+ ")") original_line.

(** One suggested fix, with the id it was generated from. *)
Record suggestion : Type :=
  { f_filepath : string; f_unique_id : string;
    f_original_line : string; f_fixed_line : string }.

Definition index_error : string := "list index out of range".

Section WithFiles.

(** [extract_router_decorators], which walks the [ast] of a file, and the
    content of a file by path. *)
Variable extract_router_decorators : string -> list RouterDecorator.
Variable read_text : string -> exc string.

Definition find_duplicate_operation_ids (router_files : list (string * string))
    : list (string * list OperationId) :=
  let record_file (acc : list (string * list OperationId)) (rf : string * string) :=
    fold_left (fun acc d =>
                 let op_id := effective_id d in
                 dict_append acc op_id
                   {| value := op_id; filepath := rf.1;
                      function_name := d_function_name d; line_no := d_line_no d |})
              (extract_router_decorators rf.1) acc in
  List.filter (fun kv => (1 <? length kv.2)%nat) (fold_left record_file router_files []).

(** The first pass of [suggest_fixes]. *)
Definition duplicated_ids (duplicates : list (string * list OperationId)) : gset string :=
  list_to_set (value <$> concat (snd <$> duplicates)).

(** The body of the second pass for one instance. *)
Definition fix_instance (used : gset string) (instance : OperationId)
    : exc (suggestion * gset string) :=
  let module_name := Py.basename (Py.dirname (filepath instance)) in
  text ← read_text (filepath instance);
  match Py.readlines text !! line_no instance with
  | None => Raise index_error
  | Some original_line =>
      let unique_id :=
        generate_unique_operation_id module_name (function_name instance) used in
      mret ({| f_filepath := filepath instance; f_unique_id := unique_id;
               f_original_line := original_line;
               f_fixed_line := fixed_line original_line unique_id |},
            {[unique_id]} ∪ used)
  end.

Fixpoint fix_instances (used : gset string) (instances : list OperationId)
    : exc (list suggestion) :=
  match instances with
  | [] => mret []
  | instance :: rest =>
      '(f, used') ← fix_instance used instance;
      fs ← fix_instances used' rest;
      mret (f :: fs)
  end.

(** The fixes in the order [suggest_fixes] generates them. *)
Definition suggested (duplicates : list (string * list OperationId)) : exc (list suggestion) :=
  fix_instances (duplicated_ids duplicates) (concat (snd <$> duplicates)).

(** [suggest_fixes]: the same fixes grouped by file. *)
Definition suggest_fixes (duplicates : list (string * list OperationId))
    : exc (list (string * list (string * string))) :=
  fs ← suggested duplicates;
  mret (fold_left (fun d f => dict_append d (f_filepath f)
                                (f_original_line f, f_fixed_line f)) fs []).

End WithFiles.

End OperationIdFixer.

(** ** A small lexer standing in for [compile] on concrete files

    The theorems below hold for every [compile].  To run the repairers on
    concrete files, [mini_compile] reads comments, string literals and round
    brackets the way CPython's tokenizer does and answers in the words of
    CPython 3.11.  On the sample files of this development it returns what
    CPython 3.11 returns (see [mini_compile_samples]). *)

Module Sample.

Inductive mode : Type :=
| Code
| Comment
| Str (q : ascii)
| Triple (q : ascii) (start : Z).

Definition located (what : string) (line : Z) : string :=
  what +:+ " (<string>, line " +:+ Py.str_of_Z line +:+ ")".

Definition unterminated (line : Z) : compile_result :=
  SyntaxError (Some line)
    (located ("unterminated string literal (detected at line " +:+
              Py.str_of_Z line +:+ ")") line).

Definition unterminated_triple (start line : Z) : compile_result :=
  SyntaxError (Some start)
    (located ("unterminated triple-quoted string literal (detected at line " +:+
              Py.str_of_Z line +:+ ")") start).

Definition never_closed (line : Z) : compile_result :=
  SyntaxError (Some line) (located "'(' was never closed" line).

Definition unmatched (line : Z) : compile_result :=
  SyntaxError (Some line) (located "unmatched ')'" line).

Definition null_byte : compile_result :=
  OtherException "source code string cannot contain null bytes".

(** [skip] characters were already read as part of a triple quote or after
    a backslash; [opened] holds the line of every bracket still open; [last]
    is the number of the last line of the file. *)
Fixpoint lex (last : Z) (s : string) (m : mode) (skip : nat) (line : Z)
    (opened : list Z) : compile_result :=
  match s with
  | EmptyString =>
      match m with
      | Str _ => unterminated line
      | Triple _ start => unterminated_triple start last
      | _ => match opened with
             | l :: _ => never_closed l
             | [] => Compiled
             end
      end
  | String c s' =>
      let line' := if Ascii.eqb c Py.nl then line + 1 else line in
      match skip with
      | S k => lex last s' m k line' opened
      | O =>
          match m with
          | Code =>
              if Ascii.eqb c "#" then lex last s' Comment 0 line opened
              else if OperationIdFixer.is_quote c then
                if Py.startswith (String c (String c EmptyString)) s'
                then lex last s' (Triple c line) 2 line opened
                else lex last s' (Str c) 0 line opened
              else if Ascii.eqb c "(" then lex last s' Code 0 line (line :: opened)
              else if Ascii.eqb c ")" then
                match opened with
                | _ :: rest => lex last s' Code 0 line rest
                | [] => unmatched line
                end
              else lex last s' Code 0 line' opened
          | Comment =>
              if Ascii.eqb c Py.nl then lex last s' Code 0 line' opened
              else lex last s' Comment 0 line opened
          | Str q =>
              if Ascii.eqb c Py.nl then unterminated line
              else if Ascii.eqb c "\" then lex last s' (Str q) 1 line opened
              else if Ascii.eqb c q then lex last s' Code 0 line opened
              else lex last s' (Str q) 0 line opened
          | Triple q start =>
              if Ascii.eqb c "\" then lex last s' (Triple q start) 1 line' opened
              else if Ascii.eqb c q && Py.startswith (String q (String q EmptyString)) s'
              then lex last s' Code 2 line opened
              else lex last s' (Triple q start) 0 line' opened
          end
      end
  end.

Definition mini_compile (code : string) : compile_result :=
  if Py.contains (String "000" EmptyString) code then null_byte
  else lex (Z.of_nat (length (Py.readlines code))) code Code 0 1 [].

(** A module directory holding a readable, writable [__init__.py]. *)
Definition module_dir (name content : string) : Fs.entry :=
  {| Fs.name := name; Fs.is_dir := true;
     Fs.init_py := Some {| Fs.content := content; Fs.read_error := None;
                           Fs.write_error := None |} |}.

(** A module directory whose [__init__.py] cannot be read. *)
Definition unreadable_dir (name msg : string) : Fs.entry :=
  {| Fs.name := name; Fs.is_dir := true;
     Fs.init_py := Some {| Fs.content := EmptyString; Fs.read_error := Some msg;
                           Fs.write_error := None |} |}.

(** A module directory whose [__init__.py] can be read and not written. *)
Definition unwritable_dir (name content msg : string) : Fs.entry :=
  {| Fs.name := name; Fs.is_dir := true;
     Fs.init_py := Some {| Fs.content := content; Fs.read_error := None;
                           Fs.write_error := Some msg |} |}.

(** The file of the example scenario: one line with an open double quote. *)
Definition luxury : string := "description = " +:+ Py.DQ +:+ "Luxury home" +:+ Py.NL.
Definition luxury_fixed : string :=
  "description = " +:+ Py.DQ +:+ "Luxury home" +:+ Py.DQ +:+ Py.NL.

(** A file no quote can repair, and a file with nothing to repair. *)
Definition open_bracket : string := "x = (".
Definition healthy : string := "x = 1" +:+ Py.NL.

End Sample.

(** ** The two iterating repairers behind one name

    [repair] is the operation the properties of the repair subsystem speak
    of: [fix_module_syntax] of the orchestrator or
    [fix_module_string_literals] of the string fixer.  [is_valid] is the
    syntax validator: the text compiles. *)

Module Repair.

Inductive repairer : Type := api_consistency | string_fixer.

Definition is_valid (compile : string -> compile_result) (code : string) : bool :=
  match compile code with
  | Compiled => true
  | _ => false
  end.

Definition repair (who : repairer) (compile : string -> compile_result)
    (t : Fs.tree) (module_name : string) : fix_result * Fs.tree :=
  match who with
  | api_consistency => ApiConsistency.fix_module_syntax compile t module_name
  | string_fixer => StringFixer.fix_module_string_literals compile t module_name
  end.

(** The text the loop of the repairer ends with, started on [content]. *)
Definition final_content (who : repairer) (compile : string -> compile_result)
    (content : string) : exc string :=
  match who with
  | api_consistency =>
      ApiConsistency.content <$>
        ApiConsistency.repair_loop compile ApiConsistency.max_iterations
          {| ApiConsistency.content := content; ApiConsistency.fixes_applied := [] |}
  | string_fixer =>
      StringFixer.content <$>
        StringFixer.repair_loop compile StringFixer.max_iterations
          {| StringFixer.content := content; StringFixer.fixes_applied := [] |}
  end.

(** The batch operation of each repairer, the module it lives in and the
    modules its loop skips. *)
Definition fix_all (who : repairer) (compile : string -> compile_result)
    (t : Fs.tree) : fix_response * Fs.tree :=
  match who with
  | api_consistency => ApiConsistency.fix_all_modules_syntax compile t
  | string_fixer => StringFixer.fix_all_modules compile t
  end.

Definition own_module (who : repairer) : string :=
  match who with
  | api_consistency => "api_consistency"
  | string_fixer => "string_fixer"
  end.

Definition skips (who : repairer) (module : string) : bool :=
  match who with
  | api_consistency => ApiConsistency.skipped_module module
  | string_fixer => String.eqb module "string_fixer"
  end.

(** The three ways a run on module [m] of tree [t] can end: the file was
    rewritten with a text that compiles, the file compiled as it was, or
    nothing was written. *)
Inductive run_of (compile : string -> compile_result) (t : Fs.tree) (m : string)
    : fix_result -> Fs.tree -> Prop :=
| run_fixed r t' c0 c :
    Fs.read t m = Ret c0 -> c <> c0 -> is_valid compile c = true ->
    Fs.write t m c = Ret t' -> r_status r = fixed -> r_module r = m ->
    Py.universal_newlines c = c ->
    run_of compile t m r t'
| run_no_issues r c0 :
    Fs.exists_init t m = true ->
    Fs.read t m = Ret c0 -> is_valid compile c0 = true ->
    r_status r = no_issues -> r_module r = m ->
    run_of compile t m r t
| run_failed r :
    r_status r = unfixable \/ r_status r = error -> r_module r = m ->
    run_of compile t m r t.

(** The reports and the final tree of a batch loop over [modules], without
    its counters: the loop skips what [skip] names and runs [run] on the
    rest, each run starting on the tree the previous one left. *)
Fixpoint batch (skip : string -> bool)
    (run : Fs.tree -> string -> fix_result * Fs.tree)
    (modules : list string) (t : Fs.tree) : list fix_result * Fs.tree :=
  match modules with
  | [] => ([], t)
  | m :: rest =>
      if skip m then batch skip run rest t
      else
        let (r, t1) := run t m in
        let (rs, t2) := batch skip run rest t1 in
        (r :: rs, t2)
  end.

(** How many reports carry status [s], and how many neither [fixed] nor
    [no_issues]. *)
Definition count_status (s : status) (rs : list fix_result) : Z :=
  Z.of_nat (length (List.filter (fun r => bool_decide (r_status r = s)) rs)).

Definition count_failed (rs : list fix_result) : Z :=
  Z.of_nat (length (List.filter
    (fun r => negb (bool_decide (r_status r = fixed)) &&
              negb (bool_decide (r_status r = no_issues))) rs)).

End Repair.

(** ** The quote-balance analysis as the specification words it *)

Module QuoteBalanceSpec.

(** Follows the specification: the four counts, the triple counts taken
    off three times, then the priority triple-double, triple-single, double,
    single, the last two only when the other single-character count is
    even. *)
Definition analyze_line (line : string) : option quote_kind :=
  let triple_single := Py.count Py.SQ3 line in
  let triple_double := Py.count Py.DQ3 line in
  let single := Py.count Py.SQ line - 3 * triple_single in
  let double := Py.count Py.DQ line - 3 * triple_double in
  if Z.odd triple_double then Some TripleDouble
  else if Z.odd triple_single then Some TripleSingle
  else if Z.odd double && Z.even single then Some Double
  else if Z.odd single && Z.even double then Some Single
  else None.

End QuoteBalanceSpec.

(** ** Effective operation ids read off the text *)

Module RouteIds.





End RouteIds.

(** ** Sample trees *)

Module Trees.

Import Sample.

Definition permission_denied : string := "[Errno 13] Permission denied".

(** Five healthy modules, the third of which cannot be read. *)
Definition five_modules : Fs.tree :=
  [ module_dir "media" healthy; module_dir "seo" healthy;
    unreadable_dir "settings" permission_denied;
    module_dir "shared" healthy; module_dir "utils" healthy ].

(** Five modules, one of them on the skip list of the orchestrator. *)
Definition five_with_fixer : Fs.tree :=
  [ module_dir "media" luxury; module_dir "api_fixer" luxury;
    unreadable_dir "settings" permission_denied;
    module_dir "shared" healthy; module_dir "utils" open_bracket ].

(** Two modules with a route of the same function name. *)
Definition route : string :=
  "@router.get(" +:+ Py.DQ +:+ "/items" +:+ Py.DQ +:+ ")" +:+ Py.NL +:+
  "def list_items():" +:+ Py.NL +:+ "    return []" +:+ Py.NL.

Definition route_fixed : string :=
  "@router.get(" +:+ Py.DQ +:+ "/items" +:+ Py.DQ +:+ ", operation_id=" +:+
  Py.DQ +:+ "list_items" +:+ Py.DQ +:+ ")" +:+ Py.NL +:+
  "def list_items():" +:+ Py.NL +:+ "    return []" +:+ Py.NL.

Definition two_routers : Fs.tree :=
  [ module_dir "listings" route; module_dir "catalog" route ].

(** A module with an import and no route decorator. *)
Definition plain : string := "import os" +:+ Py.NL.


(** A module that already has its router. *)
Definition with_router : string :=
  "from fastapi import APIRouter" +:+ Py.NL +:+ "router = APIRouter()" +:+ Py.NL.

(** Two instances of a duplicated id in the files of [two_routers], with
    the line of the decorator as line number. *)
Definition listings_path : string := "/app/src/app/apis/listings/__init__.py".
Definition catalog_path : string := "/app/src/app/apis/catalog/__init__.py".

Definition duplicates : list (string * list OperationIdFixer.OperationId) :=
  [ ("list_items",
     [ {| OperationIdFixer.value := "list_items";
          OperationIdFixer.filepath := listings_path;
          OperationIdFixer.function_name := "list_items";
          OperationIdFixer.line_no := 0 |};
       {| OperationIdFixer.value := "list_items";
          OperationIdFixer.filepath := catalog_path;
          OperationIdFixer.function_name := "list_items";
          OperationIdFixer.line_no := 0 |} ]) ].





(** The file of the example scenario with the line ends of another
    system: a carriage return before the newline. *)
Definition luxury_crlf : string :=
  "description = " +:+ Py.DQ +:+ "Luxury home" +:+ String Py.cr Py.NL.

(** Docstring openers on which the fixers and the specification part. *)
Definition summary_line : string := Py.SQ3 +:+ "Summary".
Definition owner_line : string := Py.DQ3 +:+ "Return the owner's name".

End Trees.

(** ** Notions used to state what the fixers do to a text *)

Module Text.

(** The line holds no newline character. *)
Fixpoint one_line (s : string) : bool :=
  match s with
  | EmptyString => true
  | String c s' => negb (Ascii.eqb c Py.nl) && one_line s'
  end.

(** The text holds no carriage return: it reads from a file as it was
    written to it. *)
Fixpoint no_cr (s : string) : bool :=
  match s with
  | EmptyString => true
  | String c s' => negb (Ascii.eqb c Py.cr) && no_cr s'
  end.

(** [new] has as many lines as [old], and each line of [old] is the start
    of the line of [new] at the same place: nothing was removed, moved or
    inserted inside a line. *)
Definition extends (old new : string) : Prop :=
  Forall2 (fun a b => Py.startswith a b = true) (Py.split_nl old) (Py.split_nl new).

End Text.

(** The text [fix_router_definition] inserts. *)
Definition router_def_text : string :=
  Py.NL +:+ Py.NL +:+ "from fastapi import APIRouter" +:+ Py.NL +:+ Py.NL +:+
  "router = APIRouter()" +:+ Py.NL.

(** The modules the health check visits, and the entries it counts as
    valid. *)
Definition checked (m : string) : bool := negb (String.eqb m "module_checker").

Definition count_valid (rs : list ModuleChecker.module_status) : Z :=
  Z.of_nat (length (List.filter
    (fun r => bool_decide (ModuleChecker.m_status r = valid)) rs)).

(** The statuses a reply of the batch of [fix_module] can carry. *)
Definition batch_status (r : FixModule.reply) : Prop :=
  FixModule.get_status r = None \/ FixModule.get_status r = Some fixed \/
  FixModule.get_status r = Some unfixable \/ FixModule.get_status r = Some error.

(** ** [api_fixer]: the string fixer of [fix_api_file] *)

Module ApiFixerStrings.

Section WithCompile.

Variable compile : string -> compile_result.

(** Lines 129-133: a quote for the last line, when it holds one and does
    not end with it. *)
Definition close_last_line (lines : list string) : list string :=
  let i := (length lines - 1)%nat in
  let last_line := default EmptyString (lines !! i) in
  if Py.contains Py.DQ last_line && negb (Py.endswith Py.DQ last_line)
  then Py.set_item lines i (last_line +:+ Py.DQ)
  else if Py.contains Py.SQ last_line && negb (Py.endswith Py.SQ last_line)
  then Py.set_item lines i (last_line +:+ Py.SQ)
  else lines.

(** [fix_unterminated_strings]: the text and whether it was changed.  Only
    [SyntaxError] is caught. *)
Definition fix_unterminated_strings (content : string) : exc (string * bool) :=
  match compile content with
  | Compiled => Ret (content, false)
  | OtherException text => Raise text
  | SyntaxError _ error_msg =>
      if negb (Py.contains "unterminated string literal" error_msg)
      then Ret (content, false)
      else
        match line_match error_msg with
        | None => Ret (content, false)
        | Some line_number =>
            let lines := Py.split_nl content in
            if (line_number <=? 0) || (line_number >? Z.of_nat (length lines))
            then Ret (content, false)
            else
              let i := Z.to_nat (line_number - 1) in
              let line := default EmptyString (lines !! i) in
              let fixed_line :=
                match ApiConsistency.unbalanced_kind line with
                | Some k => line +:+ quote_text k
                | None => line
                end in
              let lines1 := Py.set_item lines i fixed_line in
              match compile (Py.join_nl lines1) with
              | Compiled => Ret (Py.join_nl lines1, true)
              | OtherException text => Raise text
              | SyntaxError _ _ =>
                  let lines2 := close_last_line lines1 in
                  match compile (Py.join_nl lines2) with
                  | Compiled => Ret (Py.join_nl lines2, true)
                  | OtherException text => Raise text
                  | SyntaxError _ _ => Ret (content, false)
                  end
              end
        end
  end.

End WithCompile.

End ApiFixerStrings.

(** ** [operation_id_fixer]: what the scan records *)

Module OperationIdScan.

(** [d.get(k)] on a dict kept in insertion order. *)
Fixpoint dict_get {A : Type} (d : list (string * list A)) (k : string)
    : option (list A) :=
  match d with
  | [] => None
  | (k', xs) :: d' => if String.eqb k' k then Some xs else dict_get d' k
  end.

(** The operation ids of all decorators of the router files, in the order
    [find_duplicate_operation_ids] meets them. *)
Definition recorded (extract_router_decorators : string -> list OperationIdFixer.RouterDecorator)
    (router_files : list (string * string)) : list OperationIdFixer.OperationId :=
  concat (map (fun rf =>
                 map (fun d =>
                        {| OperationIdFixer.value := OperationIdFixer.effective_id d;
                           OperationIdFixer.filepath := rf.1;
                           OperationIdFixer.function_name :=
                             OperationIdFixer.d_function_name d;
                           OperationIdFixer.line_no := OperationIdFixer.d_line_no d |})
                     (extract_router_decorators rf.1))
              router_files).

(** The recorded ids with value [k], and the step that files one of them
    under its value. *)
Definition with_value (k : string) (o : OperationIdFixer.OperationId) : bool :=
  String.eqb (OperationIdFixer.value o) k.

Definition group_step (acc : list (string * list OperationIdFixer.OperationId))
    (o : OperationIdFixer.OperationId) : list (string * list OperationIdFixer.OperationId) :=
  OperationIdFixer.dict_append acc (OperationIdFixer.value o) o.

End OperationIdScan.

(** ** The scan for missing operation ids, entry by entry *)

(** What holds of the report and the tree of [fix_operation_ids] after every
    directory entry, [t] being the tree at the start. *)
Definition report_ok (t : Fs.tree) (acc : ApiFixer.scan_report * Fs.tree) : Prop :=
  ApiFixer.modules_fixed acc.1 = Z.of_nat (length (ApiFixer.fixed_modules acc.1)) /\
  ApiFixer.modules_fixed acc.1 <= ApiFixer.decorators_fixed acc.1 /\
  (forall m, m ∉ ApiFixer.fixed_modules acc.1 -> Fs.lookup acc.2 m = Fs.lookup t m) /\
  (forall m, m ∈ ApiFixer.fixed_modules acc.1 ->
     m <> "__pycache__" /\
     exists content, Fs.read t m = Ret content /\
                     0 < (ApiFixer.add_operation_ids content).2).

(** The same with [es] the entries still to be visited, for a listing
    without repeated names. *)
Definition rewrite_ok (t : Fs.tree) (es : list Fs.entry)
    (acc : ApiFixer.scan_report * Fs.tree) : Prop :=
  (forall m, m ∉ ApiFixer.fixed_modules acc.1 -> Fs.lookup acc.2 m = Fs.lookup t m) /\
  (forall m, m ∈ ApiFixer.fixed_modules acc.1 -> m ∉ map Fs.name es) /\
  (forall m, m ∈ ApiFixer.fixed_modules acc.1 ->
     exists content, Fs.read t m = Ret content /\
                     Fs.read acc.2 m = Ret (ApiFixer.add_operation_ids content).1).

(** [s'] is what is left of [s] after some of its characters. *)
Definition is_suffix (s' s : string) : Prop := exists p, s = p +:+ s'.

(** A file whose decorator has its id in double quotes, at any path. *)
Definition read_route_fixed (path : string) : exc string := Ret Trees.route_fixed.

(** ** [api_consistency]: the check endpoint *)

Module ConsistencyCheck.

(** What an endpoint gives: its value, or an [HTTPException]. *)
Inductive http (A : Type) : Type :=
| Ok (a : A)
| HTTPException (status_code : Z) (detail : string).
Arguments Ok {A} a.
Arguments HTTPException {A} status_code detail.

Record report : Type :=
  { module : string; is_valid : bool; issues : list ApiConsistency.issue }.

Section WithCompile.

Variable compile : string -> compile_result.

Definition check_api_consistency (t : Fs.tree) (module_name : string) : http report :=
  if negb (Fs.exists_init t module_name) then
    HTTPException 404 ("Module " +:+ module_name +:+ " not found")
  else
    let attempt : exc report :=
      content ← Fs.read t module_name;
      let is_valid := ApiConsistency.is_syntax_valid compile content in
      issues ← (if negb is_valid then ApiConsistency.detect_issues compile content
                else Ret []);
      mret {| module := module_name; is_valid := is_valid; issues := issues |} in
    match attempt with
    | Ret r => Ok r
    | Raise msg => HTTPException 500 ("Error checking module: " +:+ msg)
    end.

End WithCompile.

End ConsistencyCheck.

(** ** [api_fixer]: the router fix over all modules *)

Module RouterBatch.

(** [sorted(modules)] on strings: the order of the code points. *)
Fixpoint insert_sorted (x : string) (l : list string) : list string :=
  match l with
  | [] => [x]
  | y :: l' => if String.leb x y then x :: l else y :: insert_sorted x l'
  end.

Definition sorted (l : list string) : list string := fold_right insert_sorted [] l.

(** The listing of lines 391-396: directories with an [__init__.py], but
    for [__pycache__]. *)
Definition listed (e : Fs.entry) : bool :=
  Fs.is_module e && negb (String.eqb (Fs.name e) "__pycache__").

Definition modules (t : Fs.tree) : list string := map Fs.name (List.filter listed t).

Definition reply_module (r : ApiFixer.router_reply) : string :=
  match r with
  | ApiFixer.RouterError m _ => m
  | ApiFixer.RouterFix m _ _ _ _ => m
  end.

(** The body of [for module in sorted(modules)]. *)
Definition visit (acc : list ApiFixer.router_reply * Fs.tree) (module : string)
    : list ApiFixer.router_reply * Fs.tree :=
  let (results, t) := acc in
  if String.eqb module "api_fixer" then acc
  else
    let (result, t') := ApiFixer.fix_module_router t module in
    (results ++ [result], t').

Definition fix_all_modules_router (t : Fs.tree)
    : list ApiFixer.router_reply * Fs.tree :=
  fold_left visit (sorted (modules t)) ([], t).

End RouterBatch.

(** * Properties *)

(** ** The model on concrete inputs *)

(** [str.count] does not count overlapping occurrences, and a final newline
    gives [split] a last empty line. *)
Example count_does_not_overlap :
  Py.count Py.SQ3 (Py.SQ3 +:+ Py.SQ) = 1 /\
  Py.split_nl ("a" +:+ Py.NL) = ["a"; EmptyString] /\
  Py.join_nl (Py.split_nl ("a" +:+ Py.NL +:+ "b")) = "a" +:+ Py.NL +:+ "b".
Proof. repeat split; reflexivity. Qed.

(** The number [detect_issues] reads off the message of a [SyntaxError]. *)
Example line_match_first_number :
  line_match "unterminated string literal (detected at line 12) (<string>, line 12)"
  = Some 12.
Proof. vm_compute. reflexivity. Qed.

(** The import pattern is not anchored: it also matches inside a comment. *)
Example import_pattern_spans :
  (fun m => (Re.m_start m, Re.m_end m)) <$>
    Re.finditer ApiFixer.import_pattern
      ("import os" +:+ Py.NL +:+ Py.NL +:+
       "from fastapi import APIRouter, HTTPException" +:+ Py.NL)
  = [(0, 10); (11, 56)]%nat /\
  (fun m => (Re.m_start m, Re.m_end m)) <$>
    Re.finditer ApiFixer.import_pattern "x = 1 # important from here"
  = [(8, 27)]%nat.
Proof. vm_compute. split; reflexivity. Qed.

Example module_name_of_path :
  Py.basename (Py.dirname Trees.listings_path) = "listings".
Proof. vm_compute. reflexivity. Qed.

(** What CPython 3.11 answers on the sample files. *)
Example mini_compile_samples :
  Sample.mini_compile Sample.luxury =
    SyntaxError (Some 1)
      "unterminated string literal (detected at line 1) (<string>, line 1)" /\
  Sample.mini_compile Sample.luxury_fixed = Compiled /\
  Sample.mini_compile Sample.open_bracket =
    SyntaxError (Some 1) "'(' was never closed (<string>, line 1)" /\
  Sample.mini_compile Sample.healthy = Compiled /\
  Sample.mini_compile Trees.summary_line =
    SyntaxError (Some 1)
      "unterminated triple-quoted string literal (detected at line 1) (<string>, line 1)".
Proof. vm_compute. repeat split; reflexivity. Qed.

(** The example scenario: a file holding one line with an open double
    quote is reported [fixed] with one fix, and the file then holds the
    closed literal. *)
Example luxury_home_scenario :
  ApiConsistency.fix_module_syntax Sample.mini_compile
    [Sample.module_dir "settings" Sample.luxury] "settings"
  = ({| r_module := "settings"; r_status := fixed; r_message := "Fixed 1 issues";
        r_fixes := Some ["Fixed unterminated string at line 1"] |},
     [Sample.module_dir "settings" Sample.luxury_fixed]).
Proof. vm_compute. reflexivity. Qed.

(** An open single quote is closed on its line. *)
Example single_quote_scenario :
  (StringFixer.fix_module_string_literals Sample.mini_compile
     [Sample.module_dir "settings" "x = 'abc"] "settings").2
  = [Sample.module_dir "settings" "x = 'abc'"].
Proof. vm_compute. reflexivity. Qed.

(** A file with carriage returns is read with its line ends translated,
    and a repair writes the translated text back. *)
Example crlf_scenario :
  Fs.read [Sample.module_dir "settings" Trees.luxury_crlf] "settings" = Ret Sample.luxury /\
  StringFixer.fix_module_string_literals Sample.mini_compile
    [Sample.module_dir "settings" Trees.luxury_crlf] "settings"
  = ({| r_module := "settings"; r_status := fixed;
        r_message := "Fixed 1 string literals";
        r_fixes := Some ["Fixed unterminated string at line 1"] |},
     [Sample.module_dir "settings" Sample.luxury_fixed]).
Proof. vm_compute. split; reflexivity. Qed.

(** A repaired file that cannot be written: the orchestrator reports
    [error], the batch of [fix_module] a bare error dict that its counter of
    errors leaves out. *)
Example unwritable_scenario :
  let t := [Sample.unwritable_dir "settings" Sample.luxury Trees.permission_denied] in
  results (ApiConsistency.fix_all_modules_syntax Sample.mini_compile t).1
  = [ {| r_module := "settings"; r_status := error;
         r_message := "Error fixing module: [Errno 13] Permission denied";
         r_fixes := None |} ] /\
  (FixModule.fix_all_modules Sample.mini_compile t).1
  = {| FixModule.total_processed := 1; FixModule.n_fixed := 0;
       FixModule.n_unfixable := 0; FixModule.n_errors := 0;
       FixModule.b_results :=
         [FixModule.Failure
            "Error processing module settings: [Errno 13] Permission denied"] |}.
Proof. vm_compute. split; reflexivity. Qed.

(** ** The file tree *)

Section FsFacts.

Implicit Types (t : Fs.tree) (m : string) (f : Fs.file).

Lemma named_iff m e : Fs.named m e = true <-> Fs.name e = m.
Proof. unfold Fs.named. apply String.eqb_eq. Qed.

Lemma lookup_set_init_eq t m f e :
  Fs.lookup t m = Some e ->
  Fs.lookup (Fs.set_init t m f) m =
    Some {| Fs.name := Fs.name e; Fs.is_dir := Fs.is_dir e; Fs.init_py := Some f |}.
Proof.
  unfold Fs.lookup. induction t as [|a t IH]; simpl; [discriminate|].
  destruct (Fs.named m a) eqn:E; simpl.
  - intros [= <-]. unfold Fs.named in *. simpl. by rewrite E.
  - rewrite E. exact IH.
Qed.

Lemma lookup_set_init_ne t m m' f :
  m <> m' -> Fs.lookup (Fs.set_init t m f) m' = Fs.lookup t m'.
Proof.
  intros Hne. unfold Fs.lookup. induction t as [|a t IH]; simpl; [done|].
  destruct (Fs.named m a) eqn:E; simpl.
  - apply named_iff in E.
    assert (Fs.named m' a = false) as Ha.
    { destruct (Fs.named m' a) eqn:E'; [|done]. apply named_iff in E'. congruence. }
    rewrite Ha. unfold Fs.named in *. simpl. by rewrite Ha.
  - destruct (Fs.named m' a); [done|]. exact IH.
Qed.

(** A write that succeeds touches no other module. *)
Lemma write_lookup_ne t t' m m' c :
  Fs.write t m c = Ret t' -> m <> m' -> Fs.lookup t' m' = Fs.lookup t m'.
Proof.
  unfold Fs.write. intros H Hne.
  destruct (Fs.lookup t m) as [e|]; [|discriminate].
  destruct (Fs.is_dir e); [|discriminate].
  destruct (Fs.init_py e) as [f|].
  - destruct (Fs.write_error f); [discriminate|].
    injection H as <-. by apply lookup_set_init_ne.
  - injection H as <-. by apply lookup_set_init_ne.
Qed.

(** Reading back what was written to a readable file. *)
Lemma write_read t t' m c c0 :
  Fs.write t m c = Ret t' -> Fs.read t m = Ret c0 ->
  Fs.read t' m = Ret (Py.universal_newlines c).
Proof.
  unfold Fs.write, Fs.read, Fs.init_file. intros H Hr.
  destruct (Fs.lookup t m) as [e|] eqn:El; [|discriminate].
  destruct (Fs.is_dir e) eqn:Ed; [|discriminate].
  destruct (Fs.init_py e) as [f|]; [|discriminate].
  destruct (Fs.read_error f) eqn:Er; [discriminate|].
  destruct (Fs.write_error f); [discriminate|].
  injection H as <-.
  rewrite (lookup_set_init_eq _ _ _ _ El). simpl. by rewrite Ed.
Qed.

Lemma write_exists t t' m c c0 :
  Fs.write t m c = Ret t' -> Fs.read t m = Ret c0 -> Fs.exists_init t' m = true.
Proof.
  intros Hw Hr. pose proof (write_read _ _ _ _ _ Hw Hr) as H.
  unfold Fs.read in H. unfold Fs.exists_init.
  by destruct (Fs.init_file t' m).
Qed.

Lemma read_ext t t' m : Fs.lookup t' m = Fs.lookup t m -> Fs.read t' m = Fs.read t m.
Proof. unfold Fs.read, Fs.init_file. by intros ->. Qed.

Lemma exists_ext t t' m :
  Fs.lookup t' m = Fs.lookup t m -> Fs.exists_init t' m = Fs.exists_init t m.
Proof. unfold Fs.exists_init, Fs.init_file. by intros ->. Qed.

Lemma read_of_file t m f :
  Fs.init_file t m = Some f -> Fs.read_error f = None ->
  Fs.read t m = Ret (Py.universal_newlines (Fs.content f)).
Proof. unfold Fs.read. by intros -> ->. Qed.

Lemma read_of_unreadable t m f msg :
  Fs.init_file t m = Some f -> Fs.read_error f = Some msg -> Fs.read t m = Raise msg.
Proof. unfold Fs.read. by intros -> ->. Qed.

Lemma exists_of_file t m f : Fs.init_file t m = Some f -> Fs.exists_init t m = true.
Proof. unfold Fs.exists_init. by intros ->. Qed.

Lemma init_file_ext t t' m :
  Fs.lookup t' m = Fs.lookup t m -> Fs.init_file t' m = Fs.init_file t m.
Proof. unfold Fs.init_file. by intros ->. Qed.

End FsFacts.

(** ** Line ends *)

Section NewlineFacts.

Implicit Types (s l : string) (ls : list string).

Lemma no_cr_append s1 s2 : Text.no_cr (s1 +:+ s2) = Text.no_cr s1 && Text.no_cr s2.
Proof.
  induction s1 as [|c s1 IH]; [done|].
  change (Text.no_cr (String c (s1 +:+ s2)) = Text.no_cr (String c s1) && Text.no_cr s2).
  cbn [Text.no_cr]. by rewrite IH, andb_assoc.
Qed.

(** What is read holds no carriage return. *)
Lemma newlines_from_no_cr s : forall after_cr, Text.no_cr (Py.newlines_from after_cr s) = true.
Proof.
  induction s as [|c s IH]; intros after_cr; cbn [Py.newlines_from]; [done|].
  destruct (Ascii.eqb c Py.cr) eqn:E; [cbn [Text.no_cr]; by rewrite IH|].
  destruct (Ascii.eqb c Py.nl && after_cr); [apply IH|].
  cbn [Text.no_cr]. by rewrite E, IH.
Qed.

Lemma universal_newlines_no_cr s : Text.no_cr (Py.universal_newlines s) = true.
Proof. apply newlines_from_no_cr. Qed.

(** A text without carriage returns is read as it is. *)
Lemma universal_newlines_clean s : Text.no_cr s = true -> Py.universal_newlines s = s.
Proof.
  unfold Py.universal_newlines. induction s as [|c s IH]; [done|].
  cbn [Text.no_cr Py.newlines_from]. intros [Hc Hs]%andb_true_iff.
  apply negb_true_iff in Hc. rewrite Hc, andb_false_r. by rewrite IH.
Qed.

Lemma read_no_cr (t : Fs.tree) (m c : string) : Fs.read t m = Ret c -> Text.no_cr c = true.
Proof.
  unfold Fs.read. destruct (Fs.init_file t m) as [f|]; [|discriminate].
  destruct (Fs.read_error f); [discriminate|]. intros [= <-].
  apply universal_newlines_no_cr.
Qed.

(** Reading back a text without carriage returns that was written. *)
Lemma write_read_clean (t t' : Fs.tree) (m c c0 : string) :
  Fs.write t m c = Ret t' -> Fs.read t m = Ret c0 -> Py.universal_newlines c = c ->
  Fs.read t' m = Ret c.
Proof. intros Hw Hr Hc. rewrite <- Hc. by eapply write_read. Qed.

Lemma no_cr_split s :
  Text.no_cr s = true -> Forall (fun l => Text.no_cr l = true) (Py.split_nl s).
Proof.
  induction s as [|c s IH]; cbn [Py.split_nl Text.no_cr]; [by repeat constructor|].
  intros [Hc Hs]%andb_true_iff. specialize (IH Hs).
  destruct (Ascii.eqb c Py.nl); [by constructor|].
  destruct (Py.split_nl s) as [|l ls]; [repeat constructor; cbn [Text.no_cr]; by rewrite Hc|].
  apply Forall_cons in IH as [Hl Hls]. constructor; [|done].
  cbn [Text.no_cr]. by rewrite Hc, Hl.
Qed.

Lemma no_cr_join ls :
  Forall (fun l => Text.no_cr l = true) ls -> Text.no_cr (Py.join_nl ls) = true.
Proof.
  induction 1 as [|l ls Hl Hls IH]; [done|]. cbn [Py.join_nl].
  destruct ls as [|l' ls']; [done|].
  by rewrite !no_cr_append, Hl, IH.
Qed.

Lemma no_cr_set_item ls i x :
  Forall (fun l => Text.no_cr l = true) ls -> Text.no_cr x = true ->
  Forall (fun l => Text.no_cr l = true) (Py.set_item ls i x).
Proof. intros Hls Hx. unfold Py.set_item. by apply Forall_insert. Qed.

Lemma no_cr_lookup ls i :
  Forall (fun l => Text.no_cr l = true) ls ->
  Text.no_cr (default EmptyString (ls !! i)) = true.
Proof.
  intros Hls. destruct (ls !! i) as [l|] eqn:E; [|done].
  by apply (Forall_lookup_1 _ _ _ _ Hls E).
Qed.

Lemma no_cr_quote_text k : Text.no_cr (quote_text k) = true.
Proof. by destruct k. Qed.

Lemma no_cr_take n : forall s, Text.no_cr s = true -> Text.no_cr (Py.take n s) = true.
Proof.
  induction n as [|n IH]; intros [|c s]; cbn [Py.take Text.no_cr]; try done.
  intros [Hc Hs]%andb_true_iff. by rewrite Hc, IH.
Qed.

Lemma no_cr_drop n : forall s, Text.no_cr s = true -> Text.no_cr (Py.drop n s) = true.
Proof.
  induction n as [|n IH]; intros [|c s]; cbn [Py.drop Text.no_cr]; try done.
  intros [Hc Hs]%andb_true_iff. by apply IH.
Qed.

Lemma no_cr_replace_char old new s :
  Text.no_cr new = true -> Text.no_cr s = true ->
  Text.no_cr (Py.replace_char old new s) = true.
Proof.
  intros Hn. induction s as [|c s IH]; cbn [Py.replace_char Text.no_cr]; [done|].
  intros [Hc Hs]%andb_true_iff. destruct (Ascii.eqb c old).
  - by rewrite no_cr_append, Hn, IH.
  - cbn [Text.no_cr]. by rewrite Hc, IH.
Qed.

End NewlineFacts.

(** The repair loops bring no carriage return into a text. *)

Section CleanLoops.

Variable compile : string -> compile_result.

Lemma no_cr_line_fix code i x :
  Text.no_cr code = true -> Text.no_cr x = true ->
  Text.no_cr (Py.join_nl (Py.set_item (Py.split_nl code) i
                (default EmptyString (Py.split_nl code !! i) +:+ x))) = true.
Proof.
  intros Hc Hx. apply no_cr_join, no_cr_set_item; [by apply no_cr_split|].
  rewrite no_cr_append, Hx, no_cr_lookup; [done|by apply no_cr_split].
Qed.

Lemma api_fix_no_cr code line_number :
  Text.no_cr code = true ->
  Text.no_cr (ApiConsistency.fix_unterminated_string compile code line_number) = true.
Proof.
  intros Hc. unfold ApiConsistency.fix_unterminated_string.
  destruct (_ || _); [done|].
  destruct (ApiConsistency.unbalanced_kind _) as [k|].
  { apply no_cr_line_fix; [done|apply no_cr_quote_text]. }
  unfold ApiConsistency.first_valid. cbn [map].
  remember (List.find (ApiConsistency.is_syntax_valid compile)
              [code +:+ Py.SQ; code +:+ Py.DQ]) as at_end eqn:Hend.
  destruct (List.find _ [Py.join_nl _; _]) as [test_code|] eqn:Hf.
  { apply List.find_some in Hf as [Hin _].
    destruct Hin as [<-|[<-|[]]]; by apply no_cr_line_fix. }
  destruct at_end as [test_code|]; symmetry in Hend.
  { apply List.find_some in Hend as [Hin _].
    destruct Hin as [<-|[<-|[]]]; by rewrite no_cr_append, Hc. }
  by apply no_cr_join, no_cr_split.
Qed.

Lemma api_handle_no_cr st i :
  Text.no_cr (ApiConsistency.content st) = true ->
  Text.no_cr (ApiConsistency.content (ApiConsistency.handle_issue compile st i)) = true.
Proof.
  intros Hc. unfold ApiConsistency.handle_issue.
  destruct (ApiConsistency.type i); [done|].
  case_bool_decide; [|done]. by apply api_fix_no_cr.
Qed.

Lemma api_loop_no_cr n : forall st st',
  ApiConsistency.repair_loop compile n st = Ret st' ->
  Text.no_cr (ApiConsistency.content st) = true ->
  Text.no_cr (ApiConsistency.content st') = true.
Proof.
  induction n as [|n IH]; intros st st'; cbn [ApiConsistency.repair_loop].
  - by intros [= <-].
  - destruct (ApiConsistency.is_syntax_valid compile (ApiConsistency.content st));
      [by intros [= <-]|].
    unfold mbind, exc_bind.
    destruct (ApiConsistency.detect_issues compile _) as [issues|]; [|discriminate].
    destruct issues as [|i issues]; [by intros [= <-]|].
    intros Hl Hc.
    assert (Text.no_cr (ApiConsistency.content
              (fold_left (ApiConsistency.handle_issue compile) (i :: issues) st)) = true)
      as Hc'.
    { clear Hl. revert st Hc. generalize (i :: issues). intros js.
      induction js as [|j js IHjs]; intros st Hc; [done|].
      cbn [fold_left]. by apply IHjs, api_handle_no_cr. }
    destruct (ApiConsistency.is_syntax_valid compile _); [by injection Hl as <-|].
    by eapply IH.
Qed.

Lemma string_fix_no_cr content line_number :
  Text.no_cr content = true ->
  Text.no_cr (StringFixer.fix_unterminated_string content line_number) = true.
Proof.
  intros Hc. unfold StringFixer.fix_unterminated_string.
  destruct (_ || _); [done|].
  destruct (StringFixer.unbalanced_kind _) as [k|].
  - apply no_cr_line_fix; [done|apply no_cr_quote_text].
  - by apply no_cr_join, no_cr_split.
Qed.

Lemma string_body_no_cr st step :
  StringFixer.loop_body compile st = Ret step ->
  Text.no_cr (StringFixer.content st) = true ->
  Text.no_cr (StringFixer.content
                match step with StringFixer.Continue x | StringFixer.Break x => x end) = true.
Proof.
  unfold StringFixer.loop_body, StringFixer.aggressive, mbind, exc_bind, mret, exc_ret.
  destruct (StringFixer.is_syntax_valid compile (StringFixer.content st)) as [[|]|];
    [by intros [= <-]| |discriminate].
  destruct (StringFixer.detect_unterminated_string compile _) as [[[n msg]|]|];
    [|by intros [= <-]|discriminate].
  case_bool_decide.
  { intros [= <-] Hc. by apply string_fix_no_cr. }
  destruct (n <=? _); [|by intros [= <-]].
  destruct (StringFixer.is_syntax_valid compile (_ +:+ Py.SQ)) as [[|]|];
    [intros [= <-] Hc; cbn [StringFixer.content]; by rewrite no_cr_append, Hc| |discriminate].
  destruct (StringFixer.is_syntax_valid compile (_ +:+ Py.DQ)) as [[|]|];
    [intros [= <-] Hc; cbn [StringFixer.content]; by rewrite no_cr_append, Hc
    |by intros [= <-]|discriminate].
Qed.

Lemma string_loop_no_cr n : forall st st',
  StringFixer.repair_loop compile n st = Ret st' ->
  Text.no_cr (StringFixer.content st) = true ->
  Text.no_cr (StringFixer.content st') = true.
Proof.
  induction n as [|n IH]; intros st st'; cbn [StringFixer.repair_loop].
  - by intros [= <-].
  - unfold mbind, exc_bind.
    destruct (StringFixer.loop_body compile st) as [step|] eqn:Hb; [|discriminate].
    intros Hl Hc. pose proof (string_body_no_cr _ _ Hb Hc) as Hc'.
    destruct step as [st1|st1]; [by eapply IH|by injection Hl as <-].
Qed.

End CleanLoops.

(** ** What a run of a repairer can do *)

Section RepairFacts.

Variable compile : string -> compile_result.

Implicit Types (t : Fs.tree) (m : string) (who : Repair.repairer).

Lemma api_valid_is_valid code :
  ApiConsistency.is_syntax_valid compile code = Repair.is_valid compile code.
Proof. reflexivity. Qed.

Lemma string_valid_is_valid code b :
  StringFixer.is_syntax_valid compile code = Ret b -> Repair.is_valid compile code = b.
Proof.
  unfold StringFixer.is_syntax_valid, Repair.is_valid.
  destruct (compile code); congruence.
Qed.

Lemma string_valid_of_is_valid code :
  Repair.is_valid compile code = true ->
  StringFixer.is_syntax_valid compile code = Ret true.
Proof.
  unfold StringFixer.is_syntax_valid, Repair.is_valid.
  destruct (compile code); congruence.
Qed.

Ltac unfold_exc := unfold mbind, exc_bind, mret, exc_ret in *.

Lemma api_run t m :
  Repair.run_of compile t m (ApiConsistency.fix_module_syntax compile t m).1
             (ApiConsistency.fix_module_syntax compile t m).2.
Proof.
  unfold ApiConsistency.fix_module_syntax.
  destruct (Fs.exists_init t m) eqn:Ex; cbn [negb fst snd].
  2: { apply Repair.run_failed; auto. }
  unfold_exc.
  destruct (Fs.read t m) as [c0|msg] eqn:Er.
  2: { apply Repair.run_failed; auto. }
  cbv beta iota zeta.
  destruct (ApiConsistency.repair_loop compile ApiConsistency.max_iterations _)
    as [st|msg] eqn:El.
  2: { apply Repair.run_failed; auto. }
  cbv beta iota zeta.
  destruct (ApiConsistency.is_syntax_valid compile (ApiConsistency.content st)) eqn:Ev.
  2: { apply Repair.run_failed; auto. }
  case_bool_decide as Hd.
  - destruct (Fs.write t m (ApiConsistency.content st)) as [t'|msg] eqn:Ew.
    + eapply Repair.run_fixed; eauto.
      apply universal_newlines_clean, (api_loop_no_cr compile _ _ _ El).
      by apply (read_no_cr _ _ _ Er).
    + apply Repair.run_failed; auto.
  - rewrite Hd in Ev.
    eapply Repair.run_no_issues; eauto.
Qed.

Lemma string_run t m :
  Repair.run_of compile t m (StringFixer.fix_module_string_literals compile t m).1
             (StringFixer.fix_module_string_literals compile t m).2.
Proof.
  unfold StringFixer.fix_module_string_literals.
  destruct (Fs.exists_init t m) eqn:Ex; cbn [negb fst snd].
  2: { apply Repair.run_failed; auto. }
  unfold_exc.
  destruct (Fs.read t m) as [c0|msg] eqn:Er.
  2: { apply Repair.run_failed; auto. }
  cbv beta iota zeta.
  destruct (StringFixer.repair_loop compile StringFixer.max_iterations _)
    as [st|msg] eqn:El.
  2: { apply Repair.run_failed; auto. }
  cbv beta iota zeta.
  destruct (StringFixer.is_syntax_valid compile (StringFixer.content st)) as [b|msg] eqn:Ev.
  2: { apply Repair.run_failed; auto. }
  apply string_valid_is_valid in Ev.
  destruct b.
  2: { apply Repair.run_failed; auto. }
  case_bool_decide as Hd.
  - destruct (Fs.write t m (StringFixer.content st)) as [t'|msg] eqn:Ew.
    + eapply Repair.run_fixed; eauto.
      apply universal_newlines_clean, (string_loop_no_cr compile _ _ _ El).
      by apply (read_no_cr _ _ _ Er).
    + apply Repair.run_failed; auto.
  - rewrite Hd in Ev.
    eapply Repair.run_no_issues; eauto.
Qed.

Lemma repair_run who t m :
  Repair.run_of compile t m (Repair.repair who compile t m).1 (Repair.repair who compile t m).2.
Proof. destruct who; [apply api_run | apply string_run]. Qed.

Lemma api_loop_valid n st :
  Repair.is_valid compile (ApiConsistency.content st) = true ->
  ApiConsistency.repair_loop compile (S n) st = Ret st.
Proof. intros Hv. cbn [ApiConsistency.repair_loop]. by rewrite api_valid_is_valid, Hv. Qed.

Lemma string_loop_valid n st :
  Repair.is_valid compile (StringFixer.content st) = true ->
  StringFixer.repair_loop compile (S n) st = Ret st.
Proof.
  intros Hv. cbn [StringFixer.repair_loop]. unfold StringFixer.loop_body.
  by rewrite (string_valid_of_is_valid _ Hv).
Qed.

(** A file that compiles is reported [no_issues] and not written. *)
Lemma repair_valid who t m c0 :
  Fs.exists_init t m = true -> Fs.read t m = Ret c0 ->
  Repair.is_valid compile c0 = true ->
  (Repair.repair who compile t m).1.(r_status) = no_issues /\
  (Repair.repair who compile t m).2 = t.
Proof.
  intros Ex Er Hv. destruct who; cbn [Repair.repair].
  - unfold ApiConsistency.fix_module_syntax. rewrite Ex. cbn [negb].
    unfold_exc. rewrite Er. unfold ApiConsistency.max_iterations.
    rewrite api_loop_valid by done. cbn [ApiConsistency.content].
    rewrite api_valid_is_valid, Hv.
    rewrite bool_decide_eq_false_2; [done|]. by intros H; apply H.
  - unfold StringFixer.fix_module_string_literals. rewrite Ex. cbn [negb].
    unfold_exc. rewrite Er. unfold StringFixer.max_iterations.
    rewrite string_loop_valid by done. cbn [StringFixer.content].
    rewrite (string_valid_of_is_valid _ Hv).
    rewrite bool_decide_eq_false_2; [done|]. by intros H; apply H.
Qed.

(** Nothing is written unless the report says [fixed]. *)
Lemma repair_untouched who t m :
  (Repair.repair who compile t m).1.(r_status) <> fixed ->
  (Repair.repair who compile t m).2 = t.
Proof.
  intros Hs. destruct (repair_run who t m); [congruence|done|done].
Qed.

(** The report names the module it was asked about. *)
Lemma repair_module who t m : (Repair.repair who compile t m).1.(r_module) = m.
Proof. by destruct (repair_run who t m). Qed.

(** A run changes no other module. *)
Lemma repair_lookup_ne who t m m' :
  m <> m' -> Fs.lookup (Repair.repair who compile t m).2 m' = Fs.lookup t m'.
Proof.
  intros Hne. destruct (repair_run who t m) as [r t' c0 c _ _ _ Hw _ _| |]; [|done..].
  by eapply write_lookup_ne.
Qed.

End RepairFacts.

(** ** Single-module repair: safety, idempotence, non-regression, atomicity *)

(** C1 (safety).  Whenever a repairer reports [fixed], the text it left in
    the module file compiles: reading the file back gives a text the
    validator accepts. *)
Theorem repair_fixed_is_valid (who : Repair.repairer)
    (compile : string -> compile_result) (t : Fs.tree) (m : string) :
  (Repair.repair who compile t m).1.(r_status) = fixed ->
  exists c, Fs.read (Repair.repair who compile t m).2 m = Ret c /\
            Repair.is_valid compile c = true.
Proof.
  intros Hs.
  destruct (repair_run compile who t m)
    as [r t' c0 c Hr _ Hv Hw _ _ Hc|r c0 _ _ _ Hn _|r Hf _].
  - exists c. split; [|done]. by eapply write_read_clean.
  - congruence.
  - destruct Hf; congruence.
Qed.

(** The example scenario: the open double quote is closed and the file
    compiles. *)
Lemma repair_fixed_is_valid_witness :
  (Repair.repair Repair.api_consistency Sample.mini_compile
     [Sample.module_dir "settings" Sample.luxury] "settings").1.(r_status) = fixed /\
  exists c,
    Fs.read (Repair.repair Repair.api_consistency Sample.mini_compile
               [Sample.module_dir "settings" Sample.luxury] "settings").2 "settings"
      = Ret c /\
    Repair.is_valid Sample.mini_compile c = true.
Proof.
  split; [vm_compute; reflexivity|].
  apply (repair_fixed_is_valid Repair.api_consistency Sample.mini_compile
           [Sample.module_dir "settings" Sample.luxury] "settings").
  vm_compute. reflexivity.
Defined.

(** C2 as stated fails: a module no quote can repair is reported
    [unfixable] by the first run and again by the second, not [no_issues]. *)
Lemma second_run_still_unfixable :
  let t := [Sample.module_dir "settings" Sample.open_bracket] in
  let second (who : Repair.repairer) :=
    Repair.repair who Sample.mini_compile
      (Repair.repair who Sample.mini_compile t "settings").2 "settings" in
  (second Repair.api_consistency).1.(r_status) = unfixable /\
  (second Repair.string_fixer).1.(r_status) = unfixable.
Proof. vm_compute. split; reflexivity. Qed.

(** C2 (idempotence, amended).  A second run never changes the file again.
    It reports [no_issues] when the first run reported [fixed] or
    [no_issues], and repeats the report of the first run when that was
    [unfixable] or [error]. *)
Theorem repair_twice (who : Repair.repairer) (compile : string -> compile_result)
    (t : Fs.tree) (m : string) :
  let first := Repair.repair who compile t m in
  let second := Repair.repair who compile first.2 m in
  second.2 = first.2 /\
  (first.1.(r_status) = fixed \/ first.1.(r_status) = no_issues ->
   second.1.(r_status) = no_issues) /\
  (first.1.(r_status) <> fixed -> second.1 = first.1).
Proof.
  cbv zeta.
  destruct (Repair.repair who compile t m) as [r1 t1] eqn:E1. cbn [fst snd].
  pose proof (repair_run compile who t m) as Hrun. rewrite E1 in Hrun. cbn [fst snd] in Hrun.
  inversion Hrun as [r t' c0 c Hr Hne Hv Hw Hs Hm Hc|r c0 Hx Hr Hv Hn Hm|r Hf Hm]; subst.
  - pose proof (write_read_clean _ _ _ _ _ Hw Hr Hc) as Hr'.
    pose proof (write_exists _ _ _ _ _ Hw Hr) as Hx'.
    destruct (repair_valid compile who t1 (r_module r1) c Hx' Hr' Hv) as [Hs2 Ht2].
    split; [done|]. split; [done|]. congruence.
  - rewrite E1. cbn [fst snd]. done.
  - rewrite E1. cbn [fst snd]. split; [done|]. split; [|done].
    destruct Hf; intros [?|?]; congruence.
Qed.

(** C3 (non-regression).  A module whose file is readable and, as read,
    compiles is reported [no_issues], and the tree is left exactly as it
    was. *)
Theorem repair_valid_no_issues (who : Repair.repairer)
    (compile : string -> compile_result) (t : Fs.tree) (m : string) (f : Fs.file) :
  Fs.init_file t m = Some f ->
  Fs.read_error f = None ->
  Repair.is_valid compile (Py.universal_newlines (Fs.content f)) = true ->
  (Repair.repair who compile t m).1.(r_status) = no_issues /\
  (Repair.repair who compile t m).2 = t.
Proof.
  intros Hf Hr Hv. eapply repair_valid; eauto using exists_of_file, read_of_file.
Qed.

Lemma repair_valid_no_issues_witness :
  (Repair.repair Repair.string_fixer Sample.mini_compile
     [Sample.module_dir "settings" Sample.healthy] "settings").1.(r_status) = no_issues /\
  (Repair.repair Repair.string_fixer Sample.mini_compile
     [Sample.module_dir "settings" Sample.healthy] "settings").2
  = [Sample.module_dir "settings" Sample.healthy].
Proof.
  apply (repair_valid_no_issues Repair.string_fixer Sample.mini_compile
           [Sample.module_dir "settings" Sample.healthy] "settings"
           {| Fs.content := Sample.healthy; Fs.read_error := None;
              Fs.write_error := None |}); reflexivity.
Defined.

(** C4 (atomicity on failure).  When the loop of a repairer, started on the
    text read from the file, ends on a text the parser still rejects, the
    report is [unfixable] and the tree is left exactly as it was: no
    intermediate text reaches the file. *)
Theorem repair_unfixable_untouched (who : Repair.repairer)
    (compile : string -> compile_result) (t : Fs.tree) (m : string) (f : Fs.file)
    (c : string) (lineno : option Z) (text : string) :
  Fs.init_file t m = Some f ->
  Fs.read_error f = None ->
  Repair.final_content who compile (Py.universal_newlines (Fs.content f)) = Ret c ->
  compile c = SyntaxError lineno text ->
  (Repair.repair who compile t m).1.(r_status) = unfixable /\
  (Repair.repair who compile t m).2 = t.
Proof.
  intros Hf Hr Hl Hc.
  pose proof (exists_of_file _ _ _ Hf) as Hx.
  pose proof (read_of_file _ _ _ Hf Hr) as Hrd.
  destruct who; cbn [Repair.repair Repair.final_content] in *.
  - unfold ApiConsistency.fix_module_syntax. rewrite Hx. cbn [negb].
    unfold mbind, exc_bind, mret, exc_ret, fmap, exc_fmap in *. rewrite Hrd.
    destruct (ApiConsistency.repair_loop _ _ _) as [st|]; [|discriminate].
    injection Hl as Hl. cbv beta iota zeta.
    unfold ApiConsistency.is_syntax_valid. rewrite Hl, Hc. done.
  - unfold StringFixer.fix_module_string_literals. rewrite Hx. cbn [negb].
    unfold mbind, exc_bind, mret, exc_ret, fmap, exc_fmap in *. rewrite Hrd.
    destruct (StringFixer.repair_loop _ _ _) as [st|]; [|discriminate].
    injection Hl as Hl. cbv beta iota zeta.
    unfold StringFixer.is_syntax_valid. rewrite Hl, Hc. done.
Qed.

Lemma repair_unfixable_untouched_witness :
  (Repair.repair Repair.api_consistency Sample.mini_compile
     [Sample.module_dir "settings" Sample.open_bracket] "settings").1.(r_status)
  = unfixable /\
  (Repair.repair Repair.api_consistency Sample.mini_compile
     [Sample.module_dir "settings" Sample.open_bracket] "settings").2
  = [Sample.module_dir "settings" Sample.open_bracket].
Proof.
  apply (repair_unfixable_untouched Repair.api_consistency Sample.mini_compile
           [Sample.module_dir "settings" Sample.open_bracket] "settings"
           {| Fs.content := Sample.open_bracket; Fs.read_error := None;
              Fs.write_error := None |}
           Sample.open_bracket (Some 1)
           "'(' was never closed (<string>, line 1)");
    vm_compute; reflexivity.
Defined.

(** ** Batch operations *)

Section BatchFacts.

Variable compile : string -> compile_result.

Implicit Types (t : Fs.tree) (m : string) (who : Repair.repairer).

Lemma count_status_cons s r rs :
  Repair.count_status s (r :: rs) =
  (if bool_decide (r_status r = s) then 1 else 0) + Repair.count_status s rs.
Proof.
  unfold Repair.count_status. cbn [List.filter].
  destruct (bool_decide _); cbn [length]; lia.
Qed.

Lemma count_failed_cons r rs :
  Repair.count_failed (r :: rs) =
  (if negb (bool_decide (r_status r = fixed)) && negb (bool_decide (r_status r = no_issues))
   then 1 else 0) + Repair.count_failed rs.
Proof.
  unfold Repair.count_failed. cbn [List.filter].
  destruct (_ && _); cbn [length]; lia.
Qed.

(** Every report is counted once. *)
Lemma counts_total rs :
  Repair.count_status fixed rs + Repair.count_status no_issues rs +
  Repair.count_failed rs = Z.of_nat (length rs).
Proof.
  induction rs as [|r rs IH]; [done|].
  rewrite !count_status_cons, count_failed_cons. cbn [length].
  repeat case_bool_decide; cbn; try congruence; lia.
Qed.

(** The loop of the orchestrator computes [batch] and counts its reports. *)
Lemma api_fold ms c t :
  fold_left (ApiConsistency.visit compile) ms (c, t) =
  let (rs, t') := Repair.batch ApiConsistency.skipped_module
                    (ApiConsistency.fix_module_syntax compile) ms t in
  ({| ApiConsistency.t_results := ApiConsistency.t_results c ++ rs;
      ApiConsistency.t_fixed := ApiConsistency.t_fixed c + Repair.count_status fixed rs;
      ApiConsistency.t_no_issues :=
        ApiConsistency.t_no_issues c + Repair.count_status no_issues rs;
      ApiConsistency.t_error := ApiConsistency.t_error c + Repair.count_failed rs |}, t').
Proof.
  revert c t. induction ms as [|m ms IH]; intros c t; cbn [fold_left Repair.batch].
  - destruct c. cbn. rewrite app_nil_r. unfold Repair.count_status, Repair.count_failed.
    cbn [List.filter length Z.of_nat]. by rewrite !Z.add_0_r.
  - unfold ApiConsistency.visit at 2.
    destruct (ApiConsistency.skipped_module m); [apply IH|].
    destruct (ApiConsistency.fix_module_syntax compile t m) as [r t1].
    destruct (Repair.batch _ _ ms t1) as [rs t2] eqn:Eb.
    assert (forall c', fold_left (ApiConsistency.visit compile) ms (c', t1) = _) as IH'
      by (intros c'; rewrite (IH c' t1), Eb; reflexivity).
    rewrite !count_status_cons, count_failed_cons.
    destruct (r_status r); rewrite IH'; cbn; rewrite <- app_assoc; f_equal; f_equal;
      repeat case_bool_decide; try congruence; cbn; lia.
Qed.

Lemma string_fold ms c t :
  fold_left (StringFixer.visit compile) ms (c, t) =
  let (rs, t') := Repair.batch (fun m => String.eqb m "string_fixer")
                    (StringFixer.fix_module_string_literals compile) ms t in
  ({| StringFixer.t_results := StringFixer.t_results c ++ rs;
      StringFixer.t_fixed := StringFixer.t_fixed c + Repair.count_status fixed rs;
      StringFixer.t_no_issues :=
        StringFixer.t_no_issues c + Repair.count_status no_issues rs;
      StringFixer.t_error := StringFixer.t_error c + Repair.count_failed rs |}, t').
Proof.
  revert c t. induction ms as [|m ms IH]; intros c t; cbn [fold_left Repair.batch].
  - destruct c. cbn. rewrite app_nil_r. unfold Repair.count_status, Repair.count_failed.
    cbn [List.filter length Z.of_nat]. by rewrite !Z.add_0_r.
  - unfold StringFixer.visit at 2.
    destruct (String.eqb m "string_fixer"); [apply IH|].
    destruct (StringFixer.fix_module_string_literals compile t m) as [r t1].
    destruct (Repair.batch _ _ ms t1) as [rs t2] eqn:Eb.
    assert (forall c', fold_left (StringFixer.visit compile) ms (c', t1) = _) as IH'
      by (intros c'; rewrite (IH c' t1), Eb; reflexivity).
    rewrite !count_status_cons, count_failed_cons.
    destruct (r_status r); rewrite IH'; cbn; rewrite <- app_assoc; f_equal; f_equal;
      repeat case_bool_decide; try congruence; cbn; lia.
Qed.

(** Both batch operations, in terms of [batch]. *)
Lemma fix_all_batch who t :
  Repair.fix_all who compile t =
  let (rs, t') := Repair.batch (Repair.skips who) (Repair.repair who compile)
                    (Fs.modules t) t in
  ({| results := rs;
      total_modules := Z.of_nat (length (Fs.modules t));
      fixed_modules := Repair.count_status fixed rs;
      modules_without_issues := Repair.count_status no_issues rs;
      modules_with_errors := Repair.count_failed rs |}, t').
Proof.
  destruct who; cbn [Repair.fix_all Repair.skips].
  - unfold ApiConsistency.fix_all_modules_syntax. rewrite api_fold.
    change (Repair.repair Repair.api_consistency compile)
      with (ApiConsistency.fix_module_syntax compile).
    destruct (Repair.batch _ _ _ _) as [rs t']. reflexivity.
  - unfold StringFixer.fix_all_modules. rewrite string_fold.
    change (Repair.repair Repair.string_fixer compile)
      with (StringFixer.fix_module_string_literals compile).
    destruct (Repair.batch _ _ _ _) as [rs t']. reflexivity.
Qed.

(** A module whose file cannot be read is reported [error], with the message
    of the exception, and nothing is written. *)
Lemma repair_unreadable who t m f msg :
  Fs.init_file t m = Some f -> Fs.read_error f = Some msg ->
  Repair.repair who compile t m =
  ({| r_module := m; r_status := error;
      r_message := "Error fixing module: " +:+ msg; r_fixes := None |}, t).
Proof.
  intros Hf Hr.
  pose proof (exists_of_file _ _ _ Hf) as Hx.
  pose proof (read_of_unreadable _ _ _ _ Hf Hr) as Hrd.
  destruct who; cbn [Repair.repair].
  - unfold ApiConsistency.fix_module_syntax. rewrite Hx. cbn [negb].
    unfold mbind, exc_bind. by rewrite Hrd.
  - unfold StringFixer.fix_module_string_literals. rewrite Hx. cbn [negb].
    unfold mbind, exc_bind. by rewrite Hrd.
Qed.

Lemma write_of_unwritable t m f msg c :
  Fs.init_file t m = Some f -> Fs.write_error f = Some msg -> Fs.write t m c = Raise msg.
Proof.
  unfold Fs.init_file, Fs.write. destruct (Fs.lookup t m) as [e|]; [|discriminate].
  destruct (Fs.is_dir e); [|discriminate]. by intros -> ->.
Qed.

(** A module whose repaired text cannot be written is reported [error], with
    the message of the exception, and the tree is as it was. *)
Lemma repair_unwritable who t m f msg c :
  Fs.init_file t m = Some f -> Fs.read_error f = None -> Fs.write_error f = Some msg ->
  Repair.final_content who compile (Py.universal_newlines (Fs.content f)) = Ret c ->
  Repair.is_valid compile c = true -> c <> Py.universal_newlines (Fs.content f) ->
  Repair.repair who compile t m =
  ({| r_module := m; r_status := error;
      r_message := "Error fixing module: " +:+ msg; r_fixes := None |}, t).
Proof.
  intros Hf Hr Hw Hl Hv Hne.
  pose proof (exists_of_file _ _ _ Hf) as Hx.
  pose proof (read_of_file _ _ _ Hf Hr) as Hrd.
  destruct who; cbn [Repair.repair Repair.final_content] in *.
  - unfold ApiConsistency.fix_module_syntax. rewrite Hx. cbn [negb].
    unfold mbind, exc_bind, mret, exc_ret, fmap, exc_fmap in *. rewrite Hrd.
    destruct (ApiConsistency.repair_loop _ _ _) as [st|]; [|discriminate].
    injection Hl as Hl. cbv beta iota zeta.
    rewrite api_valid_is_valid, Hl, Hv.
    rewrite bool_decide_eq_true_2 by done.
    by rewrite (write_of_unwritable _ _ _ _ _ Hf Hw).
  - unfold StringFixer.fix_module_string_literals. rewrite Hx. cbn [negb].
    unfold mbind, exc_bind, mret, exc_ret, fmap, exc_fmap in *. rewrite Hrd.
    destruct (StringFixer.repair_loop _ _ _) as [st|]; [|discriminate].
    injection Hl as Hl. cbv beta iota zeta.
    rewrite Hl, (string_valid_of_is_valid _ _ Hv).
    rewrite bool_decide_eq_true_2 by done.
    by rewrite (write_of_unwritable _ _ _ _ _ Hf Hw).
Qed.

(** One report per module that is not skipped, in the order of the listing. *)
Lemma batch_modules who ms t :
  r_module <$> (Repair.batch (Repair.skips who) (Repair.repair who compile) ms t).1
  = List.filter (fun m => negb (Repair.skips who m)) ms.
Proof.
  revert t. induction ms as [|m ms IH]; intros t; cbn [Repair.batch List.filter]; [done|].
  destruct (Repair.skips who m); cbn [negb]; [apply IH|].
  pose proof (repair_module compile who t m) as Hm.
  destruct (Repair.repair who compile t m) as [r t1].
  specialize (IH t1). destruct (Repair.batch _ _ ms t1) as [rs t2].
  cbn in *. by rewrite Hm, IH.
Qed.

(** The loop leaves alone every module its skip test names. *)
Lemma batch_lookup_skipped who ms t own :
  Repair.skips who own = true ->
  Fs.lookup (Repair.batch (Repair.skips who) (Repair.repair who compile) ms t).2 own
  = Fs.lookup t own.
Proof.
  intros Hown. revert t. induction ms as [|m ms IH]; intros t; cbn [Repair.batch]; [done|].
  destruct (Repair.skips who m) eqn:Hm; [apply IH|].
  assert (m <> own) as Hne by (intros ->; congruence).
  pose proof (repair_lookup_ne compile who t m own Hne) as Hl.
  destruct (Repair.repair who compile t m) as [r t1].
  specialize (IH t1). destruct (Repair.batch _ _ ms t1) as [rs t2].
  cbn [fst snd] in *. congruence.
Qed.

(** A module whose run reports [r] and writes nothing, whatever else the
    tree holds, does not stop the loop: [r] is among the results. *)
Lemma batch_static who ms t m f r :
  m ∈ ms -> Repair.skips who m = false ->
  Fs.init_file t m = Some f ->
  (forall t1, Fs.init_file t1 m = Some f -> Repair.repair who compile t1 m = (r, t1)) ->
  r ∈ (Repair.batch (Repair.skips who) (Repair.repair who compile) ms t).1.
Proof.
  intros Hin Hskip Hf Hrun. revert t Hf.
  induction ms as [|m0 ms IH]; intros t Hf; [by apply not_elem_of_nil in Hin|].
  cbn [Repair.batch].
  destruct (decide (m0 = m)) as [->|Hne].
  - rewrite Hskip, (Hrun t Hf).
    destruct (Repair.batch _ _ ms t) as [rs t2]. cbn. apply list_elem_of_here.
  - apply elem_of_cons in Hin as [->|Hin]; [done|].
    destruct (Repair.skips who m0); [by apply IH|].
    pose proof (repair_lookup_ne compile who t m0 m Hne) as Hl.
    destruct (Repair.repair who compile t m0) as [r0 t1].
    cbn [snd] in Hl.
    assert (Fs.init_file t1 m = Some f) as Hf1
      by (rewrite (init_file_ext _ _ _ Hl); exact Hf).
    specialize (IH Hin t1 Hf1).
    destruct (Repair.batch _ _ ms t1) as [rs t2]. cbn [fst snd] in *.
    by apply list_elem_of_further.
Qed.

(** An unreadable module does not stop the loop: its [error] report is
    among the results. *)
Lemma batch_unreadable who ms t m f msg :
  m ∈ ms -> Repair.skips who m = false ->
  Fs.init_file t m = Some f -> Fs.read_error f = Some msg ->
  {| r_module := m; r_status := error;
     r_message := "Error fixing module: " +:+ msg; r_fixes := None |}
  ∈ (Repair.batch (Repair.skips who) (Repair.repair who compile) ms t).1.
Proof.
  intros Hin Hskip. revert t.
  induction ms as [|m0 ms IH]; intros t Hf Hr; [by apply not_elem_of_nil in Hin|].
  cbn [Repair.batch].
  destruct (decide (m0 = m)) as [->|Hne].
  - rewrite Hskip, (repair_unreadable who t m f msg Hf Hr).
    destruct (Repair.batch _ _ ms t) as [rs t2]. cbn. apply list_elem_of_here.
  - apply elem_of_cons in Hin as [->|Hin]; [done|].
    destruct (Repair.skips who m0); [by apply IH|].
    pose proof (repair_lookup_ne compile who t m0 m Hne) as Hl.
    destruct (Repair.repair who compile t m0) as [r t1].
    cbn [snd] in Hl.
    assert (Fs.init_file t1 m = Some f) as Hf1
      by (rewrite (init_file_ext _ _ _ Hl); exact Hf).
    specialize (IH Hin t1 Hf1 Hr).
    destruct (Repair.batch _ _ ms t1) as [rs t2]. cbn [fst snd] in *.
    by apply list_elem_of_further.
Qed.

End BatchFacts.

Section CheckerFacts.

Variable import_module : Fs.tree -> string -> exc bool.

Lemma filter_split {A : Type} (p : A -> bool) (l : list A) :
  Z.of_nat (length (List.filter (fun x => negb (p x)) l)) =
  Z.of_nat (length l) - Z.of_nat (length (List.filter p l)).
Proof.
  induction l as [|x l IH]; [done|]. cbn [List.filter length].
  destruct (p x); cbn [negb length]; lia.
Qed.

Lemma checker_visit t c m :
  let c1 := ModuleChecker.visit import_module t c m in
  if String.eqb m "module_checker" then c1 = c
  else ModuleChecker.t_valid c1 + ModuleChecker.t_invalid c1 =
         ModuleChecker.t_valid c + ModuleChecker.t_invalid c + 1 /\
       Z.of_nat (length (ModuleChecker.t_results c1)) =
         Z.of_nat (length (ModuleChecker.t_results c)) + 1.
Proof.
  cbv zeta. unfold ModuleChecker.visit.
  destruct (String.eqb m "module_checker"); [done|].
  destruct (ModuleChecker.m_status _);
    cbn [ModuleChecker.t_valid ModuleChecker.t_invalid ModuleChecker.t_results];
    rewrite length_app; cbn [length]; lia.
Qed.

(** The loop of the health check counts every module it does not skip
    once, as valid or as invalid. *)
Lemma checker_fold t ms c :
  let c' := fold_left (ModuleChecker.visit import_module t) ms c in
  let visited :=
    Z.of_nat (length (List.filter (fun m => negb (String.eqb m "module_checker")) ms)) in
  ModuleChecker.t_valid c' + ModuleChecker.t_invalid c' =
    ModuleChecker.t_valid c + ModuleChecker.t_invalid c + visited /\
  Z.of_nat (length (ModuleChecker.t_results c')) =
    Z.of_nat (length (ModuleChecker.t_results c)) + visited.
Proof.
  cbv zeta. revert c. induction ms as [|m ms IH]; intros c; cbn [fold_left List.filter].
  - cbn. lia.
  - pose proof (checker_visit t c m) as Hv. cbv zeta in Hv.
    destruct (IH (ModuleChecker.visit import_module t c m)) as [IH1 IH2].
    destruct (String.eqb m "module_checker"); cbn [negb length].
    + rewrite Hv in *. done.
    + destruct Hv as [Hv1 Hv2]. lia.
Qed.

End CheckerFacts.

(** ** Batch operations: self-exclusion, resilience, counts *)

(** C8 (self-exclusion).  Whatever the state of the tree, the batch
    operation of a repairer leaves the entry of its own module (the file,
    its content and its permissions) exactly as it was. *)
Theorem fix_all_spares_own_module (who : Repair.repairer)
    (compile : string -> compile_result) (t : Fs.tree) :
  Fs.lookup (Repair.fix_all who compile t).2 (Repair.own_module who)
  = Fs.lookup t (Repair.own_module who).
Proof.
  rewrite fix_all_batch.
  pose proof (batch_lookup_skipped compile who (Fs.modules t) t (Repair.own_module who)) as H.
  destruct (Repair.batch _ _ _ _) as [rs t']. cbn [snd] in *.
  apply H. by destruct who.
Qed.

(** C10 (aggregate counts).  The total counts every module directory with an
    entry file, the skipped ones included; the status counters and the
    result list cover the others only, so the counters add up to the total
    minus the number of skip-listed modules on disk. *)
Theorem batch_counts (compile : string -> compile_result)
    (import_module : Fs.tree -> string -> exc bool) (t : Fs.tree) :
  let rep := (ApiConsistency.fix_all_modules_syntax compile t).1 in
  let chk := ModuleChecker.check_all_modules import_module t in
  let on_skip_list :=
    Z.of_nat (length (List.filter ApiConsistency.skipped_module (Fs.modules t))) in
  let checker_itself :=
    Z.of_nat (length (List.filter (fun m => String.eqb m "module_checker")
                        (Fs.modules t))) in
  (total_modules rep = Z.of_nat (length (Fs.modules t)) /\
   fixed_modules rep + modules_without_issues rep + modules_with_errors rep
     = total_modules rep - on_skip_list /\
   Z.of_nat (length (results rep)) = total_modules rep - on_skip_list) /\
  (ModuleChecker.total chk = Z.of_nat (length (Fs.modules t)) /\
   ModuleChecker.n_valid chk + ModuleChecker.n_invalid chk
     = ModuleChecker.total chk - checker_itself /\
   Z.of_nat (length (ModuleChecker.modules chk))
     = ModuleChecker.total chk - checker_itself).
Proof.
  cbv zeta. split.
  - pose proof (fix_all_batch compile Repair.api_consistency t) as E.
    cbn [Repair.fix_all] in E. rewrite E. clear E.
    pose proof (batch_modules compile Repair.api_consistency (Fs.modules t) t) as Hm.
    destruct (Repair.batch _ _ _ _) as [rs t']. cbn [fst snd results total_modules
      fixed_modules modules_without_issues modules_with_errors] in *.
    apply (f_equal length) in Hm. rewrite length_fmap in Hm.
    pose proof (filter_split ApiConsistency.skipped_module (Fs.modules t)) as Hs.
    cbn [Repair.skips] in Hm. rewrite counts_total. lia.
  - unfold ModuleChecker.check_all_modules.
    cbn [ModuleChecker.total ModuleChecker.n_valid ModuleChecker.n_invalid
         ModuleChecker.modules].
    destruct (checker_fold import_module t (Fs.modules t)
                {| ModuleChecker.t_results := []; ModuleChecker.t_valid := 0;
                   ModuleChecker.t_invalid := 0 |}) as [H1 H2].
    pose proof (filter_split (fun m => String.eqb m "module_checker") (Fs.modules t)) as Hs.
    cbn [ModuleChecker.t_results ModuleChecker.t_valid ModuleChecker.t_invalid length]
      in H1, H2.
    lia.
Qed.

Section FixModuleFacts.

Variable compile : string -> compile_result.

Implicit Types (t : Fs.tree) (m : string).

(** The single-pass fixer writes at most the file of its module, and only
    after reading it; its reply names that module or none. *)
Lemma fix_string_literals_run t m :
  ((FixModule.fix_string_literals compile t m).2 = t \/
   exists c0 c, Fs.read t m = Ret c0 /\
                Fs.write t m c = Ret (FixModule.fix_string_literals compile t m).2) /\
  (FixModule.get_module (FixModule.fix_string_literals compile t m).1 = None \/
   FixModule.get_module (FixModule.fix_string_literals compile t m).1 = Some m).
Proof.
  unfold FixModule.fix_string_literals.
  destruct (Fs.exists_init t m); cbn [negb]; [|cbn; auto].
  unfold mbind, exc_bind, mret, exc_ret.
  destruct (Fs.read t m) as [c0|msg]; [|cbn; auto].
  destruct (compile c0) as [|lineno text|text]; [cbn; auto| |cbn; auto].
  destruct (Py.contains _ text); cbn [negb]; [|cbn; auto].
  destruct lineno as [error_line|]; [|cbn; auto].
  destruct (_ || _); [cbn; auto|].
  destruct (FixModule.repair_lines _ error_line) as [lines' fixes].
  destruct (compile (Py.join_nl lines')); [|cbn; auto..].
  destruct (Fs.write t m (Py.join_nl lines')) as [t'|msg] eqn:Ew; [|cbn; auto].
  cbn. split; [right; eauto|auto].
Qed.

Lemma fm_visit_lookup_ne acc m m' :
  m <> m' ->
  Fs.lookup (FixModule.visit compile acc m).2 m' = Fs.lookup acc.2 m'.
Proof.
  intros Hne. destruct acc as [results t]. unfold FixModule.visit. cbn [snd].
  destruct (Fs.read t m) as [c0|msg]; [|done].
  destruct (compile c0) as [|lineno text|text]; [done| |done].
  destruct (Py.contains _ text); cbn [negb]; [|done].
  destruct (fix_string_literals_run t m) as [[Ht|(c1 & c & _ & Hw)] _];
    destruct (FixModule.fix_string_literals compile t m) as [r t']; cbn [snd] in *.
  - by subst.
  - by eapply write_lookup_ne.
Qed.

(** A visit appends replies that name the visited module or none. *)
Lemma fm_visit_results acc m :
  exists new, (FixModule.visit compile acc m).1 = acc.1 ++ new /\
    forall r, r ∈ new ->
      FixModule.get_module r = None \/ FixModule.get_module r = Some m.
Proof.
  destruct acc as [results t]. unfold FixModule.visit. cbn [fst].
  assert (forall msg, exists new,
            results ++ [FixModule.Report {| r_module := m; r_status := error;
                          r_message := msg; r_fixes := None |}] = results ++ new /\
            forall r, r ∈ new ->
              FixModule.get_module r = None \/ FixModule.get_module r = Some m) as Hfail.
  { intros msg. eexists. split; [done|]. intros r ->%list_elem_of_singleton. by right. }
  assert (exists new, results = results ++ new /\
            forall r, r ∈ new ->
              FixModule.get_module r = None \/ FixModule.get_module r = Some m) as Hskip.
  { exists []. split; [by rewrite app_nil_r|]. by intros r ?%not_elem_of_nil. }
  destruct (Fs.read t m) as [c0|msg]; [|apply Hfail].
  destruct (compile c0) as [|lineno text|text]; [apply Hskip| |apply Hfail].
  destruct (Py.contains _ text); cbn [negb]; [|apply Hskip].
  destruct (fix_string_literals_run t m) as [_ Hm].
  destruct (FixModule.fix_string_literals compile t m) as [r t']; cbn [fst] in *.
  eexists. split; [done|]. by intros r' ->%list_elem_of_singleton.
Qed.

Lemma fm_visit_unreadable results t m f msg :
  Fs.init_file t m = Some f -> Fs.read_error f = Some msg ->
  FixModule.visit compile (results, t) m =
  (results ++ [FixModule.Report {| r_module := m; r_status := error;
                                   r_message := msg; r_fixes := None |}], t).
Proof.
  intros Hf Hr. unfold FixModule.visit.
  by rewrite (read_of_unreadable _ _ _ _ Hf Hr).
Qed.

Lemma fm_visit_valid acc m f :
  Fs.init_file acc.2 m = Some f -> Fs.read_error f = None ->
  compile (Py.universal_newlines (Fs.content f)) = Compiled ->
  FixModule.visit compile acc m = acc.
Proof.
  destruct acc as [results t]. cbn [snd]. intros Hf Hr Hc. unfold FixModule.visit.
  by rewrite (read_of_file _ _ _ Hf Hr), Hc.
Qed.

(** The repaired text of a module compiles and its file cannot be written:
    the reply is the bare error dict, and the tree is as it was. *)
Lemma fm_visit_unwritable results t m f msg error_line text :
  Fs.init_file t m = Some f -> Fs.read_error f = None -> Fs.write_error f = Some msg ->
  compile (Py.universal_newlines (Fs.content f)) = SyntaxError (Some error_line) text ->
  Py.contains "unterminated string literal" text = true ->
  0 < error_line <= Z.of_nat (length (Py.split_nl (Py.universal_newlines (Fs.content f)))) ->
  compile (Py.join_nl (FixModule.repair_lines
             (Py.split_nl (Py.universal_newlines (Fs.content f))) error_line).1)
  = Compiled ->
  FixModule.visit compile (results, t) m =
  (results ++ [FixModule.Failure ("Error processing module " +:+ m +:+ ": " +:+ msg)], t).
Proof.
  intros Hf Hr Hw Hc Hu Hb Hn. unfold FixModule.visit.
  rewrite (read_of_file _ _ _ Hf Hr), Hc, Hu. cbn [negb].
  unfold FixModule.fix_string_literals.
  rewrite (exists_of_file _ _ _ Hf). cbn [negb].
  unfold mbind, exc_bind, mret, exc_ret. rewrite (read_of_file _ _ _ Hf Hr), Hc, Hu.
  cbn [negb].
  replace (error_line <=? 0) with false by (symmetry; apply Z.leb_gt; lia).
  replace (error_line >? _) with false by (symmetry; rewrite Z.gtb_ltb; apply Z.ltb_ge; lia).
  cbn [orb].
  destruct (FixModule.repair_lines _ error_line) as [lines' fixes]. cbn [fst] in Hn.
  by rewrite Hn, (write_of_unwritable _ _ _ _ _ Hf Hw).
Qed.

(** Replies only accumulate. *)
Lemma fm_fold_keeps ms acc r :
  r ∈ acc.1 -> r ∈ (fold_left (FixModule.visit compile) ms acc).1.
Proof.
  revert acc. induction ms as [|m ms IH]; intros acc Hin; cbn [fold_left]; [done|].
  apply IH. destruct (fm_visit_results acc m) as (new & -> & _).
  apply elem_of_app. by left.
Qed.

Lemma fm_fold_unreadable ms acc m f msg :
  m ∈ ms -> Fs.init_file acc.2 m = Some f -> Fs.read_error f = Some msg ->
  FixModule.Report {| r_module := m; r_status := error;
                      r_message := msg; r_fixes := None |}
  ∈ (fold_left (FixModule.visit compile) ms acc).1.
Proof.
  intros Hin. revert acc.
  induction ms as [|m0 ms IH]; intros acc Hf Hr; [by apply not_elem_of_nil in Hin|].
  cbn [fold_left]. destruct (decide (m0 = m)) as [->|Hne].
  - apply fm_fold_keeps. destruct acc as [results t]. cbn [snd] in Hf.
    rewrite (fm_visit_unreadable results t m f msg Hf Hr). cbn [fst].
    apply elem_of_app. right. apply list_elem_of_here.
  - apply elem_of_cons in Hin as [->|Hin]; [done|].
    apply IH; [done| |done].
    rewrite (init_file_ext _ _ _ (fm_visit_lookup_ne acc m0 m Hne)). exact Hf.
Qed.

(** A module whose visit appends [r] and writes nothing, whatever else the
    tree holds, does not stop the loop. *)
Lemma fm_fold_static ms acc m f r :
  m ∈ ms -> Fs.init_file acc.2 m = Some f ->
  (forall results t1, Fs.init_file t1 m = Some f ->
     FixModule.visit compile (results, t1) m = (results ++ [r], t1)) ->
  r ∈ (fold_left (FixModule.visit compile) ms acc).1.
Proof.
  intros Hin. revert acc.
  induction ms as [|m0 ms IH]; intros acc Hf Hv; [by apply not_elem_of_nil in Hin|].
  cbn [fold_left]. destruct (decide (m0 = m)) as [->|Hne].
  - apply fm_fold_keeps. destruct acc as [results t]. cbn [snd] in Hf.
    rewrite (Hv results t Hf). cbn [fst].
    apply elem_of_app. right. apply list_elem_of_here.
  - apply elem_of_cons in Hin as [->|Hin]; [done|].
    apply IH; [done| |done].
    rewrite (init_file_ext _ _ _ (fm_visit_lookup_ne acc m0 m Hne)). exact Hf.
Qed.

Lemma fm_fold_valid ms acc m f :
  Fs.init_file acc.2 m = Some f -> Fs.read_error f = None ->
  compile (Py.universal_newlines (Fs.content f)) = Compiled ->
  (forall r, r ∈ acc.1 -> FixModule.get_module r <> Some m) ->
  forall r, r ∈ (fold_left (FixModule.visit compile) ms acc).1 ->
            FixModule.get_module r <> Some m.
Proof.
  revert acc. induction ms as [|m0 ms IH]; intros acc Hf Hr Hc Hacc; cbn [fold_left]; [done|].
  destruct (decide (m0 = m)) as [->|Hne].
  - rewrite (fm_visit_valid acc m f Hf Hr Hc). by apply IH.
  - apply IH; [|done|done|].
    + rewrite (init_file_ext _ _ _ (fm_visit_lookup_ne acc m0 m Hne)). exact Hf.
    + destruct (fm_visit_results acc m0) as (new & -> & Hnew).
      intros r [Hin|Hin]%elem_of_app; [by apply Hacc|].
      destruct (Hnew r Hin) as [-> | ->]; congruence.
Qed.

End FixModuleFacts.

(** C9 as stated fails: of five modules, the third unreadable, the batch of
    [fix_module] reports one entry, and the orchestrator reports four when
    one of the five is on its skip list. *)
Lemma batch_reports_fewer_entries :
  (FixModule.fix_all_modules Sample.mini_compile Trees.five_modules).1
  = {| FixModule.total_processed := 1; FixModule.n_fixed := 0;
       FixModule.n_unfixable := 0; FixModule.n_errors := 1;
       FixModule.b_results :=
         [FixModule.Report {| r_module := "settings"; r_status := error;
                              r_message := Trees.permission_denied;
                              r_fixes := None |}] |} /\
  length (Fs.modules Trees.five_with_fixer) = 5%nat /\
  r_module <$> results (ApiConsistency.fix_all_modules_syntax Sample.mini_compile
                          Trees.five_with_fixer).1
  = ["media"; "settings"; "shared"; "utils"].
Proof. vm_compute. repeat split; reflexivity. Qed.

(** C9 (batch resilience, amended).  An input/output error on one module
    never stops a batch, but the two batches record it differently.  The
    orchestrator reports one entry for every module that is not on its skip
    list, in listing order; a module whose file cannot be read, or cannot be
    written after its repair, has an entry with status [error] that carries
    the message.  The batch of [fix_module] records a module whose file
    cannot be read as an entry with status [error] and the message; a module
    whose repaired file cannot be written gets the bare error dict, without
    module or status, which the counter of errors does not count; a module
    whose file compiles gets no entry. *)
Theorem batch_survives_io_errors (compile : string -> compile_result) (t : Fs.tree) :
  let rep := (ApiConsistency.fix_all_modules_syntax compile t).1 in
  let rep' := (FixModule.fix_all_modules compile t).1 in
  let text_of (f : Fs.file) := Py.universal_newlines (Fs.content f) in
  r_module <$> results rep
    = List.filter (fun m => negb (ApiConsistency.skipped_module m)) (Fs.modules t) /\
  (forall m f msg,
     m ∈ Fs.modules t -> ApiConsistency.skipped_module m = false ->
     Fs.init_file t m = Some f -> Fs.read_error f = Some msg ->
     {| r_module := m; r_status := error;
        r_message := "Error fixing module: " +:+ msg; r_fixes := None |}
     ∈ results rep) /\
  (forall m f msg c,
     m ∈ Fs.modules t -> ApiConsistency.skipped_module m = false ->
     Fs.init_file t m = Some f -> Fs.read_error f = None ->
     Fs.write_error f = Some msg ->
     Repair.final_content Repair.api_consistency compile (text_of f) = Ret c ->
     compile c = Compiled -> c <> text_of f ->
     {| r_module := m; r_status := error;
        r_message := "Error fixing module: " +:+ msg; r_fixes := None |}
     ∈ results rep) /\
  (forall m f msg,
     m ∈ Fs.modules t ->
     Fs.init_file t m = Some f -> Fs.read_error f = Some msg ->
     FixModule.Report {| r_module := m; r_status := error;
                         r_message := msg; r_fixes := None |}
     ∈ FixModule.b_results rep') /\
  (forall m f msg error_line text,
     m ∈ Fs.modules t ->
     Fs.init_file t m = Some f -> Fs.read_error f = None ->
     Fs.write_error f = Some msg ->
     compile (text_of f) = SyntaxError (Some error_line) text ->
     Py.contains "unterminated string literal" text = true ->
     0 < error_line <= Z.of_nat (length (Py.split_nl (text_of f))) ->
     compile (Py.join_nl (FixModule.repair_lines (Py.split_nl (text_of f)) error_line).1)
     = Compiled ->
     FixModule.Failure ("Error processing module " +:+ m +:+ ": " +:+ msg)
     ∈ FixModule.b_results rep') /\
  FixModule.n_errors rep'
    = Z.of_nat (length (List.filter
        (fun r => bool_decide (FixModule.get_status r = Some error))
        (FixModule.b_results rep'))) /\
  (forall m f,
     Fs.init_file t m = Some f -> Fs.read_error f = None ->
     compile (text_of f) = Compiled ->
     forall r, r ∈ FixModule.b_results rep' -> FixModule.get_module r <> Some m).
Proof.
  cbv zeta.
  pose proof (fix_all_batch compile Repair.api_consistency t) as E.
  cbn [Repair.fix_all] in E. rewrite E. clear E.
  pose proof (batch_modules compile Repair.api_consistency (Fs.modules t) t) as Hm.
  pose proof (batch_unreadable compile Repair.api_consistency (Fs.modules t) t) as Hu.
  pose proof (batch_static compile Repair.api_consistency (Fs.modules t) t) as Hs.
  destruct (Repair.batch _ _ _ _) as [rs t1]. cbn [fst snd results Repair.skips] in *.
  split; [exact Hm|]. split; [intros m f msg; apply Hu|]. split.
  { intros m f msg c Hin Hsk Hf Hr Hw Hl Hc Hne. apply (Hs m f _ Hin Hsk Hf).
    intros t2 Hf2. apply (repair_unwritable compile Repair.api_consistency t2 m f msg c);
      try done. unfold Repair.is_valid. by rewrite Hc. }
  unfold FixModule.fix_all_modules.
  pose proof (fm_fold_unreadable compile (Fs.modules t) ([], t)) as Hu'.
  pose proof (fm_fold_static compile (Fs.modules t) ([], t)) as Hs'.
  pose proof (fm_fold_valid compile (Fs.modules t) ([], t)) as Hv'.
  destruct (fold_left _ _ _) as [results t2].
  cbn [fst snd FixModule.b_results FixModule.n_errors] in *.
  split; [intros m f msg; apply Hu'|]. split.
  { intros m f msg error_line text Hin Hf Hr Hw Hc Hut Hb Hn. apply (Hs' m f _ Hin Hf).
    intros results' t3 Hf3. by eapply fm_visit_unwritable. }
  split; [reflexivity|].
  intros m f Hf Hr Hc. apply (Hv' m f Hf Hr Hc). by intros r ?%not_elem_of_nil.
Qed.

(** A module that is repaired and cannot be written, in both batches. *)
Lemma batch_survives_io_errors_witness :
  let t := [Sample.unwritable_dir "settings" Sample.luxury Trees.permission_denied] in
  {| r_module := "settings"; r_status := error;
     r_message := "Error fixing module: " +:+ Trees.permission_denied; r_fixes := None |}
  ∈ results (ApiConsistency.fix_all_modules_syntax Sample.mini_compile t).1 /\
  FixModule.Failure ("Error processing module " +:+ "settings" +:+ ": " +:+
                     Trees.permission_denied)
  ∈ FixModule.b_results (FixModule.fix_all_modules Sample.mini_compile t).1.
Proof.
  intros t.
  destruct (batch_survives_io_errors Sample.mini_compile t) as (_ & _ & Hapi & _ & Hfm & _).
  split.
  - eapply (Hapi "settings" _ _ Sample.luxury_fixed).
    + apply list_elem_of_here.
    + reflexivity.
    + reflexivity.
    + reflexivity.
    + reflexivity.
    + vm_compute. reflexivity.
    + vm_compute. reflexivity.
    + vm_compute. congruence.
  - eapply (Hfm "settings" _ _ 1).
    + apply list_elem_of_here.
    + reflexivity.
    + reflexivity.
    + reflexivity.
    + vm_compute. reflexivity.
    + reflexivity.
    + vm_compute. split; congruence.
    + vm_compute. reflexivity.
Defined.

(** ** The quote-balance analysis *)

(** C5 as stated fails: on the opening line of a docstring the orchestrator
    picks the single quote where the stated priority picks the triple one,
    and [fix_module] picks the single quote of an apostrophe where the
    stated priority picks the triple double quote. *)
Lemma quote_priority_differs :
  QuoteBalanceSpec.analyze_line Trees.summary_line = Some TripleSingle /\
  ApiConsistency.unbalanced_kind Trees.summary_line = Some Single /\
  QuoteBalanceSpec.analyze_line Trees.owner_line = Some TripleDouble /\
  FixModule.unbalanced_kind Trees.owner_line = Some Single.
Proof. vm_compute. repeat split; reflexivity. Qed.

Lemma parity_test (x : Z) : (x mod 2 =? 1) = Z.odd x /\ (x mod 2 =? 0) = Z.even x.
Proof.
  rewrite Zmod_odd, <- Z.negb_odd. by destruct (Z.odd x).
Qed.

(** C5 (amended).  Both fixers count the four kinds of quote on the line and
    select at most one.  The orchestrator does not subtract anything: it
    selects the single quote when its count is odd and the double count
    even, the double quote when its count is odd and the single count even,
    and otherwise the triple single, then the triple double quote when its
    count is odd.  [fix_module] takes the triple counts off three times and
    selects the first odd count in the order single, double, triple single,
    triple double, whatever the parity of the other counts.  The orchestrator
    then appends the selected quote to the blamed line. *)
Theorem quote_analysis_of_the_fixers (line : string) :
  let s := Py.count Py.SQ line in
  let d := Py.count Py.DQ line in
  let ts := Py.count Py.SQ3 line in
  let td := Py.count Py.DQ3 line in
  ((ApiConsistency.unbalanced_kind line = Some Single
      <-> Z.odd s = true /\ Z.even d = true) /\
   (ApiConsistency.unbalanced_kind line = Some Double
      <-> Z.odd d = true /\ Z.even s = true) /\
   (ApiConsistency.unbalanced_kind line = Some TripleSingle
      <-> Z.odd s = Z.odd d /\ Z.odd ts = true) /\
   (ApiConsistency.unbalanced_kind line = Some TripleDouble
      <-> Z.odd s = Z.odd d /\ Z.even ts = true /\ Z.odd td = true)) /\
  ((FixModule.unbalanced_kind line = Some Single
      <-> Z.odd (s - ts * 3) = true) /\
   (FixModule.unbalanced_kind line = Some Double
      <-> Z.even (s - ts * 3) = true /\ Z.odd (d - td * 3) = true) /\
   (FixModule.unbalanced_kind line = Some TripleSingle
      <-> Z.even (s - ts * 3) = true /\ Z.even (d - td * 3) = true /\
          Z.odd ts = true) /\
   (FixModule.unbalanced_kind line = Some TripleDouble
      <-> Z.even (s - ts * 3) = true /\ Z.even (d - td * 3) = true /\
          Z.even ts = true /\ Z.odd td = true)) /\
  (forall (compile : string -> compile_result) (code : string) (n : nat) (k : quote_kind),
     Py.split_nl code !! n = Some line ->
     ApiConsistency.unbalanced_kind line = Some k ->
     ApiConsistency.fix_unterminated_string compile code (Z.of_nat (S n))
     = Py.join_nl (<[n := line +:+ quote_text k]> (Py.split_nl code))).
Proof.
  cbv zeta. split; [|split].
  - unfold ApiConsistency.unbalanced_kind.
    rewrite !(proj1 (parity_test _)), !(proj2 (parity_test _)), <- !Z.negb_odd.
    destruct (Z.odd (Py.count Py.SQ line)), (Z.odd (Py.count Py.DQ line)),
      (Z.odd (Py.count Py.SQ3 line)), (Z.odd (Py.count Py.DQ3 line));
      cbn; repeat split; intros; destruct_and?; congruence.
  - unfold FixModule.unbalanced_kind, FixModule.single_quotes, FixModule.double_quotes,
      FixModule.triple_single, FixModule.triple_double.
    rewrite !(proj1 (parity_test _)), <- !Z.negb_odd.
    destruct (Z.odd (Py.count Py.SQ line - _)), (Z.odd (Py.count Py.DQ line - _)),
      (Z.odd (Py.count Py.SQ3 line)), (Z.odd (Py.count Py.DQ3 line));
      cbn; repeat split; intros; destruct_and?; congruence.
  - intros compile code n k Hn Hk. unfold ApiConsistency.fix_unterminated_string.
    pose proof (lookup_lt_Some _ _ _ Hn) as Hlt.
    replace (Z.of_nat (S n) <=? 0) with false by (symmetry; apply Z.leb_gt; lia).
    replace (Z.of_nat (S n) >? Z.of_nat (length (Py.split_nl code))) with false
      by (symmetry; rewrite Z.gtb_ltb; apply Z.ltb_ge; lia).
    cbn [orb]. replace (Z.to_nat (Z.of_nat (S n) - 1)) with n by lia.
    rewrite Hn. change (default EmptyString (Some line)) with line. by rewrite Hk.
Qed.

(** ** Router definitions *)




(** ** Operation ids *)

Section OperationIdFacts.

Implicit Types (used : gset string) (base : string).

Lemma to_uint_nonnil (n : nat) : Nat.to_uint n <> Decimal.Nil.
Proof.
  intros H. pose proof (Unsigned.to_of (Nat.to_uint n)) as E.
  rewrite Unsigned.of_to, H in E. discriminate.
Qed.

Lemma str_of_nat_inj (a b : nat) : Py.str_of_nat a = Py.str_of_nat b -> a = b.
Proof.
  unfold Py.str_of_nat. intros H.
  apply (f_equal NilZero.uint_of_string) in H.
  rewrite !NilZero.usu in H by apply to_uint_nonnil.
  injection H as H. by apply Unsigned.to_uint_inj.
Qed.

Lemma suffixed_inj base (a b : nat) :
  OperationIdFixer.suffixed base a = OperationIdFixer.suffixed base b -> a = b.
Proof.
  unfold OperationIdFixer.suffixed. intros H.
  apply String.app_inj in H. apply (String.app_inj "_") in H.
  by apply str_of_nat_inj.
Qed.

(** The search stops on a free id as soon as [fuel] covers the used ids
    still ahead of the counter. *)
Lemma free_counter_fresh used base (ahead : gset string) :
  forall fuel counter : nat,
    (size ahead <= fuel)%nat ->
    (forall k : nat, (counter <= k)%nat -> OperationIdFixer.suffixed base k ∈ used ->
               OperationIdFixer.suffixed base k ∈ ahead) ->
    OperationIdFixer.suffixed base
      (OperationIdFixer.free_counter used base fuel counter) ∉ used.
Proof.
  intros fuel. revert ahead.
  induction fuel as [|fuel IH]; intros ahead counter Hsize Hahead;
    cbn [OperationIdFixer.free_counter].
  - intros Hin. apply Hahead in Hin; [|done].
    assert (size ahead = 0%nat) as Hz by lia.
    apply size_empty_inv, leibniz_equiv in Hz. rewrite Hz in Hin.
    by apply not_elem_of_empty in Hin.
  - case_bool_decide as Hin; [|done].
    apply (IH (ahead ∖ {[OperationIdFixer.suffixed base counter]})).
    + pose proof (Hahead counter (le_n _) Hin) as Hmem.
      assert (size (ahead ∖ {[OperationIdFixer.suffixed base counter]}) < size ahead)%nat;
        [|lia].
      apply subset_size. by apply subset_difference_elem_of.
    + intros k Hk Hused. apply elem_of_difference. split.
      * apply Hahead; [lia|done].
      * intros Heq%elem_of_singleton. apply suffixed_inj in Heq. lia.
Qed.

(** The id [generate_unique_operation_id] returns is not in use. *)
Lemma generate_unique_operation_id_fresh (module_name function_name : string) used :
  OperationIdFixer.generate_unique_operation_id module_name function_name used ∉ used.
Proof.
  unfold OperationIdFixer.generate_unique_operation_id.
  case_bool_decide as Hb; [done|].
  eapply (free_counter_fresh used _ used); [done|]. by intros k _ Hk.
Qed.

Variable read_text : string -> exc string.



End OperationIdFacts.


(** * Further properties of the repair code *)

(** ** Lines of a text *)

Section TextFacts.

Implicit Types (s l : string) (ls : list string) (c : ascii).

Lemma append_nil_r s : s +:+ EmptyString = s.
Proof. induction s as [|c s IH]; [done|]. change (String c (s +:+ EmptyString) = String c s). by rewrite IH. Qed.

Lemma append_assoc s1 s2 s3 : (s1 +:+ s2) +:+ s3 = s1 +:+ (s2 +:+ s3).
Proof.
  induction s1 as [|c s1 IH]; [done|].
  change (String c ((s1 +:+ s2) +:+ s3) = String c (s1 +:+ s2 +:+ s3)). by rewrite IH.
Qed.

Lemma length_append s1 s2 :
  String.length (s1 +:+ s2) = (String.length s1 + String.length s2)%nat.
Proof.
  induction s1 as [|c s1 IH]; [done|].
  change (S (String.length (s1 +:+ s2)) = S (String.length s1 + String.length s2)).
  by rewrite IH.
Qed.

Lemma split_nl_nonempty s : Py.split_nl s <> [].
Proof.
  destruct s as [|c s]; cbn [Py.split_nl]; [done|].
  destruct (Ascii.eqb c Py.nl); [done|]. by destruct (Py.split_nl s).
Qed.

Lemma join_nl_cons l ls : ls <> [] -> Py.join_nl (l :: ls) = l +:+ Py.NL +:+ Py.join_nl ls.
Proof. by destruct ls. Qed.

Lemma join_nl_head c l ls : Py.join_nl (String c l :: ls) = String c (Py.join_nl (l :: ls)).
Proof. by destruct ls. Qed.

(** Joining the lines of a text gives the text back. *)
Lemma join_split s : Py.join_nl (Py.split_nl s) = s.
Proof.
  induction s as [|c s IH]; [done|]. cbn [Py.split_nl].
  destruct (Ascii.eqb c Py.nl) eqn:E.
  - apply Ascii.eqb_eq in E as ->.
    rewrite join_nl_cons by apply split_nl_nonempty. by rewrite IH.
  - pose proof (split_nl_nonempty s) as Hne.
    destruct (Py.split_nl s) as [|l ls]; [done|].
    by rewrite join_nl_head, IH.
Qed.

Lemma split_lines_one_line s : Forall (fun l => Text.one_line l = true) (Py.split_nl s).
Proof.
  induction s as [|c s IH]; cbn [Py.split_nl]; [by repeat constructor|].
  destruct (Ascii.eqb c Py.nl) eqn:E; [by constructor|].
  pose proof (split_nl_nonempty s) as Hne.
  destruct (Py.split_nl s) as [|l ls]; [done|].
  inversion IH as [|? ? Hl Hls]; subst. constructor; [|done].
  cbn [Text.one_line]. by rewrite E, Hl.
Qed.

Lemma split_one_line_append l s :
  Text.one_line l = true ->
  Py.split_nl (l +:+ Py.NL +:+ s) = l :: Py.split_nl s.
Proof.
  induction l as [|c l IH]; intros Hl.
  - change (Py.split_nl (String Py.nl s) = EmptyString :: Py.split_nl s). reflexivity.
  - cbn [Text.one_line] in Hl. apply andb_true_iff in Hl as [Hc Hl].
    change (Py.split_nl (String c (l +:+ Py.NL +:+ s)) = String c l :: Py.split_nl s).
    cbn [Py.split_nl]. apply negb_true_iff in Hc. by rewrite Hc, IH.
Qed.

Lemma split_one_line l : Text.one_line l = true -> Py.split_nl l = [l].
Proof.
  induction l as [|c l IH]; intros Hl; [done|].
  cbn [Text.one_line] in Hl. apply andb_true_iff in Hl as [Hc Hl].
  cbn [Py.split_nl]. apply negb_true_iff in Hc. by rewrite Hc, IH.
Qed.

(** Splitting the join of lines gives the lines back. *)
Lemma split_join ls :
  ls <> [] -> Forall (fun l => Text.one_line l = true) ls ->
  Py.split_nl (Py.join_nl ls) = ls.
Proof.
  induction ls as [|l ls IH]; [done|]. intros _ Hall.
  inversion Hall as [|? ? Hl Hls]; subst.
  destruct ls as [|l' ls].
  - by apply split_one_line.
  - rewrite join_nl_cons by done. rewrite split_one_line_append by done.
    by rewrite IH.
Qed.

Lemma one_line_append l1 l2 :
  Text.one_line (l1 +:+ l2) = Text.one_line l1 && Text.one_line l2.
Proof.
  induction l1 as [|c l1 IH]; [done|].
  change (Text.one_line (String c (l1 +:+ l2)) = Text.one_line (String c l1) && Text.one_line l2).
  cbn [Text.one_line]. rewrite IH. by rewrite andb_assoc.
Qed.

Lemma startswith_refl s : Py.startswith s s = true.
Proof. unfold Py.startswith. induction s as [|c s IH]; [done|]. cbn. by rewrite IH; destruct (ascii_dec c c). Qed.

Lemma startswith_append s q : Py.startswith s (s +:+ q) = true.
Proof.
  unfold Py.startswith. induction s as [|c s IH]; [by destruct q|].
  change (String.prefix (String c s) (String c (s +:+ q)) = true).
  cbn. by rewrite IH; destruct (ascii_dec c c).
Qed.

Lemma startswith_trans s1 s2 s3 :
  Py.startswith s1 s2 = true -> Py.startswith s2 s3 = true -> Py.startswith s1 s3 = true.
Proof.
  unfold Py.startswith. revert s2 s3.
  induction s1 as [|x s1 IH]; intros s2 s3; [by destruct s3|].
  destruct s2 as [|y s2]; [done|]. destruct s3 as [|z s3]; [done|]. cbn.
  destruct (ascii_dec x y) as [->|]; [|done]. destruct (ascii_dec y z) as [->|]; [|done].
  destruct (ascii_dec z z); [|done]. apply IH.
Qed.

End TextFacts.

(** ** What a quote fixer does to the text *)

Section ExtendsFacts.

Implicit Types (s l q code : string) (ls : list string).

Lemma extends_refl s : Text.extends s s.
Proof.
  unfold Text.extends. induction (Py.split_nl s) as [|l ls IH]; constructor; [|done].
  apply startswith_refl.
Qed.

Lemma extends_trans s1 s2 s3 : Text.extends s1 s2 -> Text.extends s2 s3 -> Text.extends s1 s3.
Proof.
  unfold Text.extends. generalize (Py.split_nl s1) (Py.split_nl s2) (Py.split_nl s3).
  intros l1 l2 l3 H12. revert l3. induction H12 as [|a b l1 l2 Hab _ IH]; intros l3 H23.
  - inversion H23. constructor.
  - inversion H23 as [|? c ? l3' Hbc H23']; subst. constructor; [|by apply IH].
    by eapply startswith_trans.
Qed.

Lemma insert_extends_lines ls (i : nat) l q :
  ls !! i = Some l ->
  Forall2 (fun a b => Py.startswith a b = true) ls (<[i := l +:+ q]> ls).
Proof.
  revert i. induction ls as [|a ls IH]; intros i Hi; [done|].
  destruct i as [|i]; cbn in *.
  - injection Hi as ->. constructor; [apply startswith_append|].
    clear. induction ls; constructor; [apply startswith_refl|done].
  - constructor; [apply startswith_refl|]. by apply IH.
Qed.

Lemma join_length_insert ls (i : nat) l q :
  ls !! i = Some l ->
  String.length (Py.join_nl (<[i := l +:+ q]> ls))
  = (String.length (Py.join_nl ls) + String.length q)%nat.
Proof.
  revert i. induction ls as [|a ls IH]; intros i Hi; [done|].
  destruct i as [|i].
  - change (<[0%nat := l +:+ q]> (a :: ls)) with ((l +:+ q) :: ls).
    injection Hi as ->. destruct ls as [|b ls].
    + cbn [Py.join_nl]. apply length_append.
    + rewrite (join_nl_cons l), (join_nl_cons (l +:+ q)) by done.
      rewrite !length_append. lia.
  - change (<[S i := l +:+ q]> (a :: ls)) with (a :: <[i := l +:+ q]> ls).
    change (ls !! i = Some l) in Hi.
    assert (ls <> []) as Hne by (intros ->; done).
    assert (<[i := l +:+ q]> ls <> []) as Hne'.
    { intros E. apply (f_equal length) in E. rewrite length_insert in E.
      destruct ls; [done|discriminate]. }
    rewrite (join_nl_cons a ls), (join_nl_cons a (<[i := l +:+ q]> ls)) by done.
    rewrite !length_append, (IH i Hi). lia.
Qed.

(** Appending [q], which holds no newline, to line [i] of a text. *)
Lemma append_to_line_extends code (i : nat) l q :
  Py.split_nl code !! i = Some l -> Text.one_line q = true ->
  Text.extends code (Py.join_nl (<[i := l +:+ q]> (Py.split_nl code))).
Proof.
  intros Hi Hq. unfold Text.extends. rewrite split_join.
  - by apply insert_extends_lines.
  - intros E. apply (f_equal length) in E. rewrite length_insert in E.
    pose proof (split_nl_nonempty code). by destruct (Py.split_nl code).
  - apply Forall_insert; [apply split_lines_one_line|].
    rewrite one_line_append, Hq, andb_true_r.
    pose proof (split_lines_one_line code) as Hall.
    rewrite Forall_lookup in Hall. by apply (Hall i).
Qed.

(** Appending [q], which holds no newline, to the end of a text. *)
Lemma append_to_text_extends code q :
  Text.one_line q = true -> Text.extends code (code +:+ q).
Proof.
  intros Hq. unfold Text.extends. induction code as [|c code IH].
  - change (EmptyString +:+ q) with q. rewrite (split_one_line q Hq).
    constructor; [by destruct q|constructor].
  - change (String c code +:+ q) with (String c (code +:+ q)). cbn [Py.split_nl].
    destruct (Ascii.eqb c Py.nl); [by constructor|].
    pose proof (split_nl_nonempty code) as H1.
    pose proof (split_nl_nonempty (code +:+ q)) as H2.
    destruct (Py.split_nl code) as [|l ls]; [done|].
    destruct (Py.split_nl (code +:+ q)) as [|l' ls']; [done|].
    inversion IH as [|? ? ? ? Hl Hls]; subst. constructor; [|done].
    unfold Py.startswith in *. cbn. by destruct (ascii_dec c c).
Qed.

Lemma quote_text_one_line (k : quote_kind) : Text.one_line (quote_text k) = true.
Proof. by destruct k. Qed.

Lemma quote_text_length (k : quote_kind) :
  (1 <= String.length (quote_text k) <= 3)%nat.
Proof. destruct k; vm_compute; lia. Qed.

(** The line a valid line number points at. *)
Lemma blamed_line code (n : Z) :
  ((n <=? 0) || (n >? Z.of_nat (length (Py.split_nl code)))) = false ->
  exists l, Py.split_nl code !! Z.to_nat (n - 1) = Some l /\
            default EmptyString (Py.split_nl code !! Z.to_nat (n - 1)) = l.
Proof.
  intros H. apply orb_false_iff in H as [H1 H2].
  apply Z.leb_gt in H1. rewrite Z.gtb_ltb in H2. apply Z.ltb_ge in H2.
  destruct (Py.split_nl code !! Z.to_nat (n - 1)) as [l|] eqn:E; [by exists l|].
  apply lookup_ge_None in E. lia.
Qed.

End ExtendsFacts.

Lemma string_fix_shape (content : string) (line_number : Z) :
  let result := StringFixer.fix_unterminated_string content line_number in
  result = content \/
  exists (i : nat) (line : string) (k : quote_kind),
    line_number = Z.of_nat (S i) /\
    Py.split_nl content !! i = Some line /\
    (k = Single \/ k = Double) /\
    StringFixer.unbalanced_kind line = Some k /\
    result = Py.join_nl (<[i := line +:+ quote_text k]> (Py.split_nl content)) /\
    String.length result = S (String.length content).
Proof.
  cbv zeta. unfold StringFixer.fix_unterminated_string.
  destruct (_ || _) eqn:Hb; [by left|].
  destruct (blamed_line content line_number Hb) as (l & Hl & ->).
  destruct (StringFixer.unbalanced_kind l) as [k|] eqn:Hk; [|left; apply join_split].
  right. exists (Z.to_nat (line_number - 1)), l, k.
  apply orb_false_iff in Hb as [H1 _]. apply Z.leb_gt in H1.
  split; [lia|]. split; [done|]. split.
  { unfold StringFixer.unbalanced_kind in Hk.
    repeat (destruct (_ && _) in Hk); inversion Hk; auto. }
  split; [done|]. split; [done|].
  unfold Py.set_item. rewrite (join_length_insert _ _ _ _ Hl), join_split.
  assert (String.length (quote_text k) = 1%nat) as ->; [|lia].
  unfold StringFixer.unbalanced_kind in Hk.
  repeat (destruct (_ && _) in Hk); inversion Hk; done.
Qed.

Lemma api_fix_shape (compile : string -> compile_result)
    (code : string) (line_number : Z) :
  let result := ApiConsistency.fix_unterminated_string compile code line_number in
  Text.extends code result /\
  (String.length code <= String.length result <= String.length code + 3)%nat /\
  (result = code \/
   ApiConsistency.is_syntax_valid compile result = true \/
   exists (i : nat) (line : string) (k : quote_kind),
     line_number = Z.of_nat (S i) /\
     Py.split_nl code !! i = Some line /\
     ApiConsistency.unbalanced_kind line = Some k /\
     result = Py.join_nl (<[i := line +:+ quote_text k]> (Py.split_nl code))).
Proof.
  cbv zeta. unfold ApiConsistency.fix_unterminated_string.
  destruct (_ || _) eqn:Hb.
  { split; [apply extends_refl|]. split; [lia|by left]. }
  destruct (blamed_line code line_number Hb) as (l & Hl & ->).
  apply orb_false_iff in Hb as [H1 _]. apply Z.leb_gt in H1.
  unfold Py.set_item.
  destruct (ApiConsistency.unbalanced_kind l) as [k|] eqn:Hk.
  { split; [apply append_to_line_extends; [done|apply quote_text_one_line]|].
    split.
    - rewrite (join_length_insert _ _ _ _ Hl), join_split.
      pose proof (quote_text_length k). lia.
    - right. right. exists (Z.to_nat (line_number - 1)), l, k.
      split; [lia|done]. }
  unfold ApiConsistency.first_valid. cbn [map].
  remember (List.find (ApiConsistency.is_syntax_valid compile)
              [code +:+ Py.SQ; code +:+ Py.DQ]) as at_end eqn:Hend.
  destruct (List.find _ [Py.join_nl _; _]) as [test_code|] eqn:Hf.
  { apply List.find_some in Hf as [Hin Hv]. split; [|split; [|by right; left]].
    - destruct Hin as [<-|[<-|[]]]; by apply append_to_line_extends.
    - destruct Hin as [<-|[<-|[]]];
        rewrite (join_length_insert _ _ _ _ Hl), join_split; cbn; lia. }
  destruct at_end as [test_code|]; symmetry in Hend.
  { apply List.find_some in Hend as [Hin Hv]. split; [|split; [|by right; left]].
    - destruct Hin as [<-|[<-|[]]]; by apply append_to_text_extends.
    - destruct Hin as [<-|[<-|[]]]; rewrite length_append; cbn; lia. }
  rewrite join_split. split; [apply extends_refl|]. split; [lia|by left].
Qed.

(** [string_fixer.fix_unterminated_string] returns the text as it is, or
    the text with exactly one quote character, single or double, appended to
    the line it was pointed at: one character longer, nothing else changed. *)
Theorem string_fixer_appends_one_quote (content : string) (line_number : Z) :
  let result := StringFixer.fix_unterminated_string content line_number in
  result = content \/
  exists (i : nat) (line : string) (k : quote_kind),
    line_number = Z.of_nat (S i) /\
    Py.split_nl content !! i = Some line /\
    (k = Single \/ k = Double) /\
    StringFixer.unbalanced_kind line = Some k /\
    result = Py.join_nl (<[i := line +:+ quote_text k]> (Py.split_nl content)) /\
    String.length result = S (String.length content).
Proof. exact (string_fix_shape content line_number). Qed.

(** [api_consistency.fix_unterminated_string] never removes or moves text:
    the result has the lines of the input, each possibly longer at its end,
    and is at most three characters longer.  It is the input itself, the
    input with the selected quote appended to the blamed line, or a text
    that compiles. *)
Theorem api_fix_unterminated_string_extends (compile : string -> compile_result)
    (code : string) (line_number : Z) :
  let result := ApiConsistency.fix_unterminated_string compile code line_number in
  Text.extends code result /\
  (String.length code <= String.length result <= String.length code + 3)%nat /\
  (result = code \/
   ApiConsistency.is_syntax_valid compile result = true \/
   exists (i : nat) (line : string) (k : quote_kind),
     line_number = Z.of_nat (S i) /\
     Py.split_nl code !! i = Some line /\
     ApiConsistency.unbalanced_kind line = Some k /\
     result = Py.join_nl (<[i := line +:+ quote_text k]> (Py.split_nl code))).
Proof. exact (api_fix_shape compile code line_number). Qed.

Section LoopFacts.

Variable compile : string -> compile_result.

Lemma api_handle_issue st i :
  Text.extends (ApiConsistency.content st)
    (ApiConsistency.content (ApiConsistency.handle_issue compile st i)) /\
  length (ApiConsistency.fixes_applied (ApiConsistency.handle_issue compile st i))
  = S (length (ApiConsistency.fixes_applied st)).
Proof.
  unfold ApiConsistency.handle_issue.
  destruct (ApiConsistency.type i).
  - cbn. rewrite length_app. cbn. split; [apply extends_refl|lia].
  - case_bool_decide; cbn; rewrite length_app; cbn; (split; [|lia]).
    + apply api_fix_shape.
    + apply extends_refl.
Qed.

Lemma api_detect_at_most_one code issues :
  ApiConsistency.detect_issues compile code = Ret issues -> (length issues <= 1)%nat.
Proof.
  unfold ApiConsistency.detect_issues.
  destruct (compile code); intros [= <-]; cbn; lia.
Qed.

Lemma api_handle_issues issues st :
  let st' := fold_left (ApiConsistency.handle_issue compile) issues st in
  Text.extends (ApiConsistency.content st) (ApiConsistency.content st') /\
  length (ApiConsistency.fixes_applied st')
  = (length (ApiConsistency.fixes_applied st) + length issues)%nat.
Proof.
  cbv zeta. revert st. induction issues as [|i issues IH]; intros st; cbn [fold_left length].
  - split; [apply extends_refl|lia].
  - destruct (api_handle_issue st i) as [He Hl].
    destruct (IH (ApiConsistency.handle_issue compile st i)) as [He' Hl'].
    split; [by eapply extends_trans|lia].
Qed.

(** The loop of the orchestrator only appends, and records at most one
    message per turn. *)
Lemma api_loop n st st' :
  ApiConsistency.repair_loop compile n st = Ret st' ->
  Text.extends (ApiConsistency.content st) (ApiConsistency.content st') /\
  (length (ApiConsistency.fixes_applied st')
   <= length (ApiConsistency.fixes_applied st) + n)%nat.
Proof.
  revert st st'. induction n as [|n IH]; intros st st'; cbn [ApiConsistency.repair_loop].
  - intros [= <-]. split; [apply extends_refl|lia].
  - destruct (ApiConsistency.is_syntax_valid compile (ApiConsistency.content st)).
    { intros [= <-]. split; [apply extends_refl|lia]. }
    unfold mbind, exc_bind.
    destruct (ApiConsistency.detect_issues compile _) as [issues|] eqn:Hd; [|discriminate].
    apply api_detect_at_most_one in Hd.
    destruct issues as [|i issues].
    { intros [= <-]. split; [apply extends_refl|lia]. }
    destruct (api_handle_issues (i :: issues) st) as [He Hl].
    cbn [fold_left length] in *.
    destruct (ApiConsistency.is_syntax_valid compile _).
    { intros [= <-]. split; [done|]. lia. }
    intros Hrec. apply IH in Hrec as [He' Hl'].
    split; [by eapply extends_trans|]. lia.
Qed.

Lemma string_fix_extends content line_number :
  Text.extends content (StringFixer.fix_unterminated_string content line_number).
Proof.
  destruct (string_fix_shape content line_number)
    as [->|(i & l & k & _ & Hl & _ & _ & -> & _)]; [apply extends_refl|].
  apply append_to_line_extends; [done|apply quote_text_one_line].
Qed.

Lemma string_loop_body st step :
  StringFixer.loop_body compile st = Ret step ->
  let st' := match step with StringFixer.Continue x | StringFixer.Break x => x end in
  Text.extends (StringFixer.content st) (StringFixer.content st') /\
  (length (StringFixer.fixes_applied st')
   <= S (length (StringFixer.fixes_applied st)))%nat.
Proof.
  cbv zeta. unfold StringFixer.loop_body, StringFixer.aggressive, mbind, exc_bind, mret, exc_ret.
  destruct (StringFixer.is_syntax_valid compile (StringFixer.content st)) as [[|]|];
    [intros [= <-]; split; [apply extends_refl|lia]| |discriminate].
  destruct (StringFixer.detect_unterminated_string compile _) as [[[n msg]|]|];
    [|intros [= <-]; split; [apply extends_refl|lia]|discriminate].
  case_bool_decide.
  { intros [= <-]. cbn. rewrite length_app. cbn.
    split; [apply string_fix_extends|lia]. }
  destruct (n <=? _); [|intros [= <-]; split; [apply extends_refl|lia]].
  destruct (StringFixer.is_syntax_valid compile (_ +:+ Py.SQ)) as [[|]|]; [| |discriminate].
  { intros [= <-]. cbn. rewrite length_app. cbn.
    split; [by apply append_to_text_extends|lia]. }
  destruct (StringFixer.is_syntax_valid compile (_ +:+ Py.DQ)) as [[|]|]; [| |discriminate].
  { intros [= <-]. cbn. rewrite length_app. cbn.
    split; [by apply append_to_text_extends|lia]. }
  intros [= <-]. cbn. rewrite length_app. cbn. split; [apply extends_refl|lia].
Qed.

(** So does the loop of the string fixer. *)
Lemma string_loop n st st' :
  StringFixer.repair_loop compile n st = Ret st' ->
  Text.extends (StringFixer.content st) (StringFixer.content st') /\
  (length (StringFixer.fixes_applied st')
   <= length (StringFixer.fixes_applied st) + n)%nat.
Proof.
  revert st st'. induction n as [|n IH]; intros st st'; cbn [StringFixer.repair_loop].
  - intros [= <-]. split; [apply extends_refl|lia].
  - unfold mbind, exc_bind.
    destruct (StringFixer.loop_body compile st) as [step|] eqn:Hb; [|discriminate].
    apply string_loop_body in Hb. cbv zeta in Hb.
    destruct step as [st1|st1]; destruct Hb as [He Hl].
    + intros Hrec. apply IH in Hrec as [He' Hl'].
      split; [by eapply extends_trans|lia].
    + intros [= <-]. split; [done|lia].
Qed.

(** Whatever a repairer writes is the text its loop ended with, and what
    it lists as fixes is what the loop recorded. *)
Lemma repair_by_loop (who : Repair.repairer) (t : Fs.tree) (m : string) :
  ((Repair.repair who compile t m).2 = t \/
   exists c0 c, Fs.read t m = Ret c0 /\ Text.extends c0 c /\
                Fs.write t m c = Ret (Repair.repair who compile t m).2 /\
                Text.no_cr c = true) /\
  (length (default [] (Repair.repair who compile t m).1.(r_fixes))
   <= match who with
      | Repair.api_consistency => ApiConsistency.max_iterations
      | Repair.string_fixer => StringFixer.max_iterations
      end)%nat.
Proof.
  destruct who; cbn [Repair.repair].
  - unfold ApiConsistency.fix_module_syntax.
    destruct (Fs.exists_init t m); cbn [negb]; [|cbn; split; [by left|lia]].
    unfold mbind, exc_bind, mret, exc_ret.
    destruct (Fs.read t m) as [c0|] eqn:Hr; [|cbn; split; [by left|lia]].
    destruct (ApiConsistency.repair_loop compile _ _) as [st|] eqn:Hl;
      [|cbn; split; [by left|lia]].
    pose proof (api_loop_no_cr compile _ _ _ Hl (read_no_cr _ _ _ Hr)) as Hclean.
    apply api_loop in Hl as [He Hn]. cbn [ApiConsistency.content
      ApiConsistency.fixes_applied length] in He, Hn.
    destruct (ApiConsistency.is_syntax_valid compile _); [|cbn; split; [by left|lia]].
    case_bool_decide; [|cbn; split; [by left|lia]].
    destruct (Fs.write t m _) as [t'|] eqn:Hw; [|cbn; split; [by left|lia]].
    cbn. split; [right; eauto 6|lia].
  - unfold StringFixer.fix_module_string_literals.
    destruct (Fs.exists_init t m); cbn [negb]; [|cbn; split; [by left|lia]].
    unfold mbind, exc_bind, mret, exc_ret.
    destruct (Fs.read t m) as [c0|] eqn:Hr; [|cbn; split; [by left|lia]].
    destruct (StringFixer.repair_loop compile _ _) as [st|] eqn:Hl;
      [|cbn; split; [by left|lia]].
    pose proof (string_loop_no_cr compile _ _ _ Hl (read_no_cr _ _ _ Hr)) as Hclean.
    apply string_loop in Hl as [He Hn]. cbn [StringFixer.content
      StringFixer.fixes_applied length] in He, Hn.
    destruct (StringFixer.is_syntax_valid compile _) as [[|]|];
      [|cbn; split; [by left|lia]..].
    case_bool_decide; [|cbn; split; [by left|lia]].
    destruct (Fs.write t m _) as [t'|] eqn:Hw; [|cbn; split; [by left|lia]].
    cbn. split; [right; eauto 6|lia].
Qed.

End LoopFacts.

(** What a write leaves in the file of the module. *)
Lemma write_init_file (t t' : Fs.tree) (m c : string) (f : Fs.file) :
  Fs.write t m c = Ret t' -> Fs.init_file t m = Some f ->
  Fs.init_file t' m = Some {| Fs.content := c; Fs.read_error := Fs.read_error f;
                              Fs.write_error := None |}.
Proof.
  unfold Fs.write, Fs.init_file. intros Hw Hf.
  destruct (Fs.lookup t m) as [e|] eqn:El; [|discriminate].
  destruct (Fs.is_dir e) eqn:Ed; [|discriminate].
  rewrite Hf in Hw. destruct (Fs.write_error f); [discriminate|].
  injection Hw as <-. rewrite (lookup_set_init_eq _ _ _ _ El). cbn. by rewrite Ed.
Qed.

(** What a run of a repairer does to the file of a readable module: it
    leaves the tree as it was, or it replaces the file by the text it read,
    which is the text of the file with every line end turned into a newline,
    with characters appended at line ends only.  The new file has as many
    lines as the text read, every line read is the start of the line now in
    its place, and the new file reads back as it was written. *)
Theorem repair_only_appends (who : Repair.repairer)
    (compile : string -> compile_result) (t : Fs.tree) (m : string) (f : Fs.file) :
  Fs.init_file t m = Some f ->
  Fs.read_error f = None ->
  let t' := (Repair.repair who compile t m).2 in
  t' = t \/
  exists f',
    Fs.init_file t' m = Some f' /\
    Text.extends (Py.universal_newlines (Fs.content f)) (Fs.content f') /\
    Fs.read t' m = Ret (Fs.content f').
Proof.
  intros Hf Hrd. cbv zeta.
  destruct (repair_by_loop compile who t m) as [[Ht|(c0 & c & Hr & He & Hw & Hc)] _];
    [by left|right].
  rewrite (read_of_file _ _ _ Hf Hrd) in Hr. injection Hr as <-.
  eexists. split; [by apply (write_init_file _ _ _ _ _ Hw Hf)|].
  cbn [Fs.content]. split; [done|].
  apply (write_read_clean _ _ _ _ _ Hw (read_of_file _ _ _ Hf Hrd)).
  by apply universal_newlines_clean.
Qed.

Lemma repair_only_appends_witness :
  let t := [Sample.module_dir "settings" Trees.luxury_crlf] in
  let t' := (Repair.repair Repair.string_fixer Sample.mini_compile t "settings").2 in
  t' = t \/
  exists f',
    Fs.init_file t' "settings" = Some f' /\
    Text.extends (Py.universal_newlines Trees.luxury_crlf) (Fs.content f') /\
    Fs.read t' "settings" = Ret (Fs.content f').
Proof.
  apply (repair_only_appends Repair.string_fixer Sample.mini_compile
           [Sample.module_dir "settings" Trees.luxury_crlf] "settings"
           {| Fs.content := Trees.luxury_crlf; Fs.read_error := None;
              Fs.write_error := None |}); reflexivity.
Defined.

(** The list of fixes in a report is bounded by the iteration budget: at
    most ten messages from the orchestrator, at most five from the string
    fixer. *)
Theorem fixes_within_budget (who : Repair.repairer)
    (compile : string -> compile_result) (t : Fs.tree) (m : string) :
  (length (default [] (Repair.repair who compile t m).1.(r_fixes))
   <= match who with
      | Repair.api_consistency => 10
      | Repair.string_fixer => 5
      end)%nat.
Proof. destruct (repair_by_loop compile who t m) as [_ H]. by destruct who. Qed.

(** ** The single-pass fixer of [fix_module] *)

Section SinglePassFacts.

Variable compile : string -> compile_result.

(** The repaired lines hold no carriage return when the lines read hold
    none. *)
Lemma fm_repair_no_cr (lines : list string) (error_line : Z) :
  Forall (fun l => Text.no_cr l = true) lines ->
  Forall (fun l => Text.no_cr l = true) (FixModule.repair_lines lines error_line).1.
Proof.
  intros Hls. unfold FixModule.repair_lines.
  pose proof (no_cr_lookup lines (Z.to_nat (error_line - 1)) Hls) as Hl.
  assert (forall x, Text.no_cr x = true ->
            Forall (fun l => Text.no_cr l = true)
              (Py.set_item lines (Z.to_nat (error_line - 1))
                 (default EmptyString (lines !! Z.to_nat (error_line - 1)) +:+ x))) as Hset.
  { intros x Hx. apply no_cr_set_item; [done|]. by rewrite no_cr_append, Hl, Hx. }
  assert (forall x, Text.no_cr x = true ->
            Forall (fun l => Text.no_cr l = true)
              (Py.set_item (FixModule.insert_at lines (Z.to_nat error_line) x)
                 (Z.to_nat (error_line - 1))
                 (default EmptyString (lines !! Z.to_nat (error_line - 1))))) as Hins.
  { intros x Hx. apply no_cr_set_item; [|done]. unfold FixModule.insert_at.
    apply Forall_app. split; [by apply Forall_take|].
    constructor; [done|by apply Forall_drop]. }
  destruct (FixModule.unbalanced_kind _) as [[| | |]|]; cbn [fst].
  - by apply Hset.
  - by apply Hset.
  - destruct (_ || _); cbn [fst]; [|by apply Hins].
    apply Hset. by destruct (Py.endswith Py.SQ _).
  - destruct (_ || _); cbn [fst]; [|by apply Hins].
    apply Hset. by destruct (Py.endswith Py.DQ _).
  - destruct (_ >? _); cbn [fst]; by apply Hset.
Qed.

(** How a call of [fix_string_literals] ends. *)
Lemma fix_string_literals_cases (t : Fs.tree) (m : string) :
  let out := FixModule.fix_string_literals compile t m in
  (FixModule.get_status out.1 = Some fixed /\
   exists c0 c, Fs.read t m = Ret c0 /\ compile c0 <> Compiled /\
                compile c = Compiled /\ Fs.write t m c = Ret out.2 /\
                Py.universal_newlines c = c) \/
  (FixModule.get_status out.1 = Some ok /\ out.2 = t /\
   exists c0, Fs.read t m = Ret c0 /\ compile c0 = Compiled) \/
  ((FixModule.get_status out.1 = None \/ FixModule.get_status out.1 = Some error \/
    FixModule.get_status out.1 = Some unfixable) /\ out.2 = t /\
   forall c0, Fs.read t m = Ret c0 -> compile c0 <> Compiled).
Proof.
  cbv zeta. unfold FixModule.fix_string_literals.
  destruct (Fs.exists_init t m) eqn:Hx; cbn [negb].
  2: { right; right. cbn. split; [auto|]. split; [done|].
       intros c0 Hr. unfold Fs.read, Fs.exists_init in *.
       by destruct (Fs.init_file t m). }
  unfold mbind, exc_bind, mret, exc_ret.
  destruct (Fs.read t m) as [c0|msg] eqn:Hr0; [|right; right; cbn; auto].
  destruct (compile c0) as [|lineno text|text] eqn:Hc.
  { right; left. cbn. eauto. }
  2: { right; right. cbn. split; [auto|]. split; [done|]. by intros ? [= <-]; rewrite Hc. }
  assert (forall c1, Ret c0 = Ret c1 -> compile c1 <> Compiled) as Hbad
    by (by intros ? [= <-]; rewrite Hc).
  destruct (Py.contains _ text); cbn [negb]; [|right; right; cbn; auto].
  destruct lineno as [error_line|]; [|right; right; cbn; auto].
  destruct (_ || _); [right; right; cbn; auto|].
  pose proof (fm_repair_no_cr (Py.split_nl c0) error_line
                (no_cr_split _ (read_no_cr _ _ _ Hr0))) as Hclean.
  destruct (FixModule.repair_lines _ error_line) as [lines' fixes]. cbn [fst] in Hclean.
  destruct (compile (Py.join_nl lines')) eqn:Hc'; [|right; right; cbn; auto..].
  destruct (Fs.write t m (Py.join_nl lines')) as [t'|msg] eqn:Hw;
    [|right; right; cbn; auto].
  left. cbn. split; [done|]. exists c0, (Py.join_nl lines').
  split; [done|]. split; [by rewrite Hc|]. split; [done|]. split; [done|].
  by apply universal_newlines_clean, no_cr_join.
Qed.

End SinglePassFacts.

(** [fix_string_literals] writes only when it reports [fixed], and what it
    has written compiles: a text the parser still rejects never reaches the
    file. *)
Theorem fix_string_literals_safe (compile : string -> compile_result)
    (t : Fs.tree) (m : string) :
  let out := FixModule.fix_string_literals compile t m in
  (FixModule.get_status out.1 = Some fixed ->
   exists c, Fs.read out.2 m = Ret c /\ Repair.is_valid compile c = true) /\
  (FixModule.get_status out.1 <> Some fixed -> out.2 = t).
Proof.
  cbv zeta.
  destruct (fix_string_literals_cases compile t m)
    as [(Hs & c0 & c & Hr & _ & Hc & Hw & Hcl)|[(Hs & Ht & _)|(Hs & Ht & _)]];
    cbv zeta in *.
  - split; [|done]. intros _. exists c. split; [by eapply write_read_clean|].
    unfold Repair.is_valid. by rewrite Hc.
  - split; [congruence|done].
  - split; [|done]. destruct Hs as [Hs|[Hs|Hs]]; congruence.
Qed.

(** Running [fix_string_literals] again changes nothing more, and a module
    it reported [fixed] is reported [ok] the second time. *)
Theorem fix_string_literals_twice (compile : string -> compile_result)
    (t : Fs.tree) (m : string) :
  let first := FixModule.fix_string_literals compile t m in
  let second := FixModule.fix_string_literals compile first.2 m in
  second.2 = first.2 /\
  (FixModule.get_status first.1 = Some fixed -> FixModule.get_status second.1 = Some ok) /\
  (FixModule.get_status first.1 <> Some fixed -> second.1 = first.1).
Proof.
  cbv zeta.
  destruct (fix_string_literals_cases compile t m)
    as [(Hs & c0 & c & Hr & _ & Hc & Hw & Hcl)|[(Hs & Ht & _)|(Hs & Ht & _)]];
    cbv zeta in *.
  - pose proof (write_read_clean _ _ _ _ _ Hw Hr Hcl) as Hr'.
    destruct (fix_string_literals_cases compile
                (FixModule.fix_string_literals compile t m).2 m)
      as [(Hs2 & c1 & c2 & Hr2 & Hbad & _)|[(Hs2 & Ht2 & _)|(Hs2 & Ht2 & Hbad)]];
      cbv zeta in *.
    + exfalso. rewrite Hr' in Hr2. by injection Hr2 as <-.
    + split; [done|]. split; [done|congruence].
    + exfalso. by apply (Hbad c).
  - rewrite Ht. split; [done|]. split; [congruence|done].
  - rewrite Ht. split; [done|]. split; [|done]. destruct Hs as [Hs|[Hs|Hs]]; congruence.
Qed.

Section SinglePassBatch.

Variable compile : string -> compile_result.

Lemma fm_visit_status acc m :
  Forall batch_status acc.1 -> Forall batch_status (FixModule.visit compile acc m).1.
Proof.
  destruct acc as [results t]. cbn [fst]. intros Hacc. unfold FixModule.visit.
  assert (forall msg, Forall batch_status
            (results ++ [FixModule.Report {| r_module := m; r_status := error;
                                             r_message := msg; r_fixes := None |}]))
    as Hfail.
  { intros msg. apply Forall_app. split; [done|]. constructor; [|constructor].
    unfold batch_status. cbn. auto. }
  destruct (Fs.read t m) as [c0|msg] eqn:Hr; [|apply Hfail].
  destruct (compile c0) as [|lineno text|text] eqn:Hc; [done| |apply Hfail].
  destruct (Py.contains _ text); cbn [negb]; [|done].
  pose proof (fix_string_literals_cases compile t m) as H. cbv zeta in H.
  destruct (FixModule.fix_string_literals compile t m) as [r t']. cbn [fst snd] in *.
  apply Forall_app. split; [done|]. constructor; [|constructor].
  unfold batch_status.
  destruct H as [(Hs & _)|[(_ & _ & c1 & Hr1 & Hc1)|(Hs & _)]].
  - auto.
  - rewrite Hr in Hr1. injection Hr1 as <-. congruence.
  - destruct Hs as [?|[?|?]]; auto.
Qed.

Lemma fm_fold_status ms acc :
  Forall batch_status acc.1 ->
  Forall batch_status (fold_left (FixModule.visit compile) ms acc).1.
Proof.
  revert acc. induction ms as [|m ms IH]; intros acc Hacc; cbn [fold_left]; [done|].
  by apply IH, fm_visit_status.
Qed.

Lemma fm_counts rs :
  Forall batch_status rs ->
  Z.of_nat (length rs) =
  FixModule.count_status fixed rs + FixModule.count_status unfixable rs +
  FixModule.count_status error rs +
  Z.of_nat (length (List.filter
                      (fun r => bool_decide (FixModule.get_status r = None)) rs)).
Proof.
  unfold FixModule.count_status.
  induction 1 as [|r rs Hr _ IH]; [done|]. cbn [List.filter length].
  destruct Hr as [Hr|[Hr|[Hr|Hr]]]; rewrite Hr;
    repeat (case_bool_decide; try congruence); cbn [length]; lia.
Qed.

End SinglePassBatch.

(** In the report of [fix_module.fix_all_modules] no entry has status [ok]:
    every entry is [fixed], [unfixable], [error] or a bare error dict; the
    three counters therefore miss exactly the entries without a status. *)
Theorem fix_module_batch_counts (compile : string -> compile_result) (t : Fs.tree) :
  let rep := (FixModule.fix_all_modules compile t).1 in
  Forall (fun r => FixModule.get_status r = None \/
                   FixModule.get_status r = Some fixed \/
                   FixModule.get_status r = Some unfixable \/
                   FixModule.get_status r = Some error) (FixModule.b_results rep) /\
  FixModule.total_processed rep =
    FixModule.n_fixed rep + FixModule.n_unfixable rep + FixModule.n_errors rep +
    Z.of_nat (length (List.filter
                        (fun r => bool_decide (FixModule.get_status r = None))
                        (FixModule.b_results rep))).
Proof.
  cbv zeta. unfold FixModule.fix_all_modules.
  pose proof (fm_fold_status compile (Fs.modules t) ([], t)) as H.
  destruct (fold_left _ _ _) as [results t']. cbn [fst snd] in *.
  cbn [FixModule.b_results FixModule.total_processed FixModule.n_fixed
       FixModule.n_unfixable FixModule.n_errors].
  specialize (H (Forall_nil_2 _)). split; [exact H|]. by apply fm_counts.
Qed.

(** ** Generated operation ids *)

Lemma free_counter_least (used : gset string) (base : string) (fuel counter : nat) :
  let k := OperationIdFixer.free_counter used base fuel counter in
  (counter <= k)%nat /\
  forall j : nat, (counter <= j < k)%nat -> OperationIdFixer.suffixed base j ∈ used.
Proof.
  cbv zeta. revert counter.
  induction fuel as [|fuel IH]; intros counter; cbn [OperationIdFixer.free_counter].
  - split; [lia|]. intros j Hj. lia.
  - case_bool_decide as Hin.
    + destruct (IH (S counter)) as [Hle Hlt]. split; [lia|].
      intros j Hj. destruct (decide (j = counter)) as [->|]; [done|].
      apply Hlt. lia.
    + split; [lia|]. intros j Hj. lia.
Qed.

(** [generate_unique_operation_id] returns an id that is not in use: the
    id [module_function] itself when that is free, and otherwise
    [module_function_k] for the least [k >= 1] whose id is free. *)
Theorem generate_unique_operation_id_least (module_name function_name : string)
    (used : gset string) :
  let id := OperationIdFixer.generate_unique_operation_id module_name function_name used in
  let base := OperationIdFixer.base_id module_name function_name in
  (id ∉ used) /\
  (base ∉ used -> id = base) /\
  (base ∈ used ->
   exists k : nat, (1 <= k)%nat /\ id = OperationIdFixer.suffixed base k /\
     forall j : nat, (1 <= j < k)%nat -> OperationIdFixer.suffixed base j ∈ used).
Proof.
  cbv zeta. split; [apply generate_unique_operation_id_fresh|].
  unfold OperationIdFixer.generate_unique_operation_id.
  case_bool_decide as Hb.
  - split; [done|]. intros Hin. exfalso. by apply Hb.
  - split; [intros Hn; exfalso; by apply Hn|]. intros _.
    destruct (free_counter_least used
                (OperationIdFixer.base_id module_name function_name) (size used) 1)
      as [Hle Hlt].
    eexists. split; [exact Hle|]. split; [done|exact Hlt].
Qed.

(** ** Router definitions, again *)

Section ContainsFacts.

Implicit Types (sub a b : string).

Lemma prefix_append sub a b :
  String.prefix sub a = true -> String.prefix sub (a +:+ b) = true.
Proof.
  revert a. induction sub as [|x sub IH]; intros a; [by destruct (a +:+ b)|].
  destruct a as [|y a]; [done|].
  change (String y a +:+ b) with (String y (a +:+ b)). cbn.
  destruct (ascii_dec x y); [apply IH|done].
Qed.

Lemma contains_append_l sub a b :
  Py.contains sub a = true -> Py.contains sub (a +:+ b) = true.
Proof.
  induction a as [|y a IH].
  - cbn. rewrite orb_false_r. unfold Py.startswith. intros H.
    destruct sub; [|done]. by destruct (EmptyString +:+ b).
  - change (String y a +:+ b) with (String y (a +:+ b)). cbn [Py.contains].
    intros [H|H]%orb_true_iff; apply orb_true_iff.
    + left. unfold Py.startswith in *.
      by apply (prefix_append sub (String y a) b).
    + right. by apply IH.
Qed.

Lemma contains_append_r sub a b :
  Py.contains sub b = true -> Py.contains sub (a +:+ b) = true.
Proof.
  intros H. induction a as [|y a IH]; [done|].
  change (String y a +:+ b) with (String y (a +:+ b)). cbn [Py.contains].
  rewrite IH. apply orb_true_r.
Qed.

Lemma take_drop (n : nat) a : Py.take n a +:+ Py.drop n a = a.
Proof.
  revert n. induction a as [|y a IH]; intros [|n]; try done.
  cbn [Py.take Py.drop]. change (String y (Py.take n a +:+ Py.drop n a) = String y a).
  by rewrite IH.
Qed.

End ContainsFacts.

(** [fix_router_definition] only inserts: it returns the source as it is,
    or the source with the import and the router construction inserted at
    one place (so nothing of the source is lost).  Applying it again
    changes nothing. *)
Theorem fix_router_definition_idempotent (content : string) :
  let fixed_content := ApiFixer.fix_router_definition content in
  (fixed_content = content \/
   exists pos : nat,
     Py.contains "@router." content = true /\
     Py.contains "router =" content = false /\
     fixed_content = Py.take pos content +:+ router_def_text +:+ Py.drop pos content) /\
  ApiFixer.fix_router_definition fixed_content = fixed_content.
Proof.
  cbv zeta.
  assert (ApiFixer.fix_router_definition content = content \/
          exists pos : nat,
            Py.contains "@router." content = true /\
            Py.contains "router =" content = false /\
            ApiFixer.fix_router_definition content
            = Py.take pos content +:+ router_def_text +:+ Py.drop pos content) as Hshape.
  { unfold ApiFixer.fix_router_definition.
    destruct (Py.contains "router =" content) eqn:Hr; cbn [negb andb]; [by left|].
    destruct (Py.contains "@router." content) eqn:Hd; [|by left].
    destruct (ApiFixer.last_import_end content) as [pos|]; [|by left].
    right. by exists pos. }
  split; [exact Hshape|].
  destruct Hshape as [E|(pos & _ & _ & E)]; rewrite E; [exact E|].
  unfold ApiFixer.fix_router_definition.
  assert (Py.contains "router =" (Py.take pos content +:+ router_def_text +:+
                                  Py.drop pos content) = true) as ->; [|done].
  apply contains_append_r, contains_append_l. reflexivity.
Qed.

(** ** Batches and single runs *)

Section IndependenceFacts.

Variable compile : string -> compile_result.

Lemma write_ext (t1 t2 : Fs.tree) (m c : string) :
  Fs.lookup t1 m = Fs.lookup t2 m ->
  match Fs.write t1 m c, Fs.write t2 m c with
  | Ret _, Ret _ => True
  | Raise msg1, Raise msg2 => msg1 = msg2
  | _, _ => False
  end.
Proof.
  unfold Fs.write. intros ->.
  destruct (Fs.lookup t2 m) as [e|]; [|done].
  destruct (Fs.is_dir e); [|done].
  destruct (Fs.init_py e) as [f|]; [|done].
  by destruct (Fs.write_error f).
Qed.

(** The report of a run depends on the entry of its module only. *)
Lemma repair_report_ext (who : Repair.repairer) (t1 t2 : Fs.tree) (m : string) :
  Fs.lookup t1 m = Fs.lookup t2 m ->
  (Repair.repair who compile t1 m).1 = (Repair.repair who compile t2 m).1.
Proof.
  intros Hl. destruct who; cbn [Repair.repair].
  - unfold ApiConsistency.fix_module_syntax.
    rewrite (exists_ext _ _ _ Hl), (read_ext _ _ _ Hl).
    destruct (Fs.exists_init t2 m); cbn [negb]; [|done].
    unfold mbind, exc_bind, mret, exc_ret.
    destruct (Fs.read t2 m) as [c0|]; [|done].
    destruct (ApiConsistency.repair_loop compile _ _) as [st|]; [|done].
    destruct (ApiConsistency.is_syntax_valid compile _); [|done].
    case_bool_decide; [|done].
    pose proof (write_ext t1 t2 m (ApiConsistency.content st) Hl) as Hw.
    destruct (Fs.write t1 m _), (Fs.write t2 m _); try done. by subst.
  - unfold StringFixer.fix_module_string_literals.
    rewrite (exists_ext _ _ _ Hl), (read_ext _ _ _ Hl).
    destruct (Fs.exists_init t2 m); cbn [negb]; [|done].
    unfold mbind, exc_bind, mret, exc_ret.
    destruct (Fs.read t2 m) as [c0|]; [|done].
    destruct (StringFixer.repair_loop compile _ _) as [st|]; [|done].
    destruct (StringFixer.is_syntax_valid compile _) as [[|]|]; [|done..].
    case_bool_decide; [|done].
    pose proof (write_ext t1 t2 m (StringFixer.content st) Hl) as Hw.
    destruct (Fs.write t1 m _), (Fs.write t2 m _); try done. by subst.
Qed.

Lemma batch_contains_single (who : Repair.repairer) (ms : list string)
    (t t' : Fs.tree) (m : string) :
  m ∈ ms -> Repair.skips who m = false ->
  Fs.lookup t' m = Fs.lookup t m ->
  (Repair.repair who compile t m).1
  ∈ (Repair.batch (Repair.skips who) (Repair.repair who compile) ms t').1.
Proof.
  intros Hin Hskip. revert t'.
  induction ms as [|m0 ms IH]; intros t' Hl; [by apply not_elem_of_nil in Hin|].
  cbn [Repair.batch]. destruct (decide (m0 = m)) as [->|Hne].
  - rewrite Hskip. rewrite <- (repair_report_ext who t' t m Hl).
    destruct (Repair.repair who compile t' m) as [r t1].
    destruct (Repair.batch _ _ ms t1) as [rs t2]. cbn. apply list_elem_of_here.
  - apply elem_of_cons in Hin as [->|Hin]; [done|].
    destruct (Repair.skips who m0); [by apply IH|].
    pose proof (repair_lookup_ne compile who t' m0 m Hne) as Hl'.
    destruct (Repair.repair who compile t' m0) as [r t1]. cbn [snd] in Hl'.
    assert (Fs.lookup t1 m = Fs.lookup t m) as Hl1 by congruence.
    specialize (IH Hin t1 Hl1).
    destruct (Repair.batch _ _ ms t1) as [rs t2]. cbn [fst] in *.
    by apply list_elem_of_further.
Qed.

End IndependenceFacts.

(** Modules are repaired independently of each other: for every listed
    module that is not skipped, the batch reports exactly what a single run
    on that module of the initial tree reports, whatever happened to the
    modules before it. *)
Theorem batch_reports_single_run (who : Repair.repairer)
    (compile : string -> compile_result) (t : Fs.tree) (m : string) :
  m ∈ Fs.modules t ->
  Repair.skips who m = false ->
  (Repair.repair who compile t m).1 ∈ results (Repair.fix_all who compile t).1.
Proof.
  intros Hin Hskip. rewrite fix_all_batch.
  pose proof (batch_contains_single compile who (Fs.modules t) t t m Hin Hskip eq_refl) as H.
  destruct (Repair.batch _ _ _ _) as [rs t']. exact H.
Qed.

Lemma batch_reports_single_run_witness :
  (Repair.repair Repair.api_consistency Sample.mini_compile
     Trees.five_with_fixer "utils").1
  ∈ results (Repair.fix_all Repair.api_consistency Sample.mini_compile
               Trees.five_with_fixer).1.
Proof.
  apply (batch_reports_single_run Repair.api_consistency Sample.mini_compile
           Trees.five_with_fixer "utils").
  - vm_compute. do 4 apply list_elem_of_further. apply list_elem_of_here.
  - reflexivity.
Defined.

(** The batch of the orchestrator leaves every module of its skip list as
    it was: besides its own module, the string fixers and the API fixer. *)
Theorem fix_all_spares_skip_list (compile : string -> compile_result) (t : Fs.tree)
    (name : string) :
  name ∈ ApiConsistency.skip_list ->
  Fs.lookup (ApiConsistency.fix_all_modules_syntax compile t).2 name = Fs.lookup t name.
Proof.
  intros Hin.
  pose proof (fix_all_batch compile Repair.api_consistency t) as E.
  cbn [Repair.fix_all] in E. rewrite E.
  pose proof (batch_lookup_skipped compile Repair.api_consistency (Fs.modules t) t name) as H.
  destruct (Repair.batch _ _ _ _) as [rs t']. cbn [snd] in *. apply H.
  cbn [Repair.skips]. unfold ApiConsistency.skipped_module. by apply bool_decide_eq_true_2.
Qed.

Lemma fix_all_spares_skip_list_witness :
  Fs.lookup (ApiConsistency.fix_all_modules_syntax Sample.mini_compile
               Trees.five_with_fixer).2 "api_fixer"
  = Fs.lookup Trees.five_with_fixer "api_fixer".
Proof.
  apply (fix_all_spares_skip_list Sample.mini_compile Trees.five_with_fixer "api_fixer").
  unfold ApiConsistency.skip_list. do 3 apply list_elem_of_further. apply list_elem_of_here.
Defined.

(** ** The health check *)

Section CheckerList.

Variable import_module : Fs.tree -> string -> exc bool.

Lemma checker_fold_list (t : Fs.tree) (ms : list string) (c : ModuleChecker.tally) :
  let c' := fold_left (ModuleChecker.visit import_module t) ms c in
  let new := ModuleChecker.check_module import_module t <$> List.filter checked ms in
  ModuleChecker.t_results c' = ModuleChecker.t_results c ++ new /\
  ModuleChecker.t_valid c' = ModuleChecker.t_valid c + count_valid new /\
  ModuleChecker.t_invalid c' =
    ModuleChecker.t_invalid c + (Z.of_nat (length new) - count_valid new).
Proof.
  cbv zeta. revert c. induction ms as [|m ms IH]; intros c; cbn [fold_left List.filter].
  - cbn [fmap list_fmap]. rewrite app_nil_r. unfold count_valid. cbn [List.filter length].
    split; [done|]. lia.
  - destruct (IH (ModuleChecker.visit import_module t c m)) as (IH1 & IH2 & IH3).
    rewrite IH1, IH2, IH3. clear IH IH1 IH2 IH3.
    unfold ModuleChecker.visit, checked.
    destruct (String.eqb m "module_checker"); cbn [negb]; [done|].
    cbn [fmap list_fmap length]. unfold count_valid. cbn [List.filter].
    destruct (ModuleChecker.m_status (ModuleChecker.check_module import_module t m)) eqn:Es;
      cbn [ModuleChecker.t_results ModuleChecker.t_valid ModuleChecker.t_invalid];
      rewrite <- app_assoc; (split; [done|]);
      repeat case_bool_decide; try congruence; cbn [length]; lia.
Qed.

End CheckerList.

(** The health check reports, in listing order, the check of every module
    except [module_checker] itself, and its two counters agree with that
    list: [valid] counts the entries with status [valid], [invalid] all
    others. *)
Theorem check_all_modules_list (import_module : Fs.tree -> string -> exc bool)
    (t : Fs.tree) :
  let chk := ModuleChecker.check_all_modules import_module t in
  ModuleChecker.modules chk
    = ModuleChecker.check_module import_module t <$>
        List.filter (fun m => negb (String.eqb m "module_checker")) (Fs.modules t) /\
  ModuleChecker.n_valid chk
    = Z.of_nat (length (List.filter
        (fun r => bool_decide (ModuleChecker.m_status r = valid))
        (ModuleChecker.modules chk))) /\
  ModuleChecker.n_valid chk + ModuleChecker.n_invalid chk
    = Z.of_nat (length (ModuleChecker.modules chk)).
Proof.
  cbv zeta. unfold ModuleChecker.check_all_modules.
  cbn [ModuleChecker.modules ModuleChecker.n_valid ModuleChecker.n_invalid].
  destruct (checker_fold_list import_module t (Fs.modules t)
              {| ModuleChecker.t_results := []; ModuleChecker.t_valid := 0;
                 ModuleChecker.t_invalid := 0 |}) as (H1 & H2 & H3).
  cbn [ModuleChecker.t_results ModuleChecker.t_valid ModuleChecker.t_invalid app] in *.
  rewrite H1, H2, H3. unfold count_valid, checked. split; [done|]. split; lia.
Qed.

(** ** The string fixer of [fix_api_file] *)

Lemma set_item_extends_lines (ls : list string) (i : nat) (q : string) :
  let l := default EmptyString (ls !! i) in
  Forall2 (fun a b => Py.startswith a b = true) ls (Py.set_item ls i (l +:+ q)).
Proof.
  cbv zeta. unfold Py.set_item. destruct (ls !! i) as [l|] eqn:E.
  - by apply insert_extends_lines.
  - apply lookup_ge_None in E. rewrite list_insert_ge by done.
    clear. induction ls; constructor; [apply startswith_refl|done].
Qed.

Lemma set_item_one_line (ls : list string) (i : nat) (x : string) :
  Forall (fun l => Text.one_line l = true) ls -> Text.one_line x = true ->
  Forall (fun l => Text.one_line l = true) (Py.set_item ls i x).
Proof. intros. unfold Py.set_item. by apply Forall_insert. Qed.

Lemma default_one_line (ls : list string) (i : nat) :
  Forall (fun l => Text.one_line l = true) ls ->
  Text.one_line (default EmptyString (ls !! i)) = true.
Proof.
  intros Hall. destruct (ls !! i) as [l|] eqn:E; [|done].
  rewrite Forall_lookup in Hall. by apply (Hall i).
Qed.

Lemma forall2_startswith_trans (l1 l2 l3 : list string) :
  Forall2 (fun a b => Py.startswith a b = true) l1 l2 ->
  Forall2 (fun a b => Py.startswith a b = true) l2 l3 ->
  Forall2 (fun a b => Py.startswith a b = true) l1 l3.
Proof.
  intros H12. revert l3. induction H12 as [|a b l1 l2 Hab _ IH]; intros l3 H23.
  - inversion H23. constructor.
  - inversion H23 as [|? c ? l3' Hbc H23']; subst. constructor; [|by apply IH].
    by eapply startswith_trans.
Qed.

Lemma close_last_line_facts (ls : list string) :
  Forall (fun l => Text.one_line l = true) ls ->
  Forall2 (fun a b => Py.startswith a b = true) ls (ApiFixerStrings.close_last_line ls) /\
  Forall (fun l => Text.one_line l = true) (ApiFixerStrings.close_last_line ls) /\
  length (ApiFixerStrings.close_last_line ls) = length ls.
Proof.
  intros Hall. unfold ApiFixerStrings.close_last_line.
  assert (Forall2 (fun a b => Py.startswith a b = true) ls ls) as Hrefl
    by (clear; induction ls; constructor; [apply startswith_refl|done]).
  pose proof (default_one_line ls (length ls - 1) Hall) as Hlast.
  destruct (_ && _).
  { split; [apply set_item_extends_lines|].
    split; [|by unfold Py.set_item; rewrite length_insert].
    apply set_item_one_line; [done|]. by rewrite one_line_append, Hlast. }
  destruct (_ && _); [|done].
  split; [apply set_item_extends_lines|].
  split; [|by unfold Py.set_item; rewrite length_insert].
  apply set_item_one_line; [done|]. by rewrite one_line_append, Hlast.
Qed.

(** When [fix_unterminated_strings] says it changed the text, the text it
    returns compiles and only has quotes appended at line ends; when it says
    it did not, it returns the text it was given. *)
Theorem fix_unterminated_strings_flag (compile : string -> compile_result)
    (content out : string) (changed : bool) :
  ApiFixerStrings.fix_unterminated_strings compile content = Ret (out, changed) ->
  (changed = true ->
   compile out = Compiled /\ compile content <> Compiled /\ Text.extends content out) /\
  (changed = false -> out = content).
Proof.
  unfold ApiFixerStrings.fix_unterminated_strings.
  destruct (compile content) as [|lineno msg|] eqn:Hc; [by intros [= <- <-]| |done].
  assert (SyntaxError lineno msg <> Compiled) as Hbad by done.
  destruct (Py.contains _ msg); cbn [negb]; [|by intros [= <- <-]].
  destruct (line_match msg) as [n|]; [|by intros [= <- <-]].
  destruct (_ || _) eqn:Hb; [by intros [= <- <-]|].
  pose proof (split_lines_one_line content) as Hall.
  pose proof (split_nl_nonempty content) as Hne.
  set (lines := Py.split_nl content) in *.
  set (i := Z.to_nat (n - 1)).
  assert (exists q, Text.one_line q = true /\
            match ApiConsistency.unbalanced_kind (default EmptyString (lines !! i)) with
            | Some k => default EmptyString (lines !! i) +:+ quote_text k
            | None => default EmptyString (lines !! i)
            end = default EmptyString (lines !! i) +:+ q) as (q & Hq & ->).
  { destruct (ApiConsistency.unbalanced_kind _) as [k|].
    - exists (quote_text k). split; [apply quote_text_one_line|done].
    - exists EmptyString. split; [done|]. by rewrite append_nil_r. }
  set (lines1 := Py.set_item lines i (default EmptyString (lines !! i) +:+ q)).
  assert (Forall2 (fun a b => Py.startswith a b = true) lines lines1) as H1
    by apply set_item_extends_lines.
  assert (Forall (fun l => Text.one_line l = true) lines1) as Hall1.
  { apply set_item_one_line; [done|].
    by rewrite one_line_append, Hq, (default_one_line lines i Hall). }
  assert (lines1 <> []) as Hne1.
  { intros E. apply (f_equal length) in E. unfold lines1, Py.set_item in E.
    rewrite length_insert in E. by destruct lines. }
  destruct (compile (Py.join_nl lines1)) eqn:Hc1; [|  |done].
  { intros [= <- <-]. split; [|done]. intros _. split; [done|]. split; [done|].
    unfold Text.extends. by rewrite split_join. }
  destruct (close_last_line_facts lines1 Hall1) as (H2 & Hall2 & Hlen2).
  destruct (compile (Py.join_nl (ApiFixerStrings.close_last_line lines1))) eqn:Hc2;
    [|by intros [= <- <-]|done].
  intros [= <- <-]. split; [|done]. intros _. split; [done|]. split; [done|].
  unfold Text.extends. rewrite split_join; [by eapply forall2_startswith_trans| |done].
  intros E. apply (f_equal length) in E. rewrite Hlen2 in E. by destruct lines1.
Qed.

Lemma fix_unterminated_strings_flag_witness :
  ApiFixerStrings.fix_unterminated_strings Sample.mini_compile Sample.luxury
  = Ret (Sample.luxury_fixed, true) /\
  Sample.mini_compile Sample.luxury_fixed = Compiled /\
  Sample.mini_compile Sample.luxury <> Compiled /\
  Text.extends Sample.luxury Sample.luxury_fixed.
Proof.
  assert (ApiFixerStrings.fix_unterminated_strings Sample.mini_compile Sample.luxury
          = Ret (Sample.luxury_fixed, true)) as Hrun by (vm_compute; reflexivity).
  split; [exact Hrun|].
  destruct (fix_unterminated_strings_flag Sample.mini_compile Sample.luxury
              Sample.luxury_fixed true Hrun) as [Hchanged _].
  exact (Hchanged eq_refl).
Defined.

(** ** Duplicate operation ids *)

Section DictFacts.

Context {A : Type}.

Implicit Types (d : list (string * list A)) (k : string) (x : A) (xs : list A).

Lemma dict_get_append d k x k' :
  OperationIdScan.dict_get (OperationIdFixer.dict_append d k x) k' =
  if String.eqb k k' then Some (default [] (OperationIdScan.dict_get d k) ++ [x])
  else OperationIdScan.dict_get d k'.
Proof.
  induction d as [|[k0 xs0] d IH]; cbn [OperationIdFixer.dict_append OperationIdScan.dict_get].
  - by destruct (String.eqb k k').
  - destruct (String.eqb k0 k) eqn:E0; cbn [OperationIdScan.dict_get].
    + apply String.eqb_eq in E0 as ->. by destruct (String.eqb k k').
    + rewrite IH. destruct (String.eqb k0 k') eqn:E1; [|done].
      apply String.eqb_eq in E1 as ->. by rewrite String.eqb_sym, E0.
Qed.

Lemma dict_get_None d k : OperationIdScan.dict_get d k = None <-> k ∉ d.*1.
Proof.
  induction d as [|[k0 xs0] d IH]; cbn [OperationIdScan.dict_get fmap list_fmap fst].
  - split; [intros _; apply not_elem_of_nil|done].
  - destruct (String.eqb k0 k) eqn:E0.
    + apply String.eqb_eq in E0 as ->. split; [done|]. intros H. exfalso. apply H.
      apply list_elem_of_here.
    + apply String.eqb_neq in E0. rewrite IH. rewrite not_elem_of_cons.
      split; [intros ?; split; [congruence|done]|by intros [_ ?]].
Qed.

Lemma dict_append_keys d k x :
  (OperationIdFixer.dict_append d k x).*1 = if bool_decide (k ∈ d.*1) then d.*1 else d.*1 ++ [k].
Proof.
  induction d as [|[k0 xs0] d IH]; cbn [OperationIdFixer.dict_append fmap list_fmap fst].
  - rewrite bool_decide_eq_false_2; [done|apply not_elem_of_nil].
  - destruct (String.eqb k0 k) eqn:E0.
    + apply String.eqb_eq in E0 as ->. cbn.
      rewrite bool_decide_eq_true_2; [done|apply list_elem_of_here].
    + apply String.eqb_neq in E0. cbn [fmap list_fmap fst]. rewrite IH.
      case_bool_decide as H1; case_bool_decide as H2; try done.
      * exfalso. apply H2. by apply list_elem_of_further.
      * exfalso. apply elem_of_cons in H2 as [->|H2]; done.
Qed.

Lemma dict_append_nodup d k x :
  NoDup d.*1 -> NoDup (OperationIdFixer.dict_append d k x).*1.
Proof.
  intros Hnd. rewrite dict_append_keys. case_bool_decide as Hin; [done|].
  apply NoDup_app. split; [done|]. split; [|apply NoDup_singleton].
  intros y Hy ->%list_elem_of_singleton. done.
Qed.

Lemma dict_elem_get d k xs :
  NoDup d.*1 -> (k, xs) ∈ d <-> OperationIdScan.dict_get d k = Some xs.
Proof.
  induction d as [|[k0 xs0] d IH]; cbn [OperationIdScan.dict_get fmap list_fmap fst].
  - intros _. split; [by intros ?%not_elem_of_nil|done].
  - intros [Hk0 Hnd]%NoDup_cons. specialize (IH Hnd).
    destruct (String.eqb k0 k) eqn:E0.
    + apply String.eqb_eq in E0 as ->. split.
      * intros [[= ->]|Hin]%elem_of_cons; [done|]. exfalso. apply Hk0.
        apply list_elem_of_fmap. by exists (k, xs).
      * intros [= ->]. apply list_elem_of_here.
    + apply String.eqb_neq in E0. rewrite <- IH. split.
      * intros [[= -> ->]|Hin]%elem_of_cons; done.
      * intros Hin. by apply list_elem_of_further.
Qed.

End DictFacts.

Section GroupFacts.

Implicit Types (os : list OperationIdFixer.OperationId) (k : string).

Lemma group_get os : forall d k,
  OperationIdScan.dict_get (fold_left OperationIdScan.group_step os d) k =
  match List.filter (OperationIdScan.with_value k) os with
  | [] => OperationIdScan.dict_get d k
  | new => Some (default [] (OperationIdScan.dict_get d k) ++ new)
  end.
Proof.
  induction os as [|o os IH]; intros d k; cbn [fold_left List.filter]; [done|].
  rewrite IH. unfold OperationIdScan.group_step. rewrite dict_get_append.
  unfold OperationIdScan.with_value at 2. destruct (String.eqb (OperationIdFixer.value o) k) eqn:E.
  - apply String.eqb_eq in E as ->. destruct (List.filter _ os); [done|].
    simpl. by rewrite <- app_assoc.
  - done.
Qed.

Lemma group_nodup os : forall d, NoDup d.*1 -> NoDup (fold_left OperationIdScan.group_step os d).*1.
Proof.
  induction os as [|o os IH]; intros d Hd; cbn [fold_left]; [done|].
  apply IH. by apply dict_append_nodup.
Qed.

End GroupFacts.

Section ScanFacts.

Variable extract_router_decorators : string -> list OperationIdFixer.RouterDecorator.

Lemma scan_is_grouping (router_files : list (string * string)) :
  OperationIdFixer.find_duplicate_operation_ids extract_router_decorators router_files
  = List.filter (fun kv => (1 <? length kv.2)%nat)
      (fold_left OperationIdScan.group_step
         (OperationIdScan.recorded extract_router_decorators router_files) []).
Proof.
  unfold OperationIdFixer.find_duplicate_operation_ids. f_equal.
  generalize (@nil (string * list OperationIdFixer.OperationId)).
  unfold OperationIdScan.recorded.
  induction router_files as [|rf files IH]; intros acc; cbn [fold_left map concat]; [done|].
  rewrite fold_left_app, IH. f_equal.
  generalize acc. clear.
  induction (extract_router_decorators rf.1) as [|d ds IHd]; intros acc;
    cbn [fold_left map]; [done|].
  by rewrite IHd.
Qed.

End ScanFacts.

(** [find_duplicate_operation_ids] reports an id exactly when two or more
    recorded decorators have it as effective id, and then with all of them,
    in scan order; no id is reported twice. *)
Theorem find_duplicate_operation_ids_complete
    (extract_router_decorators : string -> list OperationIdFixer.RouterDecorator)
    (router_files : list (string * string)) :
  let duplicates :=
    OperationIdFixer.find_duplicate_operation_ids extract_router_decorators router_files in
  let all := OperationIdScan.recorded extract_router_decorators router_files in
  NoDup duplicates.*1 /\
  forall (k : string) (instances : list OperationIdFixer.OperationId),
    (k, instances) ∈ duplicates <->
    instances = List.filter (fun o => String.eqb (OperationIdFixer.value o) k) all /\
    (2 <= length instances)%nat.
Proof.
  cbv zeta. rewrite scan_is_grouping.
  set (all := OperationIdScan.recorded extract_router_decorators router_files).
  pose proof (group_nodup all [] (NoDup_nil_2)) as Hnd.
  split.
  - clear -Hnd. induction (fold_left _ all []) as [|[k xs] d IH]; [constructor|].
    cbn [fmap list_fmap fst] in Hnd. apply NoDup_cons in Hnd as [Hk Hnd].
    cbn [List.filter]. destruct (1 <? length (k, xs).2)%nat; [|by apply IH].
    cbn [fmap list_fmap fst]. apply NoDup_cons. split; [|by apply IH].
    intros ((k' & xs') & E & Hin)%list_elem_of_fmap. cbn in E. subst k'.
    apply list_elem_of_In, List.filter_In in Hin as [Hin _]. apply Hk.
    apply list_elem_of_fmap. exists (k, xs'). split; [done|]. by apply list_elem_of_In.
  - intros k instances. rewrite list_elem_of_In, List.filter_In, <- list_elem_of_In.
    rewrite (dict_elem_get _ _ _ Hnd), group_get. cbn [OperationIdScan.dict_get default app snd].
    change (fun o => String.eqb (OperationIdFixer.value o) k) with (OperationIdScan.with_value k).
    rewrite Nat.ltb_lt. destruct (List.filter (OperationIdScan.with_value k) all) as [|o os].
    + split; [by intros [? _]|]. intros [-> H]. cbn in H. lia.
    + split.
      * intros [[= <-] H]. split; [done|lia].
      * intros [-> H]. split; [done|lia].
Qed.

(** ** The matcher on texts without a required character or literal *)

Section MatcherFacts.

Lemma is_suffix_refl s : is_suffix s s.
Proof. by exists EmptyString. Qed.

Lemma is_suffix_tail c s' s : is_suffix (String c s') s -> is_suffix s' s.
Proof.
  intros [p ->]. exists (p +:+ String c EmptyString). by rewrite append_assoc.
Qed.

Lemma is_suffix_trans s1 s2 s3 : is_suffix s1 s2 -> is_suffix s2 s3 -> is_suffix s1 s3.
Proof. intros [p ->] [q ->]. exists (q +:+ p). by rewrite append_assoc. Qed.

(** A match that cannot be completed from any suffix of the text cannot be
    started either. *)
Lemma run_none r : forall s g k,
  (forall s' g', is_suffix s' s -> k s' g' = None) -> Re.run r s g k = None.
Proof.
  induction r as [|c|p|r1 IH1 r2 IH2|r1 IH1 r2 IH2|r1 IH1|r1 IH1| |r1 IH1];
    intros s g k Hk; cbn [Re.run].
  - apply Hk, is_suffix_refl.
  - destruct s as [|c' s']; [done|]. destruct (Ascii.eqb c c'); [|done].
    apply Hk. eapply is_suffix_tail, is_suffix_refl.
  - destruct s as [|c' s']; [done|]. destruct (p c'); [|done].
    apply Hk. eapply is_suffix_tail, is_suffix_refl.
  - apply IH1. intros s' g' Hs. apply IH2. intros s'' g'' Hs'.
    apply Hk. by eapply is_suffix_trans.
  - rewrite (IH1 _ _ _ Hk). by apply IH2.
  - generalize (String.length s) at 1. intros fuel. revert s g Hk.
    induction fuel as [|n IHn]; intros s g Hk; [apply Hk, is_suffix_refl|].
    rewrite IH1; [apply Hk, is_suffix_refl|].
    intros s' g' Hs. destruct (_ <? _)%nat; [|done].
    apply IHn. intros s'' g'' Hs'. apply Hk. by eapply is_suffix_trans.
  - generalize (String.length s) at 1. intros fuel. revert s g Hk.
    induction fuel as [|n IHn]; intros s g Hk;
      rewrite (Hk s g (is_suffix_refl s)); [done|].
    apply IH1. intros s' g' Hs. destruct (_ <? _)%nat; [|done].
    apply IHn. intros s'' g'' Hs'. apply Hk. by eapply is_suffix_trans.
  - destruct (_ || _); [|done]. apply Hk, is_suffix_refl.
  - apply IH1. intros s' g' Hs. by apply Hk.
Qed.

Lemma run_cat_none r1 r2 s g k :
  (forall s' g', is_suffix s' s -> Re.run r2 s' g' k = None) ->
  Re.run (Re.Cat r1 r2) s g k = None.
Proof. intros H. cbn [Re.run]. by apply run_none. Qed.

(** A match that is completed was completed from a suffix of the text, and
    its group, when it is not the one given at the start, is a piece of the
    text. *)
Lemma run_some r : forall s g k o,
  Re.run r s g k = Some o ->
  exists s' g',
    is_suffix s' s /\
    (g' = g \/ exists s1 n, is_suffix s1 s /\ g' = Some (Py.take n s1)) /\
    k s' g' = Some o.
Proof.
  induction r as [|c|p|r1 IH1 r2 IH2|r1 IH1 r2 IH2|r1 IH1|r1 IH1| |r1 IH1];
    intros s g k o; cbn [Re.run].
  - intros H. exists s, g. split; [apply is_suffix_refl|]. split; [by left|done].
  - destruct s as [|c' s']; [done|]. destruct (Ascii.eqb c c'); [|done].
    intros H. exists s', g. split; [eapply is_suffix_tail, is_suffix_refl|].
    split; [by left|done].
  - destruct s as [|c' s']; [done|]. destruct (p c'); [|done].
    intros H. exists s', g. split; [eapply is_suffix_tail, is_suffix_refl|].
    split; [by left|done].
  - intros H. apply IH1 in H as (s1 & g1 & Hs1 & Hg1 & H).
    apply IH2 in H as (s2 & g2 & Hs2 & Hg2 & H).
    exists s2, g2. split; [by eapply is_suffix_trans|]. split; [|done].
    destruct Hg2 as [->|(s3 & n & Hs3 & ->)]; [done|].
    right. exists s3, n. split; [by eapply is_suffix_trans|done].
  - destruct (Re.run r1 s g k) as [o1|] eqn:E.
    + intros [= <-]. by apply IH1.
    + by apply IH2.
  - generalize (String.length s) at 1. intros fuel. revert s g.
    induction fuel as [|n IHn]; intros s g.
    + intros H. exists s, g. split; [apply is_suffix_refl|]. split; [by left|done].
    + destruct (Re.run r1 s g _) as [o1|] eqn:E.
      * intros [= <-]. apply IH1 in E as (s1 & g1 & Hs1 & Hg1 & H).
        destruct (_ <? _)%nat; [|done].
        apply IHn in H as (s2 & g2 & Hs2 & Hg2 & H).
        exists s2, g2. split; [by eapply is_suffix_trans|]. split; [|done].
        destruct Hg2 as [->|(s3 & m & Hs3 & ->)]; [done|].
        right. exists s3, m. split; [by eapply is_suffix_trans|done].
      * intros H. exists s, g. split; [apply is_suffix_refl|]. split; [by left|done].
  - generalize (String.length s) at 1. intros fuel. revert s g.
    induction fuel as [|n IHn]; intros s g.
    + destruct (k s g) as [o1|] eqn:E; [|done].
      intros [= <-]. exists s, g. split; [apply is_suffix_refl|]. split; [by left|done].
    + destruct (k s g) as [o1|] eqn:E.
      * intros [= <-]. exists s, g. split; [apply is_suffix_refl|]. split; [by left|done].
      * intros H. apply IH1 in H as (s1 & g1 & Hs1 & Hg1 & H).
        destruct (_ <? _)%nat; [|done].
        apply IHn in H as (s2 & g2 & Hs2 & Hg2 & H).
        exists s2, g2. split; [by eapply is_suffix_trans|]. split; [|done].
        destruct Hg2 as [->|(s3 & m & Hs3 & ->)]; [done|].
        right. exists s3, m. split; [by eapply is_suffix_trans|done].
  - destruct (_ || _); [|done].
    intros H. exists s, g. split; [apply is_suffix_refl|]. split; [by left|done].
  - intros H. apply IH1 in H as (s1 & g1 & Hs1 & _ & H).
    exists s1, (Some (Py.take (String.length s - String.length s1) s)).
    split; [done|]. split; [|done].
    right. exists s, (String.length s - String.length s1)%nat.
    split; [apply is_suffix_refl|done].
Qed.

Lemma no_cr_suffix s' s : is_suffix s' s -> Text.no_cr s = true -> Text.no_cr s' = true.
Proof. intros [p ->]. rewrite no_cr_append. by intros [_ ?]%andb_true_iff. Qed.

(** The group of a match in a text without carriage returns holds none. *)
Lemma search_group_no_cr r s : forall pos m,
  Text.no_cr s = true -> Re.search_from r pos s = Some m ->
  Text.no_cr (default EmptyString (Re.m_group m)) = true.
Proof.
  induction s as [|c s IH]; intros pos m Hc; cbn [Re.search_from].
  - unfold Re.match_at.
    destruct (Re.run r EmptyString None _) as [[s' g]|] eqn:E; [|done].
    intros [= <-]. cbn [Re.m_group].
    apply run_some in E as (s1 & g1 & _ & Hg & [= <- <-]).
    destruct Hg as [->|(s2 & n & Hs2 & ->)]; [done|].
    cbn [default]. apply no_cr_take. by eapply no_cr_suffix.
  - unfold Re.match_at at 1.
    destruct (Re.run r (String c s) None _) as [[s' g]|] eqn:E.
    + intros [= <-]. cbn [Re.m_group].
      apply run_some in E as (s1 & g1 & _ & Hg & [= <- <-]).
      destruct Hg as [->|(s2 & n & Hs2 & ->)]; [done|].
      cbn [default]. apply no_cr_take. by eapply no_cr_suffix.
    + apply IH. cbn [Text.no_cr] in Hc. by apply andb_true_iff in Hc as [_ ?].
Qed.

(** The decorator loop of [fix_operation_ids] brings no carriage return
    into a text. *)
Lemma add_operation_ids_no_cr content :
  Text.no_cr content = true -> Text.no_cr (ApiFixer.add_operation_ids content).1 = true.
Proof.
  intros Hc. unfold ApiFixer.add_operation_ids.
  generalize (rev (Re.finditer ApiFixer.router_pattern content)). intros ms.
  assert (forall acc : string * Z, Text.no_cr acc.1 = true ->
            Text.no_cr (fold_left (ApiFixer.fix_decorator content) ms acc).1 = true) as H.
  { induction ms as [|m ms IH]; intros acc Hacc; cbn [fold_left]; [done|].
    apply IH. unfold ApiFixer.fix_decorator. destruct acc as [c n]. cbn [fst] in *.
    destruct (negb _); [|done].
    destruct (Re.search ApiFixer.def_pattern _) as [fm|] eqn:E; [|done].
    cbn [fst]. rewrite !no_cr_append.
    rewrite (no_cr_take _ _ Hacc), (no_cr_drop _ _ Hacc), andb_true_r. cbn [andb].
    apply no_cr_replace_char; [|by apply no_cr_take, no_cr_drop].
    rewrite !no_cr_append.
    rewrite (search_group_no_cr _ _ _ _ (no_cr_drop _ _ Hacc) E). done. }
  by apply H.
Qed.

End MatcherFacts.

Section OperationIdPass.

(** One directory entry of [fix_operation_ids]: nothing happens, or the
    file is read, at least one decorator is completed, and the new text is
    written back. *)
Lemma scan_item_cases rep tc e :
  ApiFixer.scan_item (rep, tc) e = (rep, tc) \/
  exists content tc',
    Fs.name e <> "__pycache__" /\
    Fs.read tc (Fs.name e) = Ret content /\
    0 < (ApiFixer.add_operation_ids content).2 /\
    Fs.write tc (Fs.name e) (ApiFixer.add_operation_ids content).1 = Ret tc' /\
    ApiFixer.scan_item (rep, tc) e =
      ({| ApiFixer.modules_checked := ApiFixer.modules_checked rep;
          ApiFixer.modules_fixed := ApiFixer.modules_fixed rep + 1;
          ApiFixer.decorators_fixed :=
            ApiFixer.decorators_fixed rep + (ApiFixer.add_operation_ids content).2;
          ApiFixer.fixed_modules := ApiFixer.fixed_modules rep ++ [Fs.name e] |}, tc').
Proof.
  unfold ApiFixer.scan_item.
  destruct (Fs.exists_init tc (Fs.name e)); cbn [andb]; [|by left].
  destruct (String.eqb (Fs.name e) "__pycache__") eqn:Hn; cbn [negb]; [by left|].
  apply String.eqb_neq in Hn.
  destruct (Fs.read tc (Fs.name e)) as [content|]; [|by left].
  destruct (ApiFixer.add_operation_ids content) as [content' n] eqn:Ha.
  destruct (n >? 0) eqn:Hpos; [|by left].
  destruct (Fs.write tc (Fs.name e) content') as [tc'|] eqn:Hw; [|by left].
  right. exists content, tc'. rewrite Ha. cbn [fst snd].
  split; [done|]. split; [done|]. split; [lia|]. done.
Qed.

Lemma scan_fold_report t es acc :
  report_ok t acc -> report_ok t (fold_left ApiFixer.scan_item es acc).
Proof.
  revert acc. induction es as [|e es IH]; intros acc Hok; cbn [fold_left]; [done|].
  apply IH. destruct acc as [rep tc].
  destruct (scan_item_cases rep tc e)
    as [->|(content & tc' & Hn & Hr & Hpos & Hw & ->)]; [done|].
  destruct Hok as (Ha & Hb & Hc & Hd). unfold report_ok.
  cbn [fst snd ApiFixer.modules_fixed ApiFixer.decorators_fixed ApiFixer.fixed_modules] in *.
  split; [rewrite length_app; cbn; lia|]. split; [lia|]. split.
  - intros m Hm. apply not_elem_of_app in Hm as [Hm Hne].
    rewrite (write_lookup_ne _ _ _ m _ Hw); [by apply Hc|].
    intros <-. apply Hne. by apply list_elem_of_singleton.
  - intros m [Hm|Hm%list_elem_of_singleton]%elem_of_app; [by apply Hd|]. subst m.
    split; [done|].
    destruct (decide (Fs.name e ∈ ApiFixer.fixed_modules rep)) as [Hin|Hout].
    + by apply (Hd _ Hin).
    + exists content. split; [|done]. rewrite <- Hr. symmetry. apply read_ext. by apply Hc.
Qed.

Lemma scan_fold_rewrite t es acc :
  NoDup (map Fs.name es) -> rewrite_ok t es acc ->
  rewrite_ok t [] (fold_left ApiFixer.scan_item es acc).
Proof.
  revert acc. induction es as [|e es IH]; intros acc Hnd Hok; cbn [fold_left]; [done|].
  cbn [map] in Hnd. apply NoDup_cons in Hnd as [He Hnd].
  apply IH; [done|]. destruct acc as [rep tc].
  destruct Hok as (Hc & Hg & Hf). unfold rewrite_ok. cbn [fst snd map] in *.
  destruct (scan_item_cases rep tc e)
    as [->|(content & tc' & Hn & Hr & Hpos & Hw & ->)];
    cbn [fst snd ApiFixer.fixed_modules].
  { split; [done|]. split; [|done]. intros m Hm Hin. apply (Hg m Hm). by right. }
  assert (Fs.name e ∉ ApiFixer.fixed_modules rep) as Hfresh.
  { intros Hin. apply (Hg _ Hin). by left. }
  split; [|split].
  - intros m Hm. apply not_elem_of_app in Hm as [Hm Hne].
    rewrite (write_lookup_ne _ _ _ m _ Hw); [by apply Hc|].
    intros <-. apply Hne. by apply list_elem_of_singleton.
  - intros m [Hm|Hm%list_elem_of_singleton]%elem_of_app; [|by subst m].
    intros Hin. apply (Hg m Hm). by right.
  - intros m [Hm|Hm%list_elem_of_singleton]%elem_of_app.
    + destruct (Hf m Hm) as (c & Hc1 & Hc2). exists c. split; [done|].
      rewrite <- Hc2. apply read_ext. apply (write_lookup_ne _ _ _ _ _ Hw).
      intros <-. by apply Hfresh.
    + subst m. exists content. split.
      * rewrite <- Hr. symmetry. apply read_ext. by apply Hc.
      * apply (write_read_clean _ _ _ _ _ Hw Hr).
        by apply universal_newlines_clean, add_operation_ids_no_cr, (read_no_cr _ _ _ Hr).
Qed.

End OperationIdPass.

(** The report of [fix_operation_ids] is consistent with what it did:
    [modules_fixed] is the length of [fixed_modules] and is at most
    [decorators_fixed]; a module that is not listed in [fixed_modules] is left
    as it was; a listed module is never [__pycache__], its file was readable
    and at least one of its decorators was completed. *)
Theorem fix_operation_ids_report (t : Fs.tree) :
  let report := (ApiFixer.fix_operation_ids t).1 in
  let t' := (ApiFixer.fix_operation_ids t).2 in
  ApiFixer.modules_fixed report = Z.of_nat (length (ApiFixer.fixed_modules report)) /\
  ApiFixer.modules_fixed report <= ApiFixer.decorators_fixed report /\
  (forall m, m ∉ ApiFixer.fixed_modules report -> Fs.lookup t' m = Fs.lookup t m) /\
  (forall m, m ∈ ApiFixer.fixed_modules report ->
     m <> "__pycache__" /\
     exists content, Fs.read t m = Ret content /\
                     0 < (ApiFixer.add_operation_ids content).2).
Proof.
  cbv zeta. apply (scan_fold_report t t). unfold report_ok.
  cbn [fst snd length ApiFixer.modules_fixed ApiFixer.decorators_fixed ApiFixer.fixed_modules].
  split; [done|]. split; [lia|]. split; [done|]. intros m Hm. by apply elem_of_nil in Hm.
Qed.

(** In a directory whose entries have distinct names, every module listed in
    [fixed_modules] holds, after [fix_operation_ids], the text computed from
    the text it had before. *)
Theorem fix_operation_ids_rewrites (t : Fs.tree) (m : string) :
  NoDup (map Fs.name t) ->
  m ∈ ApiFixer.fixed_modules (ApiFixer.fix_operation_ids t).1 ->
  exists content,
    Fs.read t m = Ret content /\
    Fs.read (ApiFixer.fix_operation_ids t).2 m
    = Ret (ApiFixer.add_operation_ids content).1.
Proof.
  intros Hnd Hm.
  assert (rewrite_ok t [] (ApiFixer.fix_operation_ids t)) as (_ & _ & Hf).
  { apply scan_fold_rewrite; [done|]. unfold rewrite_ok.
    cbn [fst snd ApiFixer.fixed_modules].
    split; [done|]. split; intros m' Hm'; by apply elem_of_nil in Hm'. }
  by apply Hf.
Qed.

Lemma fix_operation_ids_rewrites_witness :
  exists content,
    Fs.read Trees.two_routers "listings" = Ret content /\
    Fs.read (ApiFixer.fix_operation_ids Trees.two_routers).2 "listings"
    = Ret (ApiFixer.add_operation_ids content).1.
Proof.
  apply (fix_operation_ids_rewrites Trees.two_routers "listings").
  - apply (bool_decide_unpack _). vm_compute. reflexivity.
  - apply list_elem_of_In. vm_compute. left. reflexivity.
Defined.

Section LiteralFacts.

Lemma run_lit_none l s g k :
  Py.startswith l s = false -> Re.run (Re.Lit l) s g k = None.
Proof.
  unfold Py.startswith. revert s. induction l as [|a l IH]; intros s H; [by destruct s|].
  cbn [Re.Lit Re.run]. destruct s as [|b s]; [done|]. cbn [String.prefix] in H.
  destruct (Ascii.eqb a b) eqn:E; [|done].
  apply Ascii.eqb_eq in E as ->. destruct (ascii_dec b b) as [_|Hn]; [|done]. by apply IH.
Qed.

Lemma match_at_lit_none l r pos s :
  Py.startswith l s = false -> Re.match_at (Re.Cat (Re.Lit l) r) pos s = None.
Proof.
  intros H. unfold Re.match_at. cbn [Re.run]. by rewrite run_lit_none.
Qed.

Lemma contains_tail sub c s : Py.contains sub (String c s) = false ->
  Py.startswith sub (String c s) = false /\ Py.contains sub s = false.
Proof. cbn [Py.contains]. by intros [? ?]%orb_false_iff. Qed.

(** A pattern that begins with a literal has no match in a text without
    that literal. *)
Lemma finditer_lit_none l r s : forall pos skip,
  Py.contains l s = false -> Re.finditer_from (Re.Cat (Re.Lit l) r) pos skip s = [].
Proof.
  induction s as [|c s IH]; intros pos skip H.
  - destruct skip; [|done]. cbn [Re.finditer_from]. rewrite match_at_lit_none; [done|].
    cbn [Py.contains] in H. by apply orb_false_iff in H as [? _].
  - apply contains_tail in H as [H1 H2].
    destruct skip; cbn [Re.finditer_from]; [|by apply IH].
    rewrite match_at_lit_none; [|done]. by apply IH.
Qed.

Lemma not_contains_suffix sub s' s :
  is_suffix s' s -> Py.contains sub s = false -> Py.contains sub s' = false.
Proof.
  intros [p ->]. induction p as [|c p IH]; [done|]. intros H.
  change (String c p +:+ s') with (String c (p +:+ s')) in H.
  apply contains_tail in H as [_ H]. by apply IH.
Qed.

Lemma run_chr_none c s g k :
  Py.contains (String c EmptyString) s = false -> Re.run (Re.Chr c) s g k = None.
Proof.
  intros H. cbn [Re.run]. destruct s as [|c' s']; [done|].
  destruct (Ascii.eqb c c') eqn:E; [|done]. apply Ascii.eqb_eq in E as <-.
  apply contains_tail in H as [H _]. unfold Py.startswith in H. cbn [String.prefix] in H.
  destruct (ascii_dec c c); [by destruct s'|done].
Qed.

(** The pattern of [suggest_fixes] ends in a single quote: it matches
    nowhere in a text without one. *)
Lemma operation_id_pattern_none pos s :
  Py.contains Py.SQ s = false ->
  Re.match_at OperationIdFixer.operation_id_pattern pos s = None.
Proof.
  intros H. unfold Re.match_at, OperationIdFixer.operation_id_pattern.
  rewrite run_cat_none; [done|].
  intros s1 g1 H1. apply run_cat_none. intros s2 g2 H2. apply run_cat_none.
  intros s3 g3 H3. apply run_cat_none. intros s4 g4 H4. apply run_cat_none.
  intros s5 g5 H5. apply run_cat_none. intros s6 g6 H6. apply run_chr_none.
  eapply not_contains_suffix; [|exact H].
  exact (is_suffix_trans _ _ _ H6 (is_suffix_trans _ _ _ H5 (is_suffix_trans _ _ _ H4
           (is_suffix_trans _ _ _ H3 (is_suffix_trans _ _ _ H2 H1))))).
Qed.

Lemma sub_no_match r repl s :
  (forall s', is_suffix s' s -> Re.match_at r 0 s' = None) -> Re.sub r repl s = s.
Proof.
  unfold Re.sub. induction s as [|c s IH]; intros H; cbn [Re.sub_from].
  - by rewrite (H _ (is_suffix_refl _)).
  - rewrite (H _ (is_suffix_refl _)). f_equal. apply IH.
    intros s' Hs. apply H. eapply is_suffix_trans; [exact Hs|].
    eapply is_suffix_tail, is_suffix_refl.
Qed.

End LiteralFacts.

(** [fix_operation_ids] changes nothing in a text without the literal
    [@router.]: no decorator is found, the text is returned as it is and the
    number of fixes is 0. *)
Theorem add_operation_ids_without_decorators (content : string) :
  Py.contains "@router." content = false ->
  ApiFixer.add_operation_ids content = (content, 0).
Proof.
  intros H. unfold ApiFixer.add_operation_ids, Re.finditer, ApiFixer.router_pattern.
  by rewrite finditer_lit_none.
Qed.

Lemma add_operation_ids_without_decorators_witness :
  ApiFixer.add_operation_ids Trees.plain = (Trees.plain, 0).
Proof. apply add_operation_ids_without_decorators. reflexivity. Defined.

(** The number of fixes [fix_operation_ids] counts for a file is between 0
    and the number of decorators the pattern finds in it. *)
Theorem add_operation_ids_count (content : string) :
  0 <= (ApiFixer.add_operation_ids content).2
  <= Z.of_nat (length (Re.finditer ApiFixer.router_pattern content)).
Proof.
  unfold ApiFixer.add_operation_ids. rewrite <- (length_rev (Re.finditer _ _)).
  generalize (rev (Re.finditer ApiFixer.router_pattern content)). intros ms.
  assert (forall acc, 0 <= acc.2 ->
            acc.2 <= (fold_left (ApiFixer.fix_decorator content) ms acc).2
            <= acc.2 + Z.of_nat (length ms)) as Hfold.
  { induction ms as [|m ms IH]; intros acc Hacc; cbn [fold_left length]; [lia|].
    assert (acc.2 <= (ApiFixer.fix_decorator content acc m).2 <= acc.2 + 1) as Hstep.
    { unfold ApiFixer.fix_decorator. destruct acc as [c n]. cbn [snd].
      destruct (negb _); [|cbn; lia].
      destruct (Re.search _ _); cbn; lia. }
    specialize (IH (ApiFixer.fix_decorator content acc m)). lia. }
  specialize (Hfold (content, 0)). cbn [snd] in Hfold. lia.
Qed.

Lemma fix_instance_double_quoted (read_text : string -> exc string)
    (used : gset string) (instance : OperationIdFixer.OperationId)
    (f : OperationIdFixer.suggestion) (used' : gset string) :
  OperationIdFixer.fix_instance read_text used instance = Ret (f, used') ->
  Py.contains "operation_id=" (OperationIdFixer.f_original_line f) = true ->
  Py.contains Py.SQ (OperationIdFixer.f_original_line f) = false ->
  OperationIdFixer.f_fixed_line f = OperationIdFixer.f_original_line f.
Proof.
  unfold OperationIdFixer.fix_instance, mbind, exc_bind, mret, exc_ret.
  destruct (read_text _) as [text|]; [|discriminate].
  destruct (Py.readlines text !! _) as [line|]; [|discriminate].
  intros [= <- _]. cbn [OperationIdFixer.f_original_line OperationIdFixer.f_fixed_line].
  unfold OperationIdFixer.fixed_line.
  intros -> Hq. apply sub_no_match. intros s' Hs. apply operation_id_pattern_none.
  by eapply not_contains_suffix.
Qed.

Section SuggestionFacts.

Variable read_text : string -> exc string.

Lemma fix_instances_elem instances : forall used fs,
  OperationIdFixer.fix_instances read_text used instances = Ret fs ->
  forall f, f ∈ fs ->
    exists used0 instance used1,
      OperationIdFixer.fix_instance read_text used0 instance = Ret (f, used1).
Proof.
  induction instances as [|i instances IH]; intros used fs;
    cbn [OperationIdFixer.fix_instances]; unfold mbind, exc_bind, mret, exc_ret.
  - intros [= <-] f Hf. by apply elem_of_nil in Hf.
  - destruct (OperationIdFixer.fix_instance read_text used i) as [[f0 used0]|] eqn:E;
      [|discriminate].
    destruct (OperationIdFixer.fix_instances read_text used0 instances) as [fs0|] eqn:E';
      [|discriminate].
    intros [= <-] f [->|Hf]%elem_of_cons; [by exists used, i, used0|].
    by apply (IH _ _ E').
Qed.

Lemma dict_append_elem {A : Type} (d : list (string * list A)) k' x' k xs x :
  (k, xs) ∈ OperationIdFixer.dict_append d k' x' -> x ∈ xs ->
  (exists xs0, (k, xs0) ∈ d /\ x ∈ xs0) \/ x = x'.
Proof.
  induction d as [|[k0 xs0] d IH]; cbn [OperationIdFixer.dict_append].
  - intros [= -> ->]%list_elem_of_singleton Hx%list_elem_of_singleton. by right.
  - destruct (String.eqb k0 k').
    + intros [[= -> ->]|Hin]%elem_of_cons Hx.
      * apply elem_of_app in Hx as [Hx|Hx%list_elem_of_singleton]; [|by right].
        left. exists xs0. split; [apply list_elem_of_here|done].
      * left. exists xs. split; [by apply list_elem_of_further|done].
    + intros [[= -> ->]|Hin]%elem_of_cons Hx.
      * left. exists xs0. split; [apply list_elem_of_here|done].
      * destruct (IH Hin Hx) as [(xs1 & H1 & H2)| ->]; [|by right].
        left. exists xs1. split; [by apply list_elem_of_further|done].
Qed.

Lemma dict_fold_elem {A B : Type} (key : A -> string) (val : A -> B) fs :
  forall d k xs x,
  (k, xs) ∈ fold_left (fun d f => OperationIdFixer.dict_append d (key f) (val f)) fs d ->
  x ∈ xs ->
  (exists xs0, (k, xs0) ∈ d /\ x ∈ xs0) \/ exists f, f ∈ fs /\ val f = x.
Proof.
  induction fs as [|f fs IH]; intros d k xs x; cbn [fold_left].
  - intros Hin Hx. left. by exists xs.
  - intros Hin Hx. destruct (IH _ _ _ _ Hin Hx) as [(xs0 & H0 & Hx0)|(f' & Hf' & <-)].
    + destruct (dict_append_elem _ _ _ _ _ _ H0 Hx0) as [?| ->]; [by left|].
      right. exists f. split; [apply list_elem_of_here|done].
    + right. exists f'. split; [by apply list_elem_of_further|done].
Qed.

End SuggestionFacts.

(** [suggest_fixes] changes nothing in a decorator line that has
    [operation_id=] and no single quote character, as when the id is written
    in double quotes: the suggested line is the original line. *)
Theorem suggest_fixes_keeps_double_quoted (read_text : string -> exc string)
    (duplicates : list (string * list OperationIdFixer.OperationId))
    (fixes : list (string * list (string * string)))
    (filepath : string) (file_fixes : list (string * string))
    (original_line fixed_line : string) :
  OperationIdFixer.suggest_fixes read_text duplicates = Ret fixes ->
  (filepath, file_fixes) ∈ fixes ->
  (original_line, fixed_line) ∈ file_fixes ->
  Py.contains "operation_id=" original_line = true ->
  Py.contains Py.SQ original_line = false ->
  fixed_line = original_line.
Proof.
  unfold OperationIdFixer.suggest_fixes, OperationIdFixer.suggested,
    mbind, exc_bind, mret, exc_ret.
  destruct (OperationIdFixer.fix_instances _ _ _) as [fs|] eqn:E; [|discriminate].
  intros [= <-] Hin Hpair Hop Hq.
  destruct (dict_fold_elem _ _ _ _ _ _ _ Hin Hpair) as [(xs0 & H0 & _)|(f & Hf & Hval)].
  { by apply elem_of_nil in H0. }
  destruct (fix_instances_elem _ _ _ _ E f Hf) as (used0 & i & used1 & Hi).
  injection Hval as <- <-.
  by apply (fix_instance_double_quoted read_text used0 i f used1).
Qed.

Lemma suggest_fixes_keeps_double_quoted_witness :
  OperationIdFixer.suggest_fixes read_route_fixed Trees.duplicates
  = Ret [ (Trees.listings_path,
           [(Py.take 49 Trees.route_fixed, Py.take 49 Trees.route_fixed)]);
          (Trees.catalog_path,
           [(Py.take 49 Trees.route_fixed, Py.take 49 Trees.route_fixed)]) ] /\
  Py.take 49 Trees.route_fixed = Py.take 49 Trees.route_fixed.
Proof.
  split; [vm_compute; reflexivity|].
  apply (suggest_fixes_keeps_double_quoted read_route_fixed Trees.duplicates
           [ (Trees.listings_path,
              [(Py.take 49 Trees.route_fixed, Py.take 49 Trees.route_fixed)]);
             (Trees.catalog_path,
              [(Py.take 49 Trees.route_fixed, Py.take 49 Trees.route_fixed)]) ]
           Trees.listings_path
           [(Py.take 49 Trees.route_fixed, Py.take 49 Trees.route_fixed)]).
  - vm_compute. reflexivity.
  - apply list_elem_of_here.
  - apply list_elem_of_here.
  - reflexivity.
  - reflexivity.
Defined.

Section RouterBatchFacts.

(** [sorted] is a sort: the same names, each no greater than the next. *)
Lemma insert_sorted_perm x l : RouterBatch.insert_sorted x l ≡ₚ x :: l.
Proof.
  induction l as [|y l IH]; cbn [RouterBatch.insert_sorted]; [done|].
  destruct (String.leb x y); [done|]. rewrite IH. apply Permutation_swap.
Qed.

Lemma sorted_perm l : RouterBatch.sorted l ≡ₚ l.
Proof.
  induction l as [|x l IH]; cbn [RouterBatch.sorted fold_right]; [done|].
  fold (RouterBatch.sorted l). by rewrite insert_sorted_perm, IH.
Qed.

Lemma insert_sorted_sorted x l :
  Sorted (fun a b => String.leb a b = true) l ->
  Sorted (fun a b => String.leb a b = true) (RouterBatch.insert_sorted x l).
Proof.
  induction 1 as [|y l Hs IH Hd]; cbn [RouterBatch.insert_sorted].
  - by repeat constructor.
  - destruct (String.leb x y) eqn:E.
    + constructor; [by constructor|by constructor].
    + constructor; [done|].
      destruct (String.leb_total x y) as [Hxy|Hyx]; [congruence|].
      destruct Hd as [|z l Hz]; cbn [RouterBatch.insert_sorted]; [by constructor|].
      destruct (String.leb x z); by constructor.
Qed.

Lemma sorted_sorted l : Sorted (fun a b => String.leb a b = true) (RouterBatch.sorted l).
Proof.
  induction l as [|x l IH]; cbn [RouterBatch.sorted fold_right]; [constructor|].
  by apply insert_sorted_sorted.
Qed.

Lemma fix_module_router_module t m :
  RouterBatch.reply_module (ApiFixer.fix_module_router t m).1 = m.
Proof.
  unfold ApiFixer.fix_module_router.
  destruct (negb _); [done|]. unfold mbind, exc_bind, mret, exc_ret.
  destruct (Fs.read t m) as [content|]; [|done].
  destruct (Py.is_blank content); [done|].
  destruct (if Py.contains "APIRouter" content then _ else _) as [content1 fixes1].
  destruct (if match Re.search _ _ with Some _ => true | None => false end then _ else _)
    as [content2 fixes2].
  destruct (fixes1 ++ fixes2); [done|].
  by destruct (Fs.write t m content2).
Qed.

Lemma fix_module_router_lookup_ne t m m' :
  m <> m' -> Fs.lookup (ApiFixer.fix_module_router t m).2 m' = Fs.lookup t m'.
Proof.
  intros Hne. unfold ApiFixer.fix_module_router.
  destruct (negb _); [done|]. unfold mbind, exc_bind, mret, exc_ret.
  destruct (Fs.read t m) as [content|]; [|done].
  destruct (Py.is_blank content); [done|].
  destruct (if Py.contains "APIRouter" content then _ else _) as [content1 fixes1].
  destruct (if match Re.search _ _ with Some _ => true | None => false end then _ else _)
    as [content2 fixes2].
  destruct (fixes1 ++ fixes2); [done|].
  destruct (Fs.write t m content2) as [t'|] eqn:Hw; [|done].
  cbn [snd]. by apply (write_lookup_ne _ _ _ _ _ Hw).
Qed.

Lemma router_fold ms : forall results t,
  let out := fold_left RouterBatch.visit ms (results, t) in
  Fs.lookup out.2 "api_fixer" = Fs.lookup t "api_fixer" /\
  RouterBatch.reply_module <$> out.1
  = (RouterBatch.reply_module <$> results)
    ++ List.filter (fun m => negb (String.eqb m "api_fixer")) ms.
Proof.
  cbv zeta. induction ms as [|m ms IH]; intros results t; cbn [fold_left List.filter].
  - by rewrite app_nil_r.
  - unfold RouterBatch.visit at 2 4. destruct (String.eqb m "api_fixer") eqn:E; cbn [negb].
    + apply IH.
    + apply String.eqb_neq in E.
      pose proof (fix_module_router_module t m) as Hm.
      pose proof (fix_module_router_lookup_ne t m "api_fixer" E) as Hl.
      destruct (ApiFixer.fix_module_router t m) as [r t']. cbn [fst snd] in *.
      destruct (IH (results ++ [r]) t') as [H1 H2]. split; [by rewrite H1|].
      rewrite H2, fmap_app. cbn [fmap list_fmap]. rewrite Hm. by rewrite <- app_assoc.
Qed.

End RouterBatchFacts.

(** [fix_all_modules_router] leaves the module [api_fixer] as it was and
    reports nothing for it; it returns one reply for every other listed
    module, in sorted order. *)
Theorem fix_all_modules_router_spares_itself (t : Fs.tree) :
  let results := (RouterBatch.fix_all_modules_router t).1 in
  let t' := (RouterBatch.fix_all_modules_router t).2 in
  Fs.lookup t' "api_fixer" = Fs.lookup t "api_fixer" /\
  RouterBatch.reply_module <$> results
  = List.filter (fun m => negb (String.eqb m "api_fixer"))
      (RouterBatch.sorted (RouterBatch.modules t)) /\
  "api_fixer" ∉ RouterBatch.reply_module <$> results.
Proof.
  cbv zeta. unfold RouterBatch.fix_all_modules_router.
  destruct (router_fold (RouterBatch.sorted (RouterBatch.modules t)) [] t) as [H1 H2].
  cbn [fmap list_fmap app] in H2. split; [done|]. split; [done|].
  rewrite H2. intros [_ H]%list_elem_of_In%List.filter_In. done.
Qed.

(** When the check endpoint of [api_consistency] answers with a report, the
    module was readable and the report is for it; a valid module has no
    issue, and a module that is not valid has exactly one, which carries the
    text of the [SyntaxError]: a failure of [compile] of another kind never
    gives a report. *)
Theorem check_api_consistency_report (compile : string -> compile_result)
    (t : Fs.tree) (module_name : string) (r : ConsistencyCheck.report) :
  ConsistencyCheck.check_api_consistency compile t module_name = ConsistencyCheck.Ok r ->
  ConsistencyCheck.module r = module_name /\
  exists content,
    Fs.read t module_name = Ret content /\
    match compile content with
    | Compiled =>
        ConsistencyCheck.is_valid r = true /\ ConsistencyCheck.issues r = []
    | SyntaxError _ text =>
        ConsistencyCheck.is_valid r = false /\
        exists i, ConsistencyCheck.issues r = [i] /\ ApiConsistency.description i = text
    | OtherException _ => False
    end.
Proof.
  unfold ConsistencyCheck.check_api_consistency, mbind, exc_bind, mret, exc_ret.
  destruct (negb _); [discriminate|].
  destruct (Fs.read t module_name) as [content|]; [|discriminate].
  unfold ApiConsistency.is_syntax_valid, ApiConsistency.detect_issues.
  destruct (compile content) as [|ln text|text] eqn:E; cbn [negb];
    [intros [= <-]..|discriminate]; (split; [done|]); exists content; rewrite E.
  - done.
  - split; [done|]. split; [done|]. by eexists.
Qed.

Lemma check_api_consistency_report_witness :
  let r :=
    {| ConsistencyCheck.module := "media"; ConsistencyCheck.is_valid := false;
       ConsistencyCheck.issues :=
         [ {| ApiConsistency.type := ApiConsistency.unterminated_string;
              ApiConsistency.line := 1;
              ApiConsistency.description :=
                "unterminated string literal (detected at line 1) (<string>, line 1)" |} ] |} in
  ConsistencyCheck.check_api_consistency Sample.mini_compile Trees.five_with_fixer "media"
  = ConsistencyCheck.Ok r /\
  ConsistencyCheck.module r = "media" /\
  exists content,
    Fs.read Trees.five_with_fixer "media" = Ret content /\
    match Sample.mini_compile content with
    | Compiled =>
        ConsistencyCheck.is_valid r = true /\ ConsistencyCheck.issues r = []
    | SyntaxError _ text =>
        ConsistencyCheck.is_valid r = false /\
        exists i, ConsistencyCheck.issues r = [i] /\ ApiConsistency.description i = text
    | OtherException _ => False
    end.
Proof.
  intros r. split; [vm_compute; reflexivity|].
  apply (check_api_consistency_report Sample.mini_compile Trees.five_with_fixer "media" r).
  vm_compute. reflexivity.
Defined.

(** ** The ids of the duplicate fixer *)

Section FreshIds.

Variable read_text : string -> exc string.




End FreshIds.




